(** * Script registry and hot-swap subsystem (ScriptMgr.cpp)

    A shallow embedding of the registry template machinery of
    [src/server/game/Scripting/ScriptMgr.cpp]: the database bound and the
    database unbound [SpecializedScriptRegistry], the per-category swap hooks,
    the [ScriptRegistryCompositum] with its delayed-delete queue and the
    creature / game-object swap logic, followed by the properties the
    specification states about them. *)

From stdpp Require Import gmap strings list fin_maps.

Open Scope string_scope.
Open Scope list_scope.
Open Scope N_scope.

(** ** Abnormal termination

    Every lifecycle operation either completes or terminates the process.
    [Fatal] carries the message of the failed assertion. *)

Inductive Result (A : Type) : Type :=
| Ok (a : A)
| Fatal (msg : string).
Arguments Ok {A} a.
Arguments Fatal {A} msg.

Definition bind {A B : Type} (m : Result A) (k : A -> Result B) : Result B :=
  match m with
  | Ok a => k a
  | Fatal msg => Fatal msg
  end.

Notation "'do' x <- m ; k" := (bind m (fun x => k))
  (at level 10, x pattern, m at level 100, k at level 200).
Notation "m ;; k" := (bind m (fun _ => k))
  (at level 100, k at level 200, right associativity).

(** Modelled from the spec: the macro [ASSERT] comes from a header that is
    not among the sources; the specification treats a failed assertion as
    process-fatal, always. *)
Definition ASSERT (cond : bool) (msg : string) : Result unit :=
  if cond then Ok tt else Fatal msg.

(** ** Script objects and script types *)

(** A script instance: its address (pointer identity), the immutable name
    returned by [GetName()] and the answer of [IsAfterLoadDB()]. *)
Record Script : Type := {
  s_ptr : N;
  GetName : string;
  IsAfterLoadDB : bool
}.

Global Instance Script_eq_dec : EqDecision Script.
Proof. solve_decision. Defined.

Inductive ScriptType : Type :=
| SpellScriptLoader | InstanceMapScript | ItemScript | CreatureScript
| GameObjectScript | VehicleScript | AreaTriggerScript | BattlegroundScript
| OutdoorPvPScript | WeatherScript | ConditionScript | TransportScript
| AchievementCriteriaScript
| CommandScript | WorldScript | PlayerScript | ServerScript.

Global Instance ScriptType_eq_dec : EqDecision ScriptType.
Proof. solve_decision. Defined.

(** Trait which indicates whether this script type must be assigned in the
    database. *)
Definition is_script_database_bound (T : ScriptType) : bool :=
  match T with
  | SpellScriptLoader | InstanceMapScript | ItemScript | CreatureScript
  | GameObjectScript | VehicleScript | AreaTriggerScript | BattlegroundScript
  | OutdoorPvPScript | WeatherScript | ConditionScript | TransportScript
  | AchievementCriteriaScript => true
  | CommandScript | WorldScript | PlayerScript | ServerScript => false
  end.

(** ** Collaborators that are not part of ScriptMgr.cpp *)

(** What the registry takes from its host process. [GetScriptId] is
    [sObjectMgr->GetScriptId], the identifier resolution collaborator: the
    id the content database assigns to a script name, [0] when the name is
    not assigned. [debug_assertions] tells whether the build has debug
    assertions, which decides what [ABORT] and [ABORT_MSG] do. *)
Class Host : Type := {
  GetScriptId : string -> N;
  debug_assertions : bool
}.

(** ** The world of live entities

    The simulation (maps, creatures, game objects) is an external
    collaborator of the registry; its classes are not among the sources. The
    records below hold what the swap logic reads and writes through [AI()],
    [GetGUID()], [GetScriptId()], [IsAlive()], [IsCharmed()],
    [AIM_Destroy()], [AIM_Create()] / [AIM_Initialize()] and the event queue
    [m_Events]. *)

Inductive ObjectType : Type := Creature | GameObject.

(** Virtual calls made on an attached AI; the AI keeps them in call order. *)
Inductive AICall : Type := CallEnterEvadeMode | CallReset.

(** An attached behavior. [ai_addr] is the address the allocator returned for
    it, [ai_script] the registered script that built it ([None] when the
    factory fell back to a default AI because the id had no script). *)
Record AI : Type := {
  ai_addr : N;
  ai_script : option Script;
  ai_calls : list AICall
}.

Inductive BasicEvent : Type :=
| AsyncCastHotswapEffectEvent
| OtherEvent (deletable : bool).

Definition IsDeletable (ev : BasicEvent) : bool :=
  match ev with
  | AsyncCastHotswapEffectEvent => true
  | OtherEvent d => d
  end.

(** Modelled from the spec: a creature or a game object, an entity that
    optionally owns exactly one attached behavior. [guid = 0] is the empty
    guid of an object that was not added to the world yet. Destroying or
    creating the behavior of an entity may fail; [ai_locked] tells that it
    does for this entity. *)
Record Entity : Type := {
  guid : N;
  script_id : N;
  ai : option AI;
  alive : bool;
  charmed : bool;
  unit_state_evade : bool;
  ai_enabled : bool;
  ai_locked : bool;
  m_Events : list BasicEvent
}.

(** The typed object stores of one map, in the iteration order of the
    underlying hash maps. *)
Record Map : Type := {
  creatures : list Entity;
  gameobjects : list Entity
}.

Definition GetObjectsStore (OT : ObjectType) (m : Map) : list Entity :=
  match OT with Creature => creatures m | GameObject => gameobjects m end.

Definition SetObjectsStore (OT : ObjectType) (l : list Entity) (m : Map) : Map :=
  match OT with
  | Creature => {| creatures := l; gameobjects := gameobjects m |}
  | GameObject => {| creatures := creatures m; gameobjects := l |}
  end.

(** ** Observable effects *)

Inductive Event : Type :=
| LogError (channel message : string)
| Destroyed (s : Script)
| OutdoorPvPDie
| OutdoorPvPInit
| ValidateSpellScripts
| InvalidateCommandTable.

(** ** Process-wide state reachable from every registry

    The delayed-delete queue and the name-to-context map of the
    [ScriptRegistryCompositum], the current context of [ScriptMgr], the maps
    of [MapManager] with the allocator position for new AI objects, and the
    trace of effects emitted so far. *)
Record Globals : Type := {
  _delayed_delete_queue : list Script;
  _scriptnames_to_context : gmap string string;
  _currentContext : string;
  maps : list Map;
  ai_next : N;
  trace : list Event
}.

Definition emit (evs : list Event) (g : Globals) : Globals :=
  {| _delayed_delete_queue := _delayed_delete_queue g;
     _scriptnames_to_context := _scriptnames_to_context g;
     _currentContext := _currentContext g;
     maps := maps g;
     ai_next := ai_next g;
     trace := trace g ++ evs |}.

Definition set_queue (q : list Script) (g : Globals) : Globals :=
  {| _delayed_delete_queue := q;
     _scriptnames_to_context := _scriptnames_to_context g;
     _currentContext := _currentContext g;
     maps := maps g;
     ai_next := ai_next g;
     trace := trace g |}.

Definition set_names (n : gmap string string) (g : Globals) : Globals :=
  {| _delayed_delete_queue := _delayed_delete_queue g;
     _scriptnames_to_context := n;
     _currentContext := _currentContext g;
     maps := maps g;
     ai_next := ai_next g;
     trace := trace g |}.

Definition set_world (ms : list Map) (next : N) (g : Globals) : Globals :=
  {| _delayed_delete_queue := _delayed_delete_queue g;
     _scriptnames_to_context := _scriptnames_to_context g;
     _currentContext := _currentContext g;
     maps := ms;
     ai_next := next;
     trace := trace g |}.

(** [ScriptMgr::SetScriptContext] *)
Definition SetScriptContext (context : string) (g : Globals) : Globals :=
  {| _delayed_delete_queue := _delayed_delete_queue g;
     _scriptnames_to_context := _scriptnames_to_context g;
     _currentContext := context;
     maps := maps g;
     ai_next := ai_next g;
     trace := trace g |}.

(** Modelled from the spec: the macros [ABORT_MSG] and [ABORT] come from a
    header that is not among the sources; the specification says of the
    duplicate registration path that it aborts only in debug builds and
    that a release build logs and drops. So [ABORT_MSG(...)] is fatal with
    debug assertions and a logged error without. *)
Definition ABORT_MSG `{Host} (message : string) (g : Globals) : Result Globals :=
  if debug_assertions then Fatal message
  else Ok (emit [LogError "scripts" message] g).

(** Modelled from the spec: [ABORT()], fatal with debug assertions only (see
    [ABORT_MSG]). *)
Definition ABORT `{Host} : Result unit :=
  if debug_assertions then Fatal "ABORT" else Ok tt.

(** ** ScriptRegistryCompositum: the parts a registry calls back into *)

Definition SetScriptNameInContext (scriptname context : string) (g : Globals)
  : Result Globals :=
  ASSERT (bool_decide (_scriptnames_to_context g !! scriptname = None))
         "Scriptname was assigned to this context already!" ;;
  Ok (set_names (<[scriptname := context]> (_scriptnames_to_context g)) g).

Definition GetScriptContextOfScriptName (scriptname : string) (g : Globals)
  : Result string :=
  match _scriptnames_to_context g !! scriptname with
  | Some context => Ok context
  | None => Fatal "Given scriptname doesn't exist!"
  end.

Definition QueueForDelayedDelete (any : Script) (g : Globals) : Globals :=
  set_queue (_delayed_delete_queue g ++ [any]) g.

(** [DoDelayedDelete]: clearing the vector runs the destructor of every
    queued object. *)
Definition DoDelayedDelete (g : Globals) : Globals :=
  emit (Destroyed <$> _delayed_delete_queue g) (set_queue [] g).

(** ** Entity level operations used by the swap logic

    The member functions of [Creature] and [GameObject] are not among the
    sources; the operations below follow the world enumeration collaborator
    of the specification (detach, attach a fresh behavior built from the
    entity's current id, disengage transition) and the comments at their
    call sites. *)

Definition set_ai (a : option AI) (e : Entity) : Entity :=
  {| guid := guid e; script_id := script_id e; ai := a; alive := alive e;
     charmed := charmed e; unit_state_evade := unit_state_evade e;
     ai_enabled := ai_enabled e; ai_locked := ai_locked e;
     m_Events := m_Events e |}.

Definition set_events (evs : list BasicEvent) (e : Entity) : Entity :=
  {| guid := guid e; script_id := script_id e; ai := ai e; alive := alive e;
     charmed := charmed e; unit_state_evade := unit_state_evade e;
     ai_enabled := ai_enabled e; ai_locked := ai_locked e;
     m_Events := evs |}.

Definition set_charmed (b : bool) (e : Entity) : Entity :=
  {| guid := guid e; script_id := script_id e; ai := ai e; alive := alive e;
     charmed := b; unit_state_evade := unit_state_evade e;
     ai_enabled := ai_enabled e; ai_locked := ai_locked e;
     m_Events := m_Events e |}.

Definition set_evade (b : bool) (e : Entity) : Entity :=
  {| guid := guid e; script_id := script_id e; ai := ai e; alive := alive e;
     charmed := charmed e; unit_state_evade := b;
     ai_enabled := ai_enabled e; ai_locked := ai_locked e;
     m_Events := m_Events e |}.

Definition set_enabled (b : bool) (e : Entity) : Entity :=
  {| guid := guid e; script_id := script_id e; ai := ai e; alive := alive e;
     charmed := charmed e; unit_state_evade := unit_state_evade e;
     ai_enabled := b; ai_locked := ai_locked e;
     m_Events := m_Events e |}.

(** Modelled from the spec: [m_Events.KillAllEvents(false)], which by the
    comment at its call site removes the deletable events only. *)
Definition KillAllEvents (e : Entity) : Entity :=
  set_events (filter (fun ev => IsDeletable ev = false) (m_Events e)) e.

(** Modelled from the spec: [RemoveCharmedBy(nullptr)] clears the charm, the
    relationship that must be cleared before the behavior is destroyed. *)
Definition RemoveCharmedBy (e : Entity) : Entity := set_charmed false e.

(** Modelled from the spec: [object->AI()->call()], a call into the attached
    behavior ([EnterEvadeMode] is the disengage transition); dereferencing a
    null AI crashes the process. *)
Definition AI_call (c : AICall) (e : Entity) : Result Entity :=
  match ai e with
  | Some a =>
      Ok (set_ai (Some {| ai_addr := ai_addr a; ai_script := ai_script a;
                          ai_calls := ai_calls a ++ [c] |}) e)
  | None => Fatal "null AI dereferenced"
  end.

(** Modelled from the spec: [AIM_Destroy()] (DetachBehavior) destroys the
    attached behavior synchronously and answers whether it did. *)
Definition AIM_Destroy (e : Entity) : bool * Entity :=
  if ai_locked e then (false, e)
  else (true, set_enabled false (set_ai None e)).

(** Modelled from the spec: [AIM_Create()] / [AIM_Initialize()]
    (AttachFreshBehavior) construct a fresh behavior from the entity's
    current id: the factory asks the registry for the script of the id and
    allocates a new AI at address [next]; answers whether it did. *)
Definition AIM_Create (scripts : gmap N Script) (next : N) (e : Entity)
  : bool * Entity * N :=
  if ai_locked e then (false, e, next)
  else (true,
        set_ai (Some {| ai_addr := next;
                        ai_script := scripts !! script_id e;
                        ai_calls := [] |}) e,
        next + 1).

(** Modelled from the spec: [AI_InitializeAndEnable()] fully (re)initializes
    and enables the entity. *)
Definition AI_InitializeAndEnable (e : Entity) : Entity := set_enabled true e.

Definition has_ai (e : Entity) : bool :=
  match ai e with Some _ => true | None => false end.

Definition guid_IsEmpty (e : Entity) : bool := bool_decide (guid e = 0).

(** ** CreatureGameObjectScriptRegistrySwapHooks: the swap logic *)

(** Hook which is called before a creature / gameobject is swapped. *)
Definition UnloadResetScript (OT : ObjectType) (e : Entity) : Result Entity :=
  match OT with
  | Creature =>
      let e1 := KillAllEvents e in
      let e2 := if charmed e1 then RemoveCharmedBy e1 else e1 in
      ASSERT (negb (charmed e2))
             "There is a disabled AI which is still loaded." ;;
      if alive e2 then AI_call CallEnterEvadeMode e2 else Ok e2
  | GameObject => AI_call CallReset e
  end.

Definition UnloadDestroyScript (OT : ObjectType) (e : Entity) : Result Entity :=
  match OT with
  | Creature =>
      let (destroyed, e1) := AIM_Destroy e in
      ASSERT destroyed "Destroying the AI should never fail here!" ;;
      ASSERT (negb (has_ai e1)) "The AI should be null here!" ;;
      Ok e1
  | GameObject =>
      let (_, e1) := AIM_Destroy e in
      ASSERT (negb (has_ai e1)) "The AI should be null here!" ;;
      Ok e1
  end.

(** Hook which is called after a creature / gameobject was swapped. *)
Definition LoadInitializeScript (OT : ObjectType) (scripts : gmap N Script)
    (e : Entity) (next : N) : Result (Entity * N) :=
  match OT with
  | Creature =>
      ASSERT (negb (has_ai e)) "The AI should be null here!" ;;
      let e1 := if alive e then set_evade false e else e in
      let '(created, e2, next') := AIM_Create scripts next e1 in
      ASSERT created "Creating the AI should never fail here!" ;;
      Ok (e2, next')
  | GameObject =>
      ASSERT (negb (has_ai e)) "The AI should be null here!" ;;
      let '(_, e1, next') := AIM_Create scripts next e in
      Ok (e1, next')
  end.

Definition LoadResetScript (OT : ObjectType) (e : Entity) : Result Entity :=
  match OT with
  | Creature =>
      if negb (alive e) then Ok e
      else
        do e1 <- AI_call CallEnterEvadeMode (AI_InitializeAndEnable e);
        (* Cast a dummy visual spell asynchronously here to signal
           that the AI was hot swapped *)
        Ok (set_events (m_Events e1 ++ [AsyncCastHotswapEffectEvent]) e1)
  | GameObject => AI_call CallReset e
  end.

(** [GetEntityFromMap]: the object the store holds under [g], if any. *)
Definition GetEntityFromMap (g : N) (objects : list Entity) : option Entity :=
  head (filter (fun e => guid e = g) objects).

(** [if (auto entity = GetEntityFromMap(..., map, guid)) f(entity)]: the
    action runs in place on the object found, and nothing happens when the
    lookup is null. *)
Fixpoint with_entity {St : Type} (g : N)
    (f : Entity -> St -> Result (Entity * St))
    (objects : list Entity) (st : St) : Result (list Entity * St) :=
  match objects with
  | [] => Ok ([], st)
  | e :: rest =>
      if bool_decide (guid e = g) then
        do (e', st') <- f e st;
        Ok (e' :: rest, st')
      else
        do (rest', st') <- with_entity g f rest st;
        Ok (e :: rest', st')
  end.

(** [VisitObjectsToSwapOnMap]: calls the visitor on every stored object
    whose script id is in [idsToRemove]; when the script id of the object
    isn't removed in this context change, does nothing. *)
Fixpoint VisitObjectsToSwapOnMap {St : Type} (idsToRemove : gset N)
    (visitor : Entity -> St -> Result (Entity * St))
    (objects : list Entity) (st : St) : Result (list Entity * St) :=
  match objects with
  | [] => Ok ([], st)
  | e :: rest =>
      do (e', st1) <- (if bool_decide (script_id e ∈ idsToRemove)
                       then visitor e st else Ok (e, st));
      do (rest', st2) <- VisitObjectsToSwapOnMap idsToRemove visitor rest st1;
      Ok (e' :: rest', st2)
  end.

(** The loop [for (ObjectGuid const& guid : guidsToReset)]. *)
Fixpoint for_each_guid {St : Type} (f : Entity -> St -> Result (Entity * St))
    (guidsToReset : list N) (objects : list Entity) (st : St)
  : Result (list Entity * St) :=
  match guidsToReset with
  | [] => Ok (objects, st)
  | g :: gs =>
      do (objects', st') <- with_entity g f objects st;
      for_each_guid f gs objects' st'
  end.

(** The body [DestroyScriptIdsFromSet] runs on one map. *)
Definition DestroyOnMap (OT : ObjectType) (idsToRemove : gset N)
    (objects : list Entity) : Result (list Entity) :=
  (* First reset all swapped scripts safe by guid.
     Skip creatures and gameobjects with an empty guid
     (that were not added to the world as of now) *)
  do (objects0, guidsToReset) <-
    VisitObjectsToSwapOnMap idsToRemove
      (fun object guids =>
         Ok (object,
             if has_ai object && negb (guid_IsEmpty object)
             then guids ++ [guid object] else guids))
      objects [];
  do (objects1, _) <-
    for_each_guid (fun entity (_ : unit) =>
                     do entity' <- UnloadResetScript OT entity;
                     Ok (entity', tt))
                  guidsToReset objects0 tt;
  do (objects2, _) <-
    VisitObjectsToSwapOnMap idsToRemove
      (fun object (_ : unit) =>
         (* Destroy the scripts instantly *)
         do object' <- UnloadDestroyScript OT object;
         Ok (object', tt))
      objects1 tt;
  Ok objects2.

(** The body [InitializeScriptIdsFromSet] runs on one map; the second
    component threads the allocator position. *)
Definition InitializeOnMap (OT : ObjectType) (scripts : gmap N Script)
    (idsToRemove : gset N) (objects : list Entity) (next : N)
  : Result (list Entity * N) :=
  do (objects1, st1) <-
    VisitObjectsToSwapOnMap idsToRemove
      (fun object '(next, guids) =>
         if negb (has_ai object) && negb (guid_IsEmpty object) then
           (* Initialize the script *)
           do (object', next') <- LoadInitializeScript OT scripts object next;
           Ok (object', (next', guids ++ [guid object]))
         else Ok (object, (next, guids)))
      objects (next, []);
  let '(next1, guidsToReset) := st1 in
  for_each_guid
    (fun entity next =>
       (* Reset the script *)
       do (entity1, next') <-
         (if negb (has_ai entity)
          then LoadInitializeScript OT scripts entity next
          else Ok (entity, next));
       do entity2 <- LoadResetScript OT entity1;
       Ok (entity2, next'))
    guidsToReset objects1 next1.

(** [sMapMgr->DoForAllMaps] *)
Fixpoint DoForAllMaps (OT : ObjectType)
    (worker : list Entity -> N -> Result (list Entity * N))
    (ms : list Map) (next : N) : Result (list Map * N) :=
  match ms with
  | [] => Ok ([], next)
  | m :: rest =>
      do (objects', next1) <- worker (GetObjectsStore OT m) next;
      do (rest', next2) <- DoForAllMaps OT worker rest next1;
      Ok (SetObjectsStore OT objects' m :: rest', next2)
  end.

Definition DestroyScriptIdsFromSet (OT : ObjectType) (idsToRemove : gset N)
    (g : Globals) : Result Globals :=
  do (ms, next) <-
    DoForAllMaps OT
      (fun objects next =>
         do objects' <- DestroyOnMap OT idsToRemove objects;
         Ok (objects', next))
      (maps g) (ai_next g);
  Ok (set_world ms next g).

Definition InitializeScriptIdsFromSet (OT : ObjectType)
    (scripts : gmap N Script) (idsToRemove : gset N) (g : Globals)
  : Result Globals :=
  do (ms, next) <-
    DoForAllMaps OT (InitializeOnMap OT scripts idsToRemove)
      (maps g) (ai_next g);
  Ok (set_world ms next g).

(** ** Database bound script registry, [SpecializedScriptRegistry<T, true>]

    [swapped] and [ids_removed_] are the private members of the swap hook
    base classes; a category uses the one its hook declares. *)
Record BoundRegistry : Type := {
  _scripts : gmap N Script;
  (* Scripts of a specific context *)
  _ids_of_contexts : list (string * N);
  (* Script id's which were registered recently *)
  _recently_added_ids : gset N;
  (* After database load scripts *)
  _alScripts : list Script;
  swapped : bool;
  ids_removed_ : gset N
}.

Definition empty_registry : BoundRegistry :=
  {| _scripts := ∅; _ids_of_contexts := []; _recently_added_ids := ∅;
     _alScripts := []; swapped := false; ids_removed_ := ∅ |}.

Definition set_scripts (m : gmap N Script) (r : BoundRegistry) : BoundRegistry :=
  {| _scripts := m; _ids_of_contexts := _ids_of_contexts r;
     _recently_added_ids := _recently_added_ids r;
     _alScripts := _alScripts r; swapped := swapped r;
     ids_removed_ := ids_removed_ r |}.

Definition set_ids_of_contexts (l : list (string * N)) (r : BoundRegistry)
  : BoundRegistry :=
  {| _scripts := _scripts r; _ids_of_contexts := l;
     _recently_added_ids := _recently_added_ids r;
     _alScripts := _alScripts r; swapped := swapped r;
     ids_removed_ := ids_removed_ r |}.

Definition set_recently_added (s : gset N) (r : BoundRegistry) : BoundRegistry :=
  {| _scripts := _scripts r; _ids_of_contexts := _ids_of_contexts r;
     _recently_added_ids := s;
     _alScripts := _alScripts r; swapped := swapped r;
     ids_removed_ := ids_removed_ r |}.

Definition set_alScripts (l : list Script) (r : BoundRegistry) : BoundRegistry :=
  {| _scripts := _scripts r; _ids_of_contexts := _ids_of_contexts r;
     _recently_added_ids := _recently_added_ids r;
     _alScripts := l; swapped := swapped r;
     ids_removed_ := ids_removed_ r |}.

Definition set_swapped (b : bool) (r : BoundRegistry) : BoundRegistry :=
  {| _scripts := _scripts r; _ids_of_contexts := _ids_of_contexts r;
     _recently_added_ids := _recently_added_ids r;
     _alScripts := _alScripts r; swapped := b;
     ids_removed_ := ids_removed_ r |}.

Definition set_ids_removed (s : gset N) (r : BoundRegistry) : BoundRegistry :=
  {| _scripts := _scripts r; _ids_of_contexts := _ids_of_contexts r;
     _recently_added_ids := _recently_added_ids r;
     _alScripts := _alScripts r; swapped := swapped r;
     ids_removed_ := s |}.

(** [_ids_of_contexts.equal_range(context)]: the ids of the bucket. *)
Definition equal_range (context : string) (index : list (string * N)) : list N :=
  (filter (fun p => p.1 = context) index).*2.

(** Gets a script by its ID (assigned by ObjectMgr). *)
Definition GetScriptById (id : N) (r : BoundRegistry) : option Script :=
  _scripts r !! id.

(** Returns the script id's which are registered to a certain context. *)
Definition GetScriptIDsToRemove (context : string) (r : BoundRegistry) : gset N :=
  list_to_set (equal_range context (_ids_of_contexts r)).

Definition GetRecentlyAddedScriptIDs (r : BoundRegistry) : gset N :=
  _recently_added_ids r.

(** ** Swap hooks *)

Inductive HookKind : Type :=
| DefaultHooks
| UnsupportedHooks
| CreatureGameObjectHooks (OT : ObjectType)
| OutdoorPvPHooks
| InstanceMapHooks
| SpellScriptLoaderHooks
| CommandHooks.

(** The specialisations of [ScriptRegistrySwapHooks<ScriptType, Base>]. *)
Definition ScriptRegistrySwapHooks (T : ScriptType) : HookKind :=
  match T with
  | CreatureScript => CreatureGameObjectHooks Creature
  | GameObjectScript => CreatureGameObjectHooks GameObject
  | BattlegroundScript => UnsupportedHooks
  | OutdoorPvPScript => OutdoorPvPHooks
  | InstanceMapScript => InstanceMapHooks
  | SpellScriptLoader => SpellScriptLoaderHooks
  | CommandScript => CommandHooks
  | _ => DefaultHooks
  end.

Definition bucket_is_empty (context : string) (r : BoundRegistry) : bool :=
  match equal_range context (_ids_of_contexts r) with
  | [] => true
  | _ :: _ => false
  end.

(** Called before the actual context release happens. *)
Definition BeforeReleaseContext (T : ScriptType) (context : string)
    (r : BoundRegistry) (g : Globals) : Result (BoundRegistry * Globals) :=
  match ScriptRegistrySwapHooks T with
  | DefaultHooks => Ok (r, g)
  | UnsupportedHooks =>
      ASSERT (bucket_is_empty context r) "bounds.first == bounds.second" ;;
      Ok (r, g)
  | CreatureGameObjectHooks OT =>
      let idsToRemove := GetScriptIDsToRemove context r in
      do g' <- DestroyScriptIdsFromSet OT idsToRemove g;
      (* Add the new ids which are removed to the global ids to remove set *)
      Ok (set_ids_removed (ids_removed_ r ∪ idsToRemove) r, g')
  | OutdoorPvPHooks =>
      if negb (swapped r) && negb (bucket_is_empty context r)
      then Ok (set_swapped true r, emit [OutdoorPvPDie] g)
      else Ok (r, g)
  | InstanceMapHooks | SpellScriptLoaderHooks =>
      if negb (bucket_is_empty context r)
      then Ok (set_swapped true r, g)
      else Ok (r, g)
  | CommandHooks => Ok (r, emit [InvalidateCommandTable] g)
  end.

(** Called before SwapContext. *)
Definition BeforeSwapContext (T : ScriptType) (initialize : bool)
    (r : BoundRegistry) (g : Globals) : Result (BoundRegistry * Globals) :=
  match ScriptRegistrySwapHooks T with
  | DefaultHooks | UnsupportedHooks => Ok (r, g)
  | CreatureGameObjectHooks OT =>
      (* Never swap creature or gameobject scripts when initializing *)
      if initialize then Ok (r, g)
      else
        (* Add the recently added scripts to the deleted scripts to replace
           default AI's with recently added core scripts. *)
        let r1 :=
          set_ids_removed (ids_removed_ r ∪ GetRecentlyAddedScriptIDs r) r in
        do g1 <- DestroyScriptIdsFromSet OT (ids_removed_ r1) g;
        do g2 <- InitializeScriptIdsFromSet OT (_scripts r1) (ids_removed_ r1) g1;
        Ok (set_ids_removed ∅ r1, g2)
  | OutdoorPvPHooks =>
      (* Never swap outdoor pvp scripts when initializing *)
      if negb initialize && swapped r
      then Ok (set_swapped false r, emit [OutdoorPvPInit] g)
      else Ok (r, g)
  | InstanceMapHooks => Ok (set_swapped false r, g)
  | SpellScriptLoaderHooks =>
      if swapped r
      then Ok (set_swapped false r, emit [ValidateSpellScripts] g)
      else Ok (r, g)
  | CommandHooks => Ok (r, emit [InvalidateCommandTable] g)
  end.

(** Called before Unload. *)
Definition BeforeUnload (T : ScriptType) (r : BoundRegistry) (g : Globals)
  : Result Globals :=
  match ScriptRegistrySwapHooks T with
  | DefaultHooks | UnsupportedHooks => Ok g
  | CreatureGameObjectHooks _ =>
      ASSERT (bool_decide (ids_removed_ r = ∅)) "ids_removed_.empty()" ;; Ok g
  | OutdoorPvPHooks | InstanceMapHooks | SpellScriptLoaderHooks =>
      ASSERT (negb (swapped r)) "!swapped" ;; Ok g
  | CommandHooks => Ok (emit [InvalidateCommandTable] g)
  end.

(** ** Methods of the database bound registry *)

(** The loop of [ReleaseContext]: [_scripts.erase(itr->second)] for every id
    of the bucket; erasing an owned script destroys it. *)
Fixpoint erase_scripts (ids : list N) (m : gmap N Script)
  : gmap N Script * list Event :=
  match ids with
  | [] => (m, [])
  | id :: rest =>
      let evs := match m !! id with
                 | Some s => [Destroyed s]
                 | None => []
                 end in
      let (m', evs') := erase_scripts rest (delete id m) in
      (m', evs ++ evs')
  end.

(** Removes all scripts associated with the given script context. *)
Definition ReleaseContext (T : ScriptType) (context : string)
    (r : BoundRegistry) (g : Globals) : Result (BoundRegistry * Globals) :=
  do (r1, g1) <- BeforeReleaseContext T context r g;
  let bounds := equal_range context (_ids_of_contexts r1) in
  let (m, evs) := erase_scripts bounds (_scripts r1) in
  Ok (set_scripts m r1, emit evs g1).

(** Injects and updates the changed script objects. *)
Definition SwapContext (T : ScriptType) (initialize : bool)
    (r : BoundRegistry) (g : Globals) : Result (BoundRegistry * Globals) :=
  do (r1, g1) <- BeforeSwapContext T initialize r g;
  Ok (set_recently_added ∅ r1, g1).

(** Unloads the script registry. *)
Definition Unload (T : ScriptType) (r : BoundRegistry) (g : Globals)
  : Result (BoundRegistry * Globals) :=
  do g1 <- BeforeUnload T r g;
  ASSERT (bool_decide (_recently_added_ids r = ∅))
         "Recently added script ids should be empty here!" ;;
  Ok (set_ids_of_contexts [] (set_scripts ∅ r),
      emit (Destroyed <$> (map_to_list (_scripts r)).*2) g1).

(** Does a stored script carry this name? (the loop over [_scripts]) *)
Definition name_is_stored (name : string) (m : gmap N Script) : bool :=
  bool_decide (map_Exists (fun _ stored => GetName stored = name) m).

(** Adds a database bound script. The local [script_ptr] owns the script
    from the first line on: every path that does not move it into the store
    or into the delayed-delete queue destroys the script on return. *)
Definition AddScript `{Host} (script : Script)
    (r : BoundRegistry) (g : Globals) : Result (BoundRegistry * Globals) :=
  ASSERT (negb (String.eqb (_currentContext g) EmptyString))
    "Tried to register a script without being in a valid script context!" ;;
  (* Get an ID for the script. An ID only exists if it's a script that is
     assigned in the database through a script name (or similar). *)
  let id := GetScriptId (GetName script) in
  if negb (id =? 0) then
    (* Try to find an existing script. If the script names match... *)
    if name_is_stored (GetName script) (_scripts r) then
      (* If the script is already assigned -> delete it! *)
      do g1 <- ABORT_MSG ("Script '" +:+ GetName script +:+
                          "' already assigned with the same script name, " +:+
                          "so the script can't work.") g;
      (* Error that should be fixed ASAP. *)
      let g2 := QueueForDelayedDelete script g1 in
      ABORT ;;
      Ok (r, g2)
    else if IsAfterLoadDB script then
      Ok (set_alScripts (_alScripts r ++ [script]) r, emit [Destroyed script] g)
    else
      (* If the script isn't assigned -> assign it! *)
      let (m, evs) := match _scripts r !! id with
                      | None => (<[id := script]> (_scripts r), [])
                      | Some _ => (_scripts r, [Destroyed script])
                      end in
      let r1 := set_scripts m r in
      let r2 := set_ids_of_contexts
                  (_ids_of_contexts r1 ++ [(_currentContext g, id)]) r1 in
      let r3 := set_recently_added ({[id]} ∪ _recently_added_ids r2) r2 in
      do g1 <- SetScriptNameInContext (GetName script) (_currentContext g)
                 (emit evs g);
      Ok (r3, g1)
  else
    (* The script uses a script name from database, but isn't assigned to
       anything. Avoid calling "delete script;" because we are currently in
       the script constructor. *)
    let g1 := emit [LogError "sql.sql"
                      ("Script '" +:+ GetName script +:+
                       "' exists in the core, but the database does not " +:+
                       "assign it to any creature.")] g in
    Ok (r, QueueForDelayedDelete script g1).

(** [AddScript(itr)] for a pointer [itr] of the after-load buffer. Every
    buffered pointer dangles: the only writer of [_alScripts] is the
    after-load branch of [AddScript], and the local [script_ptr] of that
    call destroys the script when the call returns. The call of the flush
    passes the two assertions, which read nothing of the script, and then
    reads the script ([script->GetName()] in the database bound registry,
    [script->IsAfterLoadDB()] in the unbound one): a read of a destroyed
    object, undefined behaviour. The model gives undefined behaviour the
    fatal outcome, so nothing can be concluded from a flush that reaches
    it. *)
Definition AddScript_of_destroyed {A : Type} (g : Globals) : Result A :=
  ASSERT (negb (String.eqb (_currentContext g) EmptyString))
    "Tried to register a script without being in a valid script context!" ;;
  Fatal "AddALScripts: AddScript reads a script that was destroyed when it was buffered".

(** Add after load db scripts. The first iteration of
    [for (auto itr : _alScripts) AddScript(itr);] does not return, so
    [_alScripts.clear()] is never reached with a buffer that holds
    something. *)
Definition AddALScripts (r : BoundRegistry) (g : Globals)
  : Result (BoundRegistry * Globals) :=
  match _alScripts r with
  | [] => Ok (r, g)
  | _ :: _ => AddScript_of_destroyed g
  end.

(** ** Database unbound script registry, [SpecializedScriptRegistry<T, false>] *)

Module Unbound.

Record Registry : Type := {
  _scripts : list (string * Script);
  (* After database load scripts *)
  _alScripts : list Script
}.

Definition empty_registry : Registry := {| _scripts := []; _alScripts := [] |}.

(** The hooks of an unbound category: only [CommandScript] overrides
    them, and all three of its hooks invalidate the command table. *)
Definition hook (T : ScriptType) (g : Globals) : Globals :=
  match ScriptRegistrySwapHooks T with
  | CommandHooks => emit [InvalidateCommandTable] g
  | _ => g
  end.

Definition ReleaseContext (T : ScriptType) (context : string)
    (r : Registry) (g : Globals) : Result (Registry * Globals) :=
  let g1 := hook T g in
  let erased := filter (fun p => p.1 = context) (_scripts r) in
  Ok ({| _scripts := filter (fun p => p.1 ≠ context) (_scripts r);
         _alScripts := _alScripts r |},
      emit (Destroyed <$> erased.*2) g1).

Definition SwapContext (T : ScriptType) (initialize : bool)
    (r : Registry) (g : Globals) : Result (Registry * Globals) :=
  Ok (r, hook T g).

Definition Unload (T : ScriptType) (r : Registry) (g : Globals)
  : Result (Registry * Globals) :=
  Ok ({| _scripts := []; _alScripts := _alScripts r |},
      emit (Destroyed <$> (_scripts r).*2) (hook T g)).

(** Adds a non database bound script. *)
Definition AddScript (script : Script) (r : Registry) (g : Globals)
  : Result (Registry * Globals) :=
  ASSERT (negb (String.eqb (_currentContext g) EmptyString))
    "Tried to register a script without being in a valid script context!" ;;
  match filter (fun p => s_ptr p.2 = s_ptr script) (_scripts r) with
  | entry :: _ =>
      let g1 := emit [LogError "scripts"
                        ("Script '" +:+ GetName script +:+
                         "' has same memory pointer as '" +:+
                         GetName entry.2 +:+ "'.")] g in
      Ok (r, QueueForDelayedDelete script g1)
  | [] =>
      if IsAfterLoadDB script then
        Ok ({| _scripts := _scripts r;
               _alScripts := _alScripts r ++ [script] |},
            emit [Destroyed script] g)
      else
        (* We're dealing with a code-only script, just add it. *)
        Ok ({| _scripts := _scripts r ++ [(_currentContext g, script)];
               _alScripts := _alScripts r |}, g)
  end.

(** Add after load db scripts; see [AddScript_of_destroyed]. *)
Definition AddALScripts (r : Registry) (g : Globals)
  : Result (Registry * Globals) :=
  match _alScripts r with
  | [] => Ok (r, g)
  | _ :: _ => AddScript_of_destroyed g
  end.

End Unbound.

(** ** ScriptRegistryCompositum *)

(** A registered registry behind [ScriptRegistryInterface]. *)
Inductive Registry : Type :=
| DatabaseBound (T : ScriptType) (r : BoundRegistry)
| DatabaseUnbound (T : ScriptType) (r : Unbound.Registry).

Definition registry_type (reg : Registry) : ScriptType :=
  match reg with DatabaseBound T _ | DatabaseUnbound T _ => T end.

(** [ScriptRegistry<T>::Instance()] on first use. *)
Definition new_registry (T : ScriptType) : Registry :=
  if is_script_database_bound T
  then DatabaseBound T empty_registry
  else DatabaseUnbound T Unbound.empty_registry.

(** The whole subsystem: the registries registered with the compositum, in
    the iteration order of [_registries], and the process-wide state. *)
Record System : Type := {
  _registries : list Registry;
  globals : Globals
}.

Module Registry.

(** Virtual dispatch through [ScriptRegistryInterface]. *)
Definition ReleaseContext (context : string) (reg : Registry) (g : Globals)
  : Result (Registry * Globals) :=
  match reg with
  | DatabaseBound T r =>
      do (r', g') <- ReleaseContext T context r g;
      Ok (DatabaseBound T r', g')
  | DatabaseUnbound T r =>
      do (r', g') <- Unbound.ReleaseContext T context r g;
      Ok (DatabaseUnbound T r', g')
  end.

Definition SwapContext (initialize : bool) (reg : Registry) (g : Globals)
  : Result (Registry * Globals) :=
  match reg with
  | DatabaseBound T r =>
      do (r', g') <- SwapContext T initialize r g;
      Ok (DatabaseBound T r', g')
  | DatabaseUnbound T r =>
      do (r', g') <- Unbound.SwapContext T initialize r g;
      Ok (DatabaseUnbound T r', g')
  end.

Definition Unload (reg : Registry) (g : Globals)
  : Result (Registry * Globals) :=
  match reg with
  | DatabaseBound T r =>
      do (r', g') <- Unload T r g;
      Ok (DatabaseBound T r', g')
  | DatabaseUnbound T r =>
      do (r', g') <- Unbound.Unload T r g;
      Ok (DatabaseUnbound T r', g')
  end.

Definition AddScript `{Host} (script : Script) (reg : Registry) (g : Globals)
  : Result (Registry * Globals) :=
  match reg with
  | DatabaseBound T r =>
      do (r', g') <- AddScript script r g;
      Ok (DatabaseBound T r', g')
  | DatabaseUnbound T r =>
      do (r', g') <- Unbound.AddScript script r g;
      Ok (DatabaseUnbound T r', g')
  end.

End Registry.

(** [for (auto const registry : _registries) registry->method(...)] *)
Fixpoint for_each_registry
    (method : Registry -> Globals -> Result (Registry * Globals))
    (regs : list Registry) (g : Globals) : Result (list Registry * Globals) :=
  match regs with
  | [] => Ok ([], g)
  | reg :: rest =>
      do (reg', g1) <- method reg g;
      do (rest', g2) <- for_each_registry method rest g1;
      Ok (reg' :: rest', g2)
  end.

Module Compositum.

Definition ReleaseContext (context : string) (s : System) : Result System :=
  do (regs, g) <-
    for_each_registry (Registry.ReleaseContext context)
                      (_registries s) (globals s);
  (* Clear the script names in context after calling the release hooks
     since it's possible that new references to a shared library
     are acquired when releasing. *)
  Ok {| _registries := regs;
        globals := set_names
                     (filter (fun p => p.2 ≠ context)
                             (_scriptnames_to_context g)) g |}.

Definition SwapContext (initialize : bool) (s : System) : Result System :=
  do (regs, g) <-
    for_each_registry (Registry.SwapContext initialize)
                      (_registries s) (globals s);
  Ok {| _registries := regs; globals := DoDelayedDelete g |}.

Definition Unload (s : System) : Result System :=
  do (regs, g) <-
    for_each_registry Registry.Unload (_registries s) (globals s);
  Ok {| _registries := regs; globals := g |}.

End Compositum.

(** ** ScriptMgr: the entry points of the reload front end *)

Module ScriptMgr.

Definition SetScriptContext (context : string) (s : System) : System :=
  {| _registries := _registries s;
     globals := SetScriptContext context (globals s) |}.

Definition SwapScriptContext (initialize : bool) (s : System) : Result System :=
  do s' <- Compositum.SwapContext initialize s;
  Ok (SetScriptContext EmptyString s').

Definition ReleaseScriptContext (context : string) (s : System)
  : Result System :=
  Compositum.ReleaseContext context s.

(** [ScriptRegistry<T>::Instance()->method(...)]: the registry of type [T]
    among the registered ones; its static instance is constructed, and
    registers itself with the compositum, on first use. *)
Fixpoint on_instance (T : ScriptType)
    (method : Registry -> Globals -> Result (Registry * Globals))
    (regs : list Registry) (g : Globals) : Result (list Registry * Globals) :=
  match regs with
  | [] =>
      do (reg', g') <- method (new_registry T) g;
      Ok ([reg'], g')
  | reg :: rest =>
      if decide (registry_type reg = T) then
        do (reg', g') <- method reg g;
        Ok (reg' :: rest, g')
      else
        do (rest', g') <- on_instance T method rest g;
        Ok (reg :: rest', g')
  end.

(** The constructor of a script object of type [T] registers it. *)
Definition AddScript `{Host} (T : ScriptType) (script : Script) (s : System)
  : Result System :=
  do (regs, g) <-
    on_instance T (Registry.AddScript script) (_registries s) (globals s);
  Ok {| _registries := regs; globals := g |}.

End ScriptMgr.

(** ** Sequences of lifecycle operations *)

Inductive Op : Type :=
| OpSetScriptContext (context : string)
| OpAddScript (T : ScriptType) (script : Script)
| OpAddALScripts (T : ScriptType)
| OpReleaseScriptContext (context : string)
| OpSwapScriptContext (initialize : bool).

Definition Registry_AddALScripts (reg : Registry) (g : Globals)
  : Result (Registry * Globals) :=
  match reg with
  | DatabaseBound T r =>
      do (r', g') <- AddALScripts r g;
      Ok (DatabaseBound T r', g')
  | DatabaseUnbound T r =>
      do (r', g') <- Unbound.AddALScripts r g;
      Ok (DatabaseUnbound T r', g')
  end.

Definition step `{Host} (op : Op) (s : System) : Result System :=
  match op with
  | OpSetScriptContext context => Ok (ScriptMgr.SetScriptContext context s)
  | OpAddScript T script => ScriptMgr.AddScript T script s
  | OpAddALScripts T =>
      do (regs, g) <-
        ScriptMgr.on_instance T Registry_AddALScripts
                              (_registries s) (globals s);
      Ok {| _registries := regs; globals := g |}
  | OpReleaseScriptContext context => ScriptMgr.ReleaseScriptContext context s
  | OpSwapScriptContext initialize => ScriptMgr.SwapScriptContext initialize s
  end.

Fixpoint run `{Host} (ops : list Op) (s : System) : Result System :=
  match ops with
  | [] => Ok s
  | op :: rest => do s' <- step op s; run rest s'
  end.

(** The process before any script object was constructed. *)
Definition startup (ms : list Map) (next : N) : System :=
  {| _registries := [];
     globals := {| _delayed_delete_queue := [];
                   _scriptnames_to_context := ∅;
                   _currentContext := EmptyString;
                   maps := ms; ai_next := next; trace := [] |} |}.

(** The bound registries among the registered ones. *)
Definition bound_registries (s : System) : list (ScriptType * BoundRegistry) :=
  omap (fun reg => match reg with
                   | DatabaseBound T r => Some (T, r)
                   | DatabaseUnbound _ _ => None
                   end) (_registries s).

(** ** Vocabulary of the properties *)

(** The behavior attached to [e] was constructed at or after allocator
    position [since]. *)
Definition freshly_constructed (since : N) (e : Entity) : Prop :=
  exists a, ai e = Some a /\ since <= ai_addr a.

(** [e'] is what became of [e]: the same object, and the very same state
    when its script id is outside [ids]. *)
Definition same_outside (ids : gset N) (e e' : Entity) : Prop :=
  guid e' = guid e /\ script_id e' = script_id e /\
  (script_id e ∉ ids -> e' = e).

(** ** Concrete data for the examples *)

Definition demo_host : Host :=
  {| GetScriptId := fun name =>
       if String.eqb name "A" then 1
       else if String.eqb name "B" then 2
       else if String.eqb name "npc_five" then 5
       else if String.eqb name "npc_seven" then 7
       else 0;
     debug_assertions := false |}.

Definition script_A : Script :=
  {| s_ptr := 100; GetName := "A"; IsAfterLoadDB := false |}.
Definition script_A' : Script :=
  {| s_ptr := 101; GetName := "A"; IsAfterLoadDB := false |}.
Definition script_B : Script :=
  {| s_ptr := 102; GetName := "B"; IsAfterLoadDB := false |}.
Definition script_five : Script :=
  {| s_ptr := 105; GetName := "npc_five"; IsAfterLoadDB := false |}.
Definition script_late : Script :=
  {| s_ptr := 106; GetName := "npc_five"; IsAfterLoadDB := true |}.

Definition demo_globals (context : string) (ms : list Map) (next : N) : Globals :=
  {| _delayed_delete_queue := [];
     _scriptnames_to_context := ∅;
     _currentContext := context;
     maps := ms; ai_next := next; trace := [] |}.

Definition demo_entity (g id : N) (a : option AI) : Entity :=
  {| guid := g; script_id := id; ai := a; alive := true; charmed := false;
     unit_state_evade := false; ai_enabled := true; ai_locked := false;
     m_Events := [] |}.

Definition old_ai (addr : N) (s : option Script) : AI :=
  {| ai_addr := addr; ai_script := s; ai_calls := [] |}.

(** One map: a creature attached to id 5, one attached to the untouched
    id 7, one without a behavior, and one not yet added to the world. *)
Definition demo_world : list Map :=
  [ {| creatures :=
         [ demo_entity 11 5 (Some (old_ai 0 (Some script_five)));
           demo_entity 12 7 (Some (old_ai 1 None));
           demo_entity 13 5 None;
           demo_entity 0 5 (Some (old_ai 2 (Some script_five))) ];
       gameobjects := [] |} ].

Definition battleground_registry : BoundRegistry :=
  set_ids_of_contexts [("mod1", 1)] (set_scripts {[ 1 := script_A ]} empty_registry).

Definition unwrap (m : Result System) : System :=
  match m with Ok s => s | Fatal _ => startup [] 0 end.

(** Script "A" registered in context "a", and a second instance of the same
    name rejected into the delayed-delete queue. *)
Definition demo_system_queued : System :=
  unwrap (@run demo_host
            [OpSetScriptContext "a";
             OpAddScript ItemScript script_A;
             OpAddScript ItemScript script_A'] (startup [] 0)).

(** [e'] is the object [e], whatever happened to its state. *)
Definition same_object (e e' : Entity) : Prop :=
  guid e' = guid e /\ script_id e' = script_id e /\ ai_locked e' = ai_locked e.

(** [e'] still has the behavior of [e], possibly after further calls. *)
Definition ai_kept (e e' : Entity) : Prop :=
  forall a, ai e = Some a ->
    exists a', ai e' = Some a' /\
               ai_addr a' = ai_addr a /\ ai_script a' = ai_script a.

(** A behavior of [e'] is the one [e] had, or it was allocated at or after
    [since] by the factory reading [scripts]. *)
Definition ai_from (since : N) (scripts : gmap N Script) (e e' : Entity) : Prop :=
  forall a', ai e' = Some a' ->
    (exists a, ai e = Some a /\
               ai_addr a' = ai_addr a /\ ai_script a' = ai_script a) \/
    (since <= ai_addr a' /\ ai_script a' = scripts !! script_id e).

(** Only objects whose script id is in [ids], or whose guid was collected
    in [gs], change. *)
Definition touched_only (gs : list N) (ids : gset N) (e e' : Entity) : Prop :=
  same_object e e' /\ (script_id e ∉ ids -> guid e ∉ gs -> e' = e).

(** The collected guids are guids of stored objects whose script id is in
    [ids]. *)
Definition collected_from (ids : gset N) (objects : list Entity) (gs : list N)
  : Prop :=
  forall g, g ∈ gs -> exists e, e ∈ objects /\ guid e = g /\ script_id e ∈ ids.

(** One step of the swap logic on an object: identity kept, behaviors kept
    or built anew, nothing else touched. *)
Definition swap_step (gs : list N) (ids : gset N) (since : N)
    (scripts : gmap N Script) (e e' : Entity) : Prop :=
  touched_only gs ids e e' /\ ai_from since scripts e e' /\ ai_kept e e'.

(** What the destroy pass did to one object store. *)
Definition destroyed_store (ids : gset N) (objects objects' : list Entity)
  : Prop :=
  exists gs, collected_from ids objects gs /\
    Forall2 (fun e e' => touched_only gs ids e e' /\
                         (script_id e ∈ ids -> ai e' = None))
            objects objects'.

(** What the initialize pass did to one object store. *)
Definition initialized_store (ids : gset N) (since : N)
    (scripts : gmap N Script) (objects objects' : list Entity) : Prop :=
  exists gs, collected_from ids objects gs /\
    Forall2 (fun e e' =>
               swap_step gs ids since scripts e e' /\
               (script_id e ∈ ids -> ai e = None -> guid e <> 0 ->
                ai_locked e = false -> ai e' <> None))
            objects objects'.

(** The behavior of [e'] after a swap of its script id: none, or one
    constructed since the swap began; and one built by the script that is
    now registered for the id when the object is in the world and its
    behavior can be created. *)
Definition reattached (since : N) (scripts : gmap N Script) (e' : Entity)
  : Prop :=
  (ai e' = None \/ freshly_constructed since e') /\
  (guid e' <> 0 -> ai_locked e' = false ->
   exists a, ai e' = Some a /\ since <= ai_addr a /\
             ai_script a = scripts !! script_id e').

(** [e'] is the object [e] after the swap of the ids [ids]. *)
Definition hot_swapped (ids : gset N) (since : N) (scripts : gmap N Script)
    (e e' : Entity) : Prop :=
  same_object e e' /\ (script_id e ∈ ids -> reattached since scripts e').

(** The stores of type [OT] of two worlds, map by map. *)
Definition stores_related (OT : ObjectType)
    (R : list Entity -> list Entity -> Prop) (ms ms' : list Map) : Prop :=
  Forall2 (fun m m' => R (GetObjectsStore OT m) (GetObjectsStore OT m')) ms ms'.

(** What the release and the swap of the ids [ids] did to one store: every
    object is still there, an object whose script id is in [ids] is
    reattached, and, the store being keyed by guid, every other object is
    exactly as it was. *)
Definition store_swapped (ids : gset N) (since : N) (scripts : gmap N Script)
    (objects objects' : list Entity) : Prop :=
  Forall2 (hot_swapped ids since scripts) objects objects' /\
  (NoDup (guid <$> objects) -> Forall2 (same_outside ids) objects objects').

(** The creature registry of the examples: id 5 registered in "mod1". *)
Definition creature_registry : BoundRegistry :=
  set_ids_of_contexts [("mod1", 5)]
    (set_scripts {[ 5 := script_five ]} empty_registry).

(** The same registry when id 5 was added since the last swap. *)
Definition creature_registry_recent : BoundRegistry :=
  set_recently_added {[ 5 ]} creature_registry.

Definition unwrap_hook (m : Result (BoundRegistry * Globals))
  : BoundRegistry * Globals :=
  match m with Ok x => x | Fatal _ => (empty_registry, demo_globals EmptyString [] 0) end.

(** The example world after the release of "mod1" and the following swap. *)
Definition demo_released : BoundRegistry * Globals :=
  unwrap_hook (BeforeReleaseContext CreatureScript "mod1" creature_registry
                 (demo_globals EmptyString demo_world 3)).

Definition demo_swapped : BoundRegistry * Globals :=
  unwrap_hook (BeforeSwapContext CreatureScript false
                 demo_released.1 demo_released.2).

(** The example world after a swap that follows a fresh registration of
    id 5. *)
Definition demo_upgraded : BoundRegistry * Globals :=
  unwrap_hook (SwapContext CreatureScript false creature_registry_recent
                 (demo_globals EmptyString demo_world 3)).

(** A world the swap logic can run on: the stores of type [OT] are keyed by
    guid and no behavior in them is locked. *)
Definition swappable (OT : ObjectType) (ms : list Map) : Prop :=
  Forall (fun m => NoDup (guid <$> GetObjectsStore OT m) /\
                   Forall (fun e => ai_locked e = false) (GetObjectsStore OT m))
         ms.


(** ** Further parts of ScriptMgr.cpp *)

(** The scripts a registry owns at present. *)
Definition stored_scripts (reg : Registry) : list Script :=
  match reg with
  | DatabaseBound _ r => (map_to_list (_scripts r)).*2
  | DatabaseUnbound _ r => (Unbound._scripts r).*2
  end.

(** The loop [for (auto const& script : _scripts)
    scripts.erase(script.second->GetName())] of both registry kinds. *)
Definition erase_names (owned : list Script) (scripts : gset string) : gset string :=
  foldl (fun container script => container ∖ {[ GetName script ]}) scripts owned.

(** Removes the scripts used by this registry from the given container.
    Used to find unused script names. *)
Definition Registry_RemoveUsedScriptsFromContainer (reg : Registry)
    (scripts : gset string) : gset string :=
  erase_names (stored_scripts reg) scripts.

(** [ScriptRegistryCompositum::RemoveUsedScriptsFromContainer] *)
Definition Compositum_RemoveUsedScriptsFromContainer (s : System)
    (scripts : gset string) : gset string :=
  foldl (fun container reg =>
           Registry_RemoveUsedScriptsFromContainer reg container)
        scripts (_registries s).

(** The end of [ScriptMgr::LoadDatabase]: the script names of the database,
    [GetAllScriptNames()], that no registered script uses, without the empty
    placeholder name; one error is logged for each of them. *)
Definition unused_script_names (all_names : list string) (s : System)
  : list string :=
  let unusedScriptNames :=
    Compositum_RemoveUsedScriptsFromContainer s (list_to_set all_names) in
  filter (fun scriptName => scriptName ≠ EmptyString) (elements unusedScriptNames).

Definition report_unused_script_names (all_names : list string) (s : System)
  : System :=
  {| _registries := _registries s;
     globals :=
       emit ((fun scriptName =>
                LogError "sql.sql"
                  ("Script '" +:+ scriptName +:+
                   "' is referenced by the database, " +:+
                   "but does not exist in the core!"))
             <$> unused_script_names all_names s) (globals s) |}.

(** [CreateSpellOrAuraScripts]. [bounds] is what
    [sObjectMgr->GetSpellScriptsBounds(spellId)] yields: for each database
    row of the spell the id of the loader and whether the row is enabled.
    [extractor] is [GetSpellScript] or [GetAuraScript] of the loader, [_Init]
    and [_Load] are the member functions of the extracted script, of a type
    [T] that is declared outside this file. [r] is the registry of
    [SpellScriptLoader], which [GetSpellScriptLoader] looks the id up in. *)
Fixpoint CreateSpellOrAuraScripts {T : Type}
    (extractor : Script -> option T) (_Init : string -> N -> T -> T)
    (_Load : T -> bool) (r : BoundRegistry)
    (spellId : N) (bounds : list (N * bool)) (scriptVector : list T) : list T :=
  match bounds with
  | [] => scriptVector
  | (scriptId, enabled) :: rest =>
      let continue := CreateSpellOrAuraScripts extractor _Init _Load r
                        spellId rest in
      (* When the script is disabled continue with the next one *)
      if negb enabled then continue scriptVector
      else
        match GetScriptById scriptId r with
        | None => continue scriptVector
        | Some tmpscript =>
            match extractor tmpscript with
            | None => continue scriptVector
            | Some script =>
                let script' := _Init (GetName tmpscript) spellId script in
                if negb (_Load script') then continue scriptVector
                else continue (scriptVector ++ [script'])
            end
        end
  end.

(** ** Lifecycle of one database bound registry

    The calls a registry of type [T] receives, with the calls of
    [ScriptMgr::SetScriptContext] that set the context of the
    registrations. *)
Inductive RegistryOp : Type :=
| RSetScriptContext (context : string)
| RAddScript (script : Script)
| RAddALScripts
| RReleaseContext (context : string)
| RSwapContext (initialize : bool).

Definition registry_step `{Host} (T : ScriptType) (op : RegistryOp)
    (r : BoundRegistry) (g : Globals) : Result (BoundRegistry * Globals) :=
  match op with
  | RSetScriptContext context => Ok (r, SetScriptContext context g)
  | RAddScript script => AddScript script r g
  | RAddALScripts => AddALScripts r g
  | RReleaseContext context => ReleaseContext T context r g
  | RSwapContext initialize => SwapContext T initialize r g
  end.

Fixpoint registry_run `{Host} (T : ScriptType) (ops : list RegistryOp)
    (r : BoundRegistry) (g : Globals) : Result (BoundRegistry * Globals) :=
  match ops with
  | [] => Ok (r, g)
  | op :: rest =>
      do (r', g') <- registry_step T op r g;
      registry_run T rest r' g'
  end.

(** ** Vocabulary of the further properties *)

(** Some registered script carries [name]. *)
Definition name_in_use (s : System) (name : string) : Prop :=
  exists reg script,
    reg ∈ _registries s /\ script ∈ stored_scripts reg /\ GetName script = name.

(** Every stored script sits under the id the database assigns to its name,
    and it is not an after-load script. *)
Definition keyed_by_name `{Host} (r : BoundRegistry) : Prop :=
  forall id script, _scripts r !! id = Some script ->
    id = GetScriptId (GetName script) /\ id <> 0 /\ IsAfterLoadDB script = false.

(** The name map [names] gives a context to every stored script, and the
    bucket of that context lists its id. *)
Definition names_known_in (names : gmap string string) (r : BoundRegistry)
  : Prop :=
  forall id script, _scripts r !! id = Some script ->
    exists context,
      names !! GetName script = Some context /\
      (context, id) ∈ _ids_of_contexts r.

Definition names_known (names : gmap string string) (reg : Registry) : Prop :=
  match reg with
  | DatabaseBound _ r => names_known_in names r
  | DatabaseUnbound _ _ => True
  end.

(** The same, with a context other than [released]. *)
Definition names_known_besides (released : string)
    (names : gmap string string) (reg : Registry) : Prop :=
  match reg with
  | DatabaseBound _ r =>
      forall id script, _scripts r !! id = Some script ->
        exists context,
          names !! GetName script = Some context /\
          (context, id) ∈ _ids_of_contexts r /\ context <> released
  | DatabaseUnbound _ _ => True
  end.

(** The calls into the outdoor PvP manager among the events, in order:
    [true] for [Die()], [false] for [InitOutdoorPvP()]. *)
Definition pvp_calls (evs : list Event) : list bool :=
  omap (fun ev => match ev with
                  | OutdoorPvPDie => Some true
                  | OutdoorPvPInit => Some false
                  | _ => None
                  end) evs.

(** [Die()] and [InitOutdoorPvP()] take turns; [down] tells whether the
    manager is torn down before the calls, the result whether it is after
    them, [None] when two calls of the same kind follow each other. *)
Fixpoint take_turns (down : bool) (calls : list bool) : option bool :=
  match calls with
  | [] => Some down
  | die :: rest =>
      if bool_decide (die = down) then None else take_turns die rest
  end.

(** The other object type. *)
Definition other_type (OT : ObjectType) : ObjectType :=
  match OT with Creature => GameObject | GameObject => Creature end.

(** The system of the examples after the swap that ends a load. *)
Definition demo_system_swapped : System :=
  unwrap (@run demo_host
            [OpSetScriptContext "a";
             OpAddScript ItemScript script_A;
             OpSwapScriptContext true] (startup [] 0)).

(** A script whose name the database does not assign. *)
Definition script_unassigned : Script :=
  {| s_ptr := 107; GetName := "npc_unknown"; IsAfterLoadDB := false |}.

(** The item registry of the example system with a rejected duplicate. *)
Definition demo_registry_queued : BoundRegistry :=
  match bound_registries demo_system_queued with
  | (_, r) :: _ => r
  | [] => empty_registry
  end.

(** A code-only script, of a category that is not database bound. *)
Definition script_world : Script :=
  {| s_ptr := 110; GetName := "world_one"; IsAfterLoadDB := false |}.

(** The world script registered in context "a". *)
Definition demo_system_world : System :=
  unwrap (@run demo_host
            [OpSetScriptContext "a";
             OpAddScript WorldScript script_world] (startup [] 0)).

Definition demo_registry_world : Unbound.Registry :=
  {| Unbound._scripts := [("a", script_world)]; Unbound._alScripts := [] |}.

(** An unbound store owns every object once, under a context that is not
    empty, and holds no after-load script. *)
Definition owns_once (reg : Registry) : Prop :=
  match reg with
  | DatabaseBound _ _ => True
  | DatabaseUnbound _ r =>
      NoDup (s_ptr <$> (Unbound._scripts r).*2) /\
      Forall (fun entry => entry.1 <> EmptyString /\
                           IsAfterLoadDB entry.2 = false) (Unbound._scripts r)
  end.

(** The pointer of the world script registered a second time, in
    context "b". *)
Definition demo_system_world_again : System :=
  unwrap (@run demo_host [OpAddScript WorldScript script_world]
            (ScriptMgr.SetScriptContext "b" demo_system_world)).

(** The item registry after script "A" was registered in context "a",
    released and registered again in "a": the bucket of "a" lists id 1
    twice. *)
Definition demo_registry_twice : BoundRegistry :=
  match bound_registries
          (unwrap (@run demo_host
                     [OpSetScriptContext "a";
                      OpAddScript ItemScript script_A;
                      OpReleaseScriptContext "a";
                      OpAddScript ItemScript script_A'] (startup [] 0))) with
  | (_, r) :: _ => r
  | [] => empty_registry
  end.

(** A registry of spell script loaders: "A" under id 1 in context "a",
    "B" under id 2 in context "b". *)
Definition spell_registry : BoundRegistry :=
  set_ids_of_contexts [("a", 1); ("b", 2)]
    (set_scripts {[ 1 := script_A; 2 := script_B ]} empty_registry).

(** What a swap leaves of a registry: its type, the scripts it stores, and
    no recently added id. *)
Definition swapped_from (reg reg' : Registry) : Prop :=
  registry_type reg' = registry_type reg /\
  stored_scripts reg' = stored_scripts reg /\
  match reg' with
  | DatabaseBound _ r' => _recently_added_ids r' = ∅
  | DatabaseUnbound _ _ => True
  end.

(** Script "A" registered in context "a", and the item registry then. *)
Definition demo_system_registered : System :=
  unwrap (@run demo_host
            [OpSetScriptContext "a";
             OpAddScript ItemScript script_A] (startup [] 0)).

Definition demo_registry_registered : BoundRegistry :=
  match bound_registries demo_system_registered with
  | (_, r) :: _ => r
  | [] => empty_registry
  end.

(** The script types of the registered registries, in order. *)
Definition registered_types (regs : list Registry) : list ScriptType :=
  registry_type <$> regs.

(** A second after-load script. *)
Definition script_late_seven : Script :=
  {| s_ptr := 108; GetName := "npc_seven"; IsAfterLoadDB := true |}.

(** The host of the examples in a build with debug assertions. *)
Definition debug_host : Host :=
  {| GetScriptId := @GetScriptId demo_host; debug_assertions := true |}.

(** Every registry of a list received [ReleaseContext(context)], one after
    the other in the order of the list, each in a process state whose name
    map was still [names]: the registries and the process state before the
    first call, and the registries and the process state after the last. *)
Inductive each_released (context : string) (names : gmap string string)
  : list Registry -> Globals -> list Registry -> Globals -> Prop :=
| each_released_nil (g : Globals) : each_released context names [] g [] g
| each_released_cons (reg reg' : Registry) (rest rest' : list Registry)
    (g g1 g2 : Globals) :
    _scriptnames_to_context g = names ->
    Registry.ReleaseContext context reg g = Ok (reg', g1) ->
    each_released context names rest g1 rest' g2 ->
    each_released context names (reg :: rest) g (reg' :: rest') g2.

(** ** The history of one database bound registry

    The calls a registry receives that change what it stores, each with
    the process state it runs in: between two calls the other registries
    and the compositum may have changed that state. *)
Inductive RegistryCall : Type :=
| CallAddScript (script : Script)
| CallReleaseContext (context : string)
| CallSwapContext (initialize : bool).

Definition registry_call `{Host} (T : ScriptType) (c : RegistryCall)
    (r : BoundRegistry) (g : Globals) : Result (BoundRegistry * Globals) :=
  match c with
  | CallAddScript script => AddScript script r g
  | CallReleaseContext context => ReleaseContext T context r g
  | CallSwapContext initialize => SwapContext T initialize r g
  end.

(** Bookkeeping of the history, not state of the program: the ids that a
    release erased from the scripts map after they were last added and
    after the last swap. [r] is the registry before the call, [r'] the one
    after it. *)
Definition erased_unswapped (c : RegistryCall) (r r' : BoundRegistry)
    (erased : gset N) : gset N :=
  match c with
  | CallAddScript _ => erased ∖ dom (_scripts r')
  | CallReleaseContext _ => erased ∪ (dom (_scripts r) ∖ dom (_scripts r'))
  | CallSwapContext _ => ∅
  end.

Fixpoint registry_history `{Host} (T : ScriptType)
    (calls : list (RegistryCall * Globals)) (r : BoundRegistry)
    (erased : gset N) : Result (BoundRegistry * gset N) :=
  match calls with
  | [] => Ok (r, erased)
  | (c, g) :: rest =>
      do x <- registry_call T c r g;
      registry_history T rest x.1 (erased_unswapped c r x.1 erased)
  end.

(** The ids of a registry and the erased ids of its history: every stored
    id is listed in the context index, every recently added id is stored
    or erased, and no erased id is stored. *)
Definition stored_or_erased (r : BoundRegistry) (erased : gset N) : Prop :=
  (forall id, is_Some (_scripts r !! id) ->
              exists context, (context, id) ∈ _ids_of_contexts r) /\
  (forall id, id ∈ _recently_added_ids r ->
              is_Some (_scripts r !! id) \/ id ∈ erased) /\
  (forall id, id ∈ erased -> _scripts r !! id = None).

(** "A" registered and released, then "B" registered, with no swap. *)
Definition demo_history : BoundRegistry * gset N :=
  match @registry_history demo_host ItemScript
          [(CallAddScript script_A, demo_globals "a" [] 0);
           (CallReleaseContext "a", demo_globals "a" [] 0);
           (CallAddScript script_B, demo_globals "b" [] 0)]
          empty_registry ∅ with
  | Ok x => x
  | Fatal _ => (empty_registry, ∅)
  end.
(** * Properties *)

(** ** Reasoning about [Result] *)

Lemma bind_Ok {A B : Type} (m : Result A) (k : A -> Result B) (b : B) :
  bind m k = Ok b -> exists a, m = Ok a /\ k a = Ok b.
Proof. destruct m as [a|msg]; simpl; [eauto | discriminate]. Qed.

Lemma ASSERT_Ok (cond : bool) (msg : string) (u : unit) :
  ASSERT cond msg = Ok u -> cond = true.
Proof. destruct cond; [reflexivity | discriminate]. Qed.

(** Splits a hypothesis [bind m k = Ok b] into its two steps. *)
Ltac bind_inv H :=
  let a := fresh "a" in
  let Hm := fresh "Hm" in
  apply bind_Ok in H as [a [Hm H]].

Ltac bind_as H x Hx := apply bind_Ok in H as [x [Hx H]].

Ltac ok_inj :=
  repeat match goal with
         | H : Ok _ = Ok _ |- _ => injection H as H; subst
         | H : (_, _) = (_, _) |- _ => injection H as ? ?; subst
         | H : Fatal _ = Ok _ |- _ => discriminate H
         end.

Lemma emit_nil (g : Globals) : emit [] g = g.
Proof. destruct g; unfold emit; simpl; by rewrite app_nil_r. Qed.

Lemma set_scripts_id (r : BoundRegistry) : set_scripts (_scripts r) r = r.
Proof. by destruct r. Qed.

Lemma set_world_id (g : Globals) : set_world (maps g) (ai_next g) g = g.
Proof. by destruct g. Qed.

(** ** The context index and its buckets *)

Lemma elem_of_equal_range (context : string) (index : list (string * N)) (id : N) :
  id ∈ equal_range context index <-> (context, id) ∈ index.
Proof.
  unfold equal_range. rewrite list_elem_of_fmap. split.
  - intros [[c i] [-> Hin]]. apply list_elem_of_filter in Hin as [Hc Hin].
    simpl in *. by subst.
  - intros Hin. exists (context, id). split; [done|].
    apply list_elem_of_filter. by split.
Qed.

Lemma bucket_is_empty_true (context : string) (r : BoundRegistry) :
  bucket_is_empty context r = true <->
  forall id, (context, id) ∉ _ids_of_contexts r.
Proof.
  unfold bucket_is_empty. split.
  - destruct (equal_range context (_ids_of_contexts r)) eqn:E; [|discriminate].
    intros _ id Hin. apply elem_of_equal_range in Hin. rewrite E in Hin.
    by apply not_elem_of_nil in Hin.
  - intros Hno. destruct (equal_range context (_ids_of_contexts r)) eqn:E; [done|].
    exfalso. apply (Hno n). apply elem_of_equal_range. rewrite E. left.
Qed.

(** Erasing the ids of a bucket removes exactly those keys. *)
Lemma erase_scripts_lookup (ids : list N) (m : gmap N Script) (id : N) :
  (erase_scripts ids m).1 !! id = if decide (id ∈ ids) then None else m !! id.
Proof.
  revert m. induction ids as [|i ids IH]; intros m; cbn [erase_scripts].
  - case_decide as Hin; [by apply not_elem_of_nil in Hin | done].
  - specialize (IH (delete i m)).
    destruct (erase_scripts ids (delete i m)) as [m' evs'] eqn:E.
    cbn [fst] in *. rewrite IH.
    destruct (decide (id = i)) as [->|Hne].
    + rewrite (decide_True (P := i ∈ i :: ids)) by left.
      case_decide; [done|]. apply lookup_delete_eq.
    + rewrite lookup_delete_ne by done.
      repeat case_decide; try done.
      * exfalso. apply H0. by right.
      * exfalso. apply elem_of_cons in H0 as [?|?]; done.
Qed.

(** ** Reject-only categories *)

(** C8. For the reject-only category [BattlegroundScript], releasing a context
    under which at least one id is registered is a fatal assertion, and
    releasing a context under which no id is registered succeeds and leaves
    the registry and the process state as they were. *)
Theorem C8_reject_only_release (context : string) (r : BoundRegistry) (g : Globals) :
  ((exists id, (context, id) ∈ _ids_of_contexts r) ->
   ReleaseContext BattlegroundScript context r g
   = Fatal "bounds.first == bounds.second") /\
  ((forall id, (context, id) ∉ _ids_of_contexts r) ->
   ReleaseContext BattlegroundScript context r g = Ok (r, g)).
Proof.
  unfold ReleaseContext, BeforeReleaseContext. simpl. split.
  - intros [id Hin].
    destruct (bucket_is_empty context r) eqn:E; [|reflexivity].
    exfalso. by apply (proj1 (bucket_is_empty_true context r) E id).
  - intros Hno. pose proof (proj2 (bucket_is_empty_true context r) Hno) as E.
    rewrite E. simpl.
    unfold bucket_is_empty in E.
    destruct (equal_range context (_ids_of_contexts r)); [|discriminate].
    simpl. by rewrite set_scripts_id, emit_nil.
Qed.

Lemma C8_reject_only_release_witness :
  ReleaseContext BattlegroundScript "mod1" battleground_registry
                 (demo_globals EmptyString [] 0)
  = Fatal "bounds.first == bounds.second" /\
  ReleaseContext BattlegroundScript "mod2" battleground_registry
                 (demo_globals EmptyString [] 0)
  = Ok (battleground_registry, demo_globals EmptyString [] 0).
Proof.
  split.
  - apply (C8_reject_only_release "mod1" battleground_registry
             (demo_globals EmptyString [] 0)).
    exists 1. simpl. left.
  - apply (C8_reject_only_release "mod2" battleground_registry
             (demo_globals EmptyString [] 0)).
    intros id Hin. simpl in Hin. apply list_elem_of_singleton in Hin.
    discriminate Hin.
Defined.

(** ** Registration *)

Lemma context_check (g : Globals) :
  _currentContext g ≠ EmptyString ->
  negb (String.eqb (_currentContext g) EmptyString) = true.
Proof.
  intros Hne. destruct (String.eqb_spec (_currentContext g) EmptyString); done.
Qed.

Lemma name_is_stored_true (name : string) (m : gmap N Script) :
  name_is_stored name m = true <->
  exists id stored, m !! id = Some stored /\ GetName stored = name.
Proof. unfold name_is_stored. rewrite bool_decide_eq_true. reflexivity. Qed.

(** In a build with debug assertions the registration of a second
    instance under a stored name aborts at [ABORT_MSG], before the instance
    is queued: the call does not return and there is no queue to find the
    instance in. *)
Lemma C3_debug_build_aborts_before_queueing :
  exists message,
    @AddScript debug_host script_A'
       (set_scripts {[ 1 := script_A ]} empty_registry) (demo_globals "mod1" [] 0)
    = Fatal message.
Proof. vm_compute. by eexists. Qed.

(** C3. When an instance is registered inside a context under a name that
    a stored script already carries. With debug assertions off the call
    completes: the registry is unchanged, so the id still resolves to the
    first instance, the rejected instance is appended to the delayed-delete
    queue, and the only effect is one logged error. With debug assertions
    on, and a name the database assigns, the call aborts at [ABORT_MSG]:
    it does not return, and the instance is not queued. *)
Theorem C3_duplicate_name_by_build `{Host} (script first : Script) (id : N)
    (r : BoundRegistry) (g : Globals) :
  _currentContext g ≠ EmptyString ->
  GetScriptById id r = Some first ->
  GetName first = GetName script ->
  match debug_assertions with
  | false =>
      exists g' channel message,
        AddScript script r g = Ok (r, g') /\
        GetScriptById id r = Some first /\
        _delayed_delete_queue g' = _delayed_delete_queue g ++ [script] /\
        trace g' = trace g ++ [LogError channel message] /\
        _scriptnames_to_context g' = _scriptnames_to_context g
  | true =>
      GetScriptId (GetName script) <> 0 ->
      AddScript script r g
      = Fatal ("Script '" +:+ GetName script +:+
               "' already assigned with the same script name, " +:+
               "so the script can't work.")
  end.
Proof.
  intros Hctx Hfirst Hname.
  assert (Hstored : name_is_stored (GetName script) (_scripts r) = true).
  { apply name_is_stored_true. by exists id, first. }
  unfold AddScript. rewrite (context_check g Hctx). simpl.
  destruct debug_assertions eqn:Hdebug.
  - intros Hid. apply N.eqb_neq in Hid. rewrite Hid. simpl.
    rewrite Hstored. unfold ABORT_MSG. by rewrite Hdebug.
  - destruct (negb (GetScriptId (GetName script) =? 0)).
    + rewrite Hstored. unfold ABORT_MSG, ABORT. rewrite Hdebug. simpl.
      by eexists _, _, _.
    + by eexists _, _, _.
Qed.

Lemma C3_duplicate_name_by_build_witness :
  exists g' channel message,
    @AddScript demo_host script_A'
       (set_scripts {[ 1 := script_A ]} empty_registry) (demo_globals "mod1" [] 0)
    = Ok (set_scripts {[ 1 := script_A ]} empty_registry, g') /\
    GetScriptById 1 (set_scripts {[ 1 := script_A ]} empty_registry)
    = Some script_A /\
    _delayed_delete_queue g' = [script_A'] /\
    trace g' = [LogError channel message] /\
    _scriptnames_to_context g' = ∅.
Proof.
  apply (@C3_duplicate_name_by_build demo_host script_A' script_A 1
           (set_scripts {[ 1 := script_A ]} empty_registry)
           (demo_globals "mod1" [] 0)).
  - simpl. discriminate.
  - reflexivity.
  - reflexivity.
Defined.

(** ** Releasing a context *)

Lemma BeforeReleaseContext_store (T : ScriptType) (context : string)
    (r r' : BoundRegistry) (g g' : Globals) :
  BeforeReleaseContext T context r g = Ok (r', g') ->
  _scripts r' = _scripts r /\
  _ids_of_contexts r' = _ids_of_contexts r /\
  _recently_added_ids r' = _recently_added_ids r /\
  _alScripts r' = _alScripts r.
Proof.
  unfold BeforeReleaseContext. intros Hrun.
  destruct (ScriptRegistrySwapHooks T);
    repeat match type of Hrun with
           | bind _ _ = Ok _ => bind_inv Hrun
           | (if ?c then _ else _) = Ok _ => destruct c
           end; ok_inj; done.
Qed.

(** After a release no id of the released bucket resolves any more. *)
Lemma ReleaseContext_GetScriptById (T : ScriptType) (context : string)
    (r r' : BoundRegistry) (g g' : Globals) (id : N) :
  ReleaseContext T context r g = Ok (r', g') ->
  (context, id) ∈ _ids_of_contexts r ->
  GetScriptById id r' = None.
Proof.
  unfold ReleaseContext. intros Hrun Hin. bind_inv Hrun. destruct a as [r1 g1].
  apply BeforeReleaseContext_store in Hm as (Hs & Hi & _).
  pose proof (erase_scripts_lookup
                (equal_range context (_ids_of_contexts r1)) (_scripts r1) id) as L.
  destruct (erase_scripts _ _) as [m evs]. ok_inj.
  unfold GetScriptById. simpl in *. rewrite L.
  rewrite decide_True; [done|]. apply elem_of_equal_range. by rewrite Hi.
Qed.

(** The release erases scripts only: the context index, the set of recently
    added ids and the after-load buffer are what they were. *)
Lemma ReleaseContext_keeps (T : ScriptType) (context : string)
    (r r' : BoundRegistry) (g g' : Globals) :
  ReleaseContext T context r g = Ok (r', g') ->
  _ids_of_contexts r' = _ids_of_contexts r /\
  _recently_added_ids r' = _recently_added_ids r /\
  _alScripts r' = _alScripts r /\
  (forall id, is_Some (_scripts r' !! id) -> is_Some (_scripts r !! id)).
Proof.
  unfold ReleaseContext. intros Hrun. bind_inv Hrun. destruct a as [r1 g1].
  apply BeforeReleaseContext_store in Hm as (Hs & Hi & Hr & Ha).
  pose proof (erase_scripts_lookup
                (equal_range context (_ids_of_contexts r1)) (_scripts r1)) as L.
  destruct (erase_scripts _ _) as [m evs]. ok_inj. simpl in *.
  repeat split; try done.
  intros id. rewrite L, <- Hs. case_decide; [|done].
  intros [? ?]; discriminate.
Qed.

(** C2. Ids 1 and 2 are registered in context "mod1" and the context is
    released through the reload front end: neither id resolves any more, but
    the context index still lists both under "mod1". *)
Theorem C2_release_keeps_index_entries :
  match @run demo_host
          [OpSetScriptContext "mod1";
           OpAddScript ItemScript script_A;
           OpAddScript ItemScript script_B;
           OpReleaseScriptContext "mod1"] (startup [] 0) with
  | Ok s =>
      match bound_registries s with
      | [(_, r)] =>
          GetScriptById 1 r = None /\ GetScriptById 2 r = None /\
          _ids_of_contexts r = [("mod1", 1); ("mod1", 2)]
      | _ => False
      end
  | Fatal _ => False
  end.
Proof. vm_compute. done. Qed.

(** A consequence of the stale entries: script "A" moves from context "a" to
    context "b"; releasing "a" once more erases the script although it is
    registered under "b", and the name map still places "A" in "b". *)
Lemma stale_index_entry_erases_foreign_script :
  match @run demo_host
          [OpSetScriptContext "a";
           OpAddScript ItemScript script_A;
           OpReleaseScriptContext "a";
           OpSetScriptContext "b";
           OpAddScript ItemScript script_A';
           OpReleaseScriptContext "a"] (startup [] 0) with
  | Ok s =>
      match bound_registries s with
      | [(_, r)] =>
          GetScriptById 1 r = None /\
          _ids_of_contexts r = [("a", 1); ("b", 1)] /\
          _scriptnames_to_context (globals s) !! "A" = Some "b" /\
          Destroyed script_A' ∈ trace (globals s)
      | _ => False
      end
  | Fatal _ => False
  end.
Proof.
  vm_compute. repeat split; try done. right. left.
Qed.

(** ** The after-load buffer *)

(** Registering a script whose [IsAfterLoadDB()] holds never stores it. *)
Lemma AddScript_flagged `{Host} (script : Script) (r r' : BoundRegistry)
    (g g' : Globals) :
  IsAfterLoadDB script = true ->
  AddScript script r g = Ok (r', g') ->
  _scripts r' = _scripts r /\
  _ids_of_contexts r' = _ids_of_contexts r /\
  _recently_added_ids r' = _recently_added_ids r.
Proof.
  intros Hflag. unfold AddScript. intros Hrun. bind_inv Hrun.
  destruct (negb (GetScriptId (GetName script) =? 0)).
  - destruct (name_is_stored (GetName script) (_scripts r)).
    + bind_inv Hrun. bind_inv Hrun. by ok_inj.
    + rewrite Hflag in Hrun. by ok_inj.
  - by ok_inj.
Qed.

(** A flagged script with an assigned name that no stored script carries
    is appended to the buffer, and the local [script_ptr] destroys it when
    the call returns. *)
Lemma AddScript_buffers `{Host} (script : Script) (r : BoundRegistry)
    (g : Globals) :
  _currentContext g ≠ EmptyString ->
  GetScriptId (GetName script) <> 0 ->
  name_is_stored (GetName script) (_scripts r) = false ->
  IsAfterLoadDB script = true ->
  AddScript script r g
  = Ok (set_alScripts (_alScripts r ++ [script]) r, emit [Destroyed script] g).
Proof.
  intros Hctx Hid Hname Hflag. unfold AddScript.
  rewrite (context_check g Hctx). simpl.
  apply N.eqb_neq in Hid. by rewrite Hid, Hname, Hflag.
Qed.

(** The flush returns only when the buffer is empty, and then it does
    nothing. *)
Lemma AddALScripts_Ok (r r' : BoundRegistry) (g g' : Globals) :
  AddALScripts r g = Ok (r', g') -> _alScripts r = [] /\ r' = r /\ g' = g.
Proof.
  unfold AddALScripts, AddScript_of_destroyed. intros Hrun.
  destruct (_alScripts r); [by injection Hrun as <- <-|].
  bind_as Hrun u Hassert. discriminate.
Qed.

Lemma Unbound_AddALScripts_Ok (r r' : Unbound.Registry) (g g' : Globals) :
  Unbound.AddALScripts r g = Ok (r', g') ->
  Unbound._alScripts r = [] /\ r' = r /\ g' = g.
Proof.
  unfold Unbound.AddALScripts, AddScript_of_destroyed. intros Hrun.
  destruct (Unbound._alScripts r); [by injection Hrun as <- <-|].
  bind_as Hrun u Hassert. discriminate.
Qed.

Lemma Registry_AddALScripts_Ok (reg reg' : Registry) (g g' : Globals) :
  Registry_AddALScripts reg g = Ok (reg', g') -> reg' = reg /\ g' = g.
Proof.
  destruct reg as [T r|T r]; cbn [Registry_AddALScripts]; intros Hrun;
    bind_as Hrun x Hx; destruct x as [r1 g1]; injection Hrun as <- <-.
  - by apply AddALScripts_Ok in Hx as (_ & -> & ->).
  - by apply Unbound_AddALScripts_Ok in Hx as (_ & -> & ->).
Qed.

(** A flush with something in the buffer never returns. *)
Lemma AddALScripts_of_buffer (r : BoundRegistry) (g : Globals) :
  _alScripts r ≠ [] -> exists message, AddALScripts r g = Fatal message.
Proof.
  intros Hne. unfold AddALScripts, AddScript_of_destroyed.
  destruct (_alScripts r); [done|].
  destruct (negb _); simpl; by eexists.
Qed.

(** Only flagged scripts ever enter the buffer. *)
Lemma AddScript_buffer_flagged `{Host} (script : Script) (r r' : BoundRegistry)
    (g g' : Globals) :
  Forall (fun s => IsAfterLoadDB s = true) (_alScripts r) ->
  AddScript script r g = Ok (r', g') ->
  Forall (fun s => IsAfterLoadDB s = true) (_alScripts r').
Proof.
  intros Hall. unfold AddScript. intros Hrun. bind_inv Hrun.
  destruct (negb (GetScriptId (GetName script) =? 0)).
  - destruct (name_is_stored (GetName script) (_scripts r)).
    + bind_inv Hrun. bind_inv Hrun. by ok_inj.
    + destruct (IsAfterLoadDB script) eqn:Hflag.
      * ok_inj. simpl. apply Forall_app. split; [done|]. by constructor.
      * destruct (_scripts r !! _); bind_inv Hrun; by ok_inj.
  - by ok_inj.
Qed.

(** C9. Two creature scripts flagged after-database-load are registered in
    the static context: they are buffered in registration order, nothing is
    stored, and both were destroyed when their registration call returned.
    The flush then hands the first buffered pointer to [AddScript], which
    reads the destroyed script: the flush does not return, and no buffered
    script is ever registered. *)
Theorem C9_flush_reads_destroyed_scripts :
  match @run demo_host
          [OpSetScriptContext "___static___";
           OpAddScript CreatureScript script_late;
           OpAddScript CreatureScript script_late_seven] (startup [] 0) with
  | Ok s1 =>
      match bound_registries s1 with
      | [(_, r1)] =>
          _alScripts r1 = [script_late; script_late_seven] /\
          GetScriptById 5 r1 = None /\ GetScriptById 7 r1 = None /\
          trace (globals s1)
          = [Destroyed script_late; Destroyed script_late_seven] /\
          @step demo_host (OpAddALScripts CreatureScript) s1
          = Fatal "AddALScripts: AddScript reads a script that was destroyed when it was buffered"
      | _ => False
      end
  | Fatal _ => False
  end.
Proof. vm_compute. done. Qed.

(** ** What a registry call leaves alone in the process state *)

Definition not_a_destruction (ev : Event) : Prop :=
  match ev with Destroyed _ => False | _ => True end.

(** [g'] extends [g]: same queue, same name map, same current context, and
    a trace grown by events that all satisfy [P]. *)
Definition extends (P : Event -> Prop) (g g' : Globals) : Prop :=
  _delayed_delete_queue g' = _delayed_delete_queue g /\
  _scriptnames_to_context g' = _scriptnames_to_context g /\
  _currentContext g' = _currentContext g /\
  exists evs, trace g' = trace g ++ evs /\ Forall P evs.

Lemma extends_refl (P : Event -> Prop) (g : Globals) : extends P g g.
Proof. repeat split. exists []. by rewrite app_nil_r. Qed.

Lemma extends_trans (P : Event -> Prop) (g1 g2 g3 : Globals) :
  extends P g1 g2 -> extends P g2 g3 -> extends P g1 g3.
Proof.
  intros (Hq & Hn & Hc & evs & Ht & Hp) (Hq' & Hn' & Hc' & evs' & Ht' & Hp').
  repeat split; try congruence.
  exists (evs ++ evs'). split.
  - by rewrite Ht', Ht, app_assoc.
  - by apply Forall_app.
Qed.

Lemma extends_emit (P : Event -> Prop) (evs : list Event) (g : Globals) :
  Forall P evs -> extends P g (emit evs g).
Proof. intros Hp. repeat split. by exists evs. Qed.

Lemma extends_set_world (P : Event -> Prop) (ms : list Map) (next : N) (g : Globals) :
  extends P g (set_world ms next g).
Proof. repeat split. exists []. simpl. by rewrite app_nil_r. Qed.

Lemma extends_weaken (P Q : Event -> Prop) (g g' : Globals) :
  (forall ev, P ev -> Q ev) -> extends P g g' -> extends Q g g'.
Proof.
  intros HPQ (Hq & Hn & Hc & evs & Ht & Hp). repeat split; try done.
  exists evs. split; [done|]. by eapply Forall_impl.
Qed.

Lemma DestroyScriptIdsFromSet_extends (P : Event -> Prop) (OT : ObjectType)
    (ids : gset N) (g g' : Globals) :
  DestroyScriptIdsFromSet OT ids g = Ok g' -> extends P g g'.
Proof.
  unfold DestroyScriptIdsFromSet. intros Hrun. bind_inv Hrun.
  destruct a as [ms next]. ok_inj. apply extends_set_world.
Qed.

Lemma InitializeScriptIdsFromSet_extends (P : Event -> Prop) (OT : ObjectType)
    (scripts : gmap N Script) (ids : gset N) (g g' : Globals) :
  InitializeScriptIdsFromSet OT scripts ids g = Ok g' -> extends P g g'.
Proof.
  unfold InitializeScriptIdsFromSet. intros Hrun. bind_inv Hrun.
  destruct a as [ms next]. ok_inj. apply extends_set_world.
Qed.

Lemma BeforeReleaseContext_extends (T : ScriptType) (context : string)
    (r r' : BoundRegistry) (g g' : Globals) :
  BeforeReleaseContext T context r g = Ok (r', g') ->
  extends not_a_destruction g g'.
Proof.
  unfold BeforeReleaseContext. intros Hrun.
  destruct (ScriptRegistrySwapHooks T);
    repeat match type of Hrun with
           | bind (DestroyScriptIdsFromSet _ _ _) _ = Ok _ =>
               bind_inv Hrun;
               apply (DestroyScriptIdsFromSet_extends not_a_destruction) in Hm
           | bind _ _ = Ok _ => bind_inv Hrun
           | (if ?c then _ else _) = Ok _ => destruct c
           end; ok_inj;
    first [ done | apply extends_refl
          | apply extends_emit; by repeat constructor ].
Qed.

Lemma BeforeSwapContext_extends (T : ScriptType) (initialize : bool)
    (r r' : BoundRegistry) (g g' : Globals) :
  BeforeSwapContext T initialize r g = Ok (r', g') ->
  extends not_a_destruction g g'.
Proof.
  unfold BeforeSwapContext. intros Hrun.
  destruct (ScriptRegistrySwapHooks T).
  1,2,4,5,6,7:
    repeat match type of Hrun with
           | (if ?c then _ else _) = Ok _ => destruct c
           end; ok_inj;
    first [ apply extends_refl | apply extends_emit; by repeat constructor ].
  destruct initialize; [ok_inj; apply extends_refl|].
  bind_inv Hrun. bind_inv Hrun. ok_inj.
  apply (DestroyScriptIdsFromSet_extends not_a_destruction) in Hm.
  apply (InitializeScriptIdsFromSet_extends not_a_destruction) in Hm0.
  by eapply extends_trans.
Qed.

Lemma Registry_SwapContext_extends (initialize : bool) (reg reg' : Registry)
    (g g' : Globals) :
  Registry.SwapContext initialize reg g = Ok (reg', g') ->
  extends not_a_destruction g g'.
Proof.
  destruct reg as [T r|T r]; cbn [Registry.SwapContext]; intros Hrun.
  - bind_inv Hrun. destruct a as [r1 g1]. ok_inj.
    unfold SwapContext in Hm. bind_inv Hm. destruct a as [r0 g0]. ok_inj.
    by eapply BeforeSwapContext_extends.
  - unfold Unbound.SwapContext, Unbound.hook in Hrun. simpl in Hrun. ok_inj.
    destruct (ScriptRegistrySwapHooks T);
      first [ apply extends_refl | apply extends_emit; by repeat constructor ].
Qed.

Lemma Registry_ReleaseContext_extends (context : string) (reg reg' : Registry)
    (g g' : Globals) :
  Registry.ReleaseContext context reg g = Ok (reg', g') ->
  extends (fun _ => True) g g'.
Proof.
  destruct reg as [T r|T r]; cbn [Registry.ReleaseContext]; intros Hrun.
  - bind_inv Hrun. destruct a as [r1 g1]. ok_inj.
    unfold ReleaseContext in Hm. bind_inv Hm. destruct a as [r0 g0].
    destruct (erase_scripts _ _) as [m evs]. ok_inj.
    apply BeforeReleaseContext_extends in Hm0.
    eapply extends_trans.
    + eapply extends_weaken; [|exact Hm0]. done.
    + apply extends_emit. by apply Forall_forall.
  - unfold Unbound.ReleaseContext in Hrun. simpl in Hrun. ok_inj.
    eapply extends_trans; [|apply extends_emit; by apply Forall_forall].
    unfold Unbound.hook. destruct (ScriptRegistrySwapHooks T);
      first [ apply extends_refl | apply extends_emit; by apply Forall_forall ].
Qed.

Lemma for_each_registry_extends (P : Event -> Prop)
    (method : Registry -> Globals -> Result (Registry * Globals))
    (regs regs' : list Registry) (g g' : Globals) :
  (forall reg reg' g g', method reg g = Ok (reg', g') -> extends P g g') ->
  for_each_registry method regs g = Ok (regs', g') ->
  extends P g g'.
Proof.
  intros Hmethod. revert regs' g g'.
  induction regs as [|reg rest IH]; intros regs' g g' Hrun; simpl in Hrun.
  - ok_inj. apply extends_refl.
  - bind_inv Hrun. destruct a as [reg1 g1]. bind_inv Hrun.
    destruct a as [rest1 g2]. ok_inj.
    eapply extends_trans; [by eapply Hmethod | by eapply IH].
Qed.

(** ** Compositum: releasing a context *)

Lemma for_each_registry_each_released (context : string)
    (names : gmap string string) (regs regs' : list Registry)
    (g g' : Globals) :
  _scriptnames_to_context g = names ->
  for_each_registry (Registry.ReleaseContext context) regs g = Ok (regs', g') ->
  each_released context names regs g regs' g'.
Proof.
  revert regs' g. induction regs as [|reg rest IH]; intros regs' g Hnames Hrun;
    simpl in Hrun.
  - injection Hrun as <- <-. constructor.
  - bind_as Hrun x Hcall. destruct x as [reg1 g1]. bind_as Hrun y Hrest.
    destruct y as [rest1 g2]. injection Hrun as <- <-.
    apply each_released_cons with g1; [done | done |].
    apply IH; [|done].
    apply Registry_ReleaseContext_extends in Hcall as (_ & Hn & _). congruence.
Qed.

(** C10. [ScriptRegistryCompositum::ReleaseContext] first calls
    [ReleaseContext] of every registered registry, one after the other,
    each in a process state whose name-to-context map is the one from
    before the call, and only then erases the names of the context.
    Afterwards no name is mapped to the released context, the names of
    other contexts are kept, and every name that was released with the
    context passes the uniqueness assertion of [SetScriptNameInContext]
    again. *)
Theorem C10_release_erases_names_last (context : string) (s s' : System) :
  Compositum.ReleaseContext context s = Ok s' ->
  (exists g1,
      each_released context (_scriptnames_to_context (globals s))
                    (_registries s) (globals s) (_registries s') g1 /\
      _scriptnames_to_context g1 = _scriptnames_to_context (globals s) /\
      globals s' = set_names (filter (fun p => p.2 ≠ context)
                                     (_scriptnames_to_context g1)) g1) /\
  (forall name,
      _scriptnames_to_context (globals s') !! name ≠ Some context) /\
  (forall name other, other ≠ context ->
      _scriptnames_to_context (globals s') !! name = Some other <->
      _scriptnames_to_context (globals s) !! name = Some other) /\
  (forall name context',
      _scriptnames_to_context (globals s) !! name = Some context ->
      exists g', SetScriptNameInContext name context' (globals s') = Ok g' /\
                 _scriptnames_to_context g' !! name = Some context').
Proof.
  unfold Compositum.ReleaseContext. intros Hrun. bind_inv Hrun.
  destruct a as [regs g1]. ok_inj. simpl.
  pose proof (for_each_registry_extends _ _ _ _ _ _
                (Registry_ReleaseContext_extends context) Hm)
    as (_ & Hnames & _).
  split; [|split; [|split]].
  - exists g1. split; [|done]. by apply for_each_registry_each_released.
  - intros name Hl. apply map_lookup_filter_Some in Hl as [_ Hne]. by apply Hne.
  - intros name other Hother. rewrite map_lookup_filter_Some, Hnames. simpl.
    split; [by intros [? _] | by intros ?].
  - intros name context' Hl.
    assert (Hnone : filter (fun p : string * string => p.2 ≠ context)
                      (_scriptnames_to_context g1) !! name = None).
    { apply map_lookup_filter_None. right. intros x Hx.
      rewrite Hnames, Hl in Hx. injection Hx as <-. simpl. by intros ?. }
    unfold SetScriptNameInContext. simpl. rewrite Hnone.
    rewrite bool_decide_eq_true_2 by done. simpl.
    eexists. split; [reflexivity|]. simpl. apply lookup_insert_eq.
Qed.

(** ** The delayed-delete queue *)

Lemma SetScriptNameInContext_queue (name context : string) (g g' : Globals) :
  SetScriptNameInContext name context g = Ok g' ->
  _delayed_delete_queue g' = _delayed_delete_queue g /\ trace g' = trace g.
Proof.
  unfold SetScriptNameInContext. intros Hrun. bind_inv Hrun. by ok_inj.
Qed.

(** A registration either leaves the queue alone or appends the script it
    was called with, and in that case destroys nothing. *)
Definition queues_without_destroying (script : Script) (g g' : Globals) : Prop :=
  exists evs, trace g' = trace g ++ evs /\
    (_delayed_delete_queue g' = _delayed_delete_queue g \/
     (_delayed_delete_queue g' = _delayed_delete_queue g ++ [script] /\
      Forall not_a_destruction evs)).

Lemma AddScript_queue `{Host} (script : Script) (r r' : BoundRegistry)
    (g g' : Globals) :
  AddScript script r g = Ok (r', g') -> queues_without_destroying script g g'.
Proof.
  unfold AddScript. intros Hrun. bind_inv Hrun.
  destruct (negb (GetScriptId (GetName script) =? 0)).
  - destruct (name_is_stored (GetName script) (_scripts r)).
    + bind_inv Hrun. bind_inv Hrun. ok_inj.
      unfold ABORT_MSG in Hm0. destruct debug_assertions; [discriminate|].
      ok_inj. eexists. split; [reflexivity|]. right.
      split; [done | by repeat constructor].
    + destruct (IsAfterLoadDB script).
      * ok_inj. eexists. split; [reflexivity|]. by left.
      * destruct (_scripts r !! _); bind_inv Hrun; ok_inj;
          apply SetScriptNameInContext_queue in Hm0 as [Hq Ht];
          eexists; (split; [rewrite Ht; reflexivity | by left]).
  - ok_inj. eexists. split; [reflexivity|]. right.
    split; [done | by repeat constructor].
Qed.

Lemma Unbound_AddScript_queue (script : Script) (r r' : Unbound.Registry)
    (g g' : Globals) :
  Unbound.AddScript script r g = Ok (r', g') ->
  queues_without_destroying script g g'.
Proof.
  unfold Unbound.AddScript. intros Hrun. bind_inv Hrun.
  destruct (filter _ _).
  - destruct (IsAfterLoadDB script); ok_inj.
    + eexists. split; [reflexivity|]. by left.
    + exists []. split; [by rewrite app_nil_r | by left].
  - ok_inj. eexists. split; [reflexivity|]. right.
    split; [done | by repeat constructor].
Qed.

Lemma on_instance_AddScript_queue `{Host} (T : ScriptType) (script : Script)
    (regs regs' : list Registry) (g g' : Globals) :
  ScriptMgr.on_instance T (Registry.AddScript script) regs g = Ok (regs', g') ->
  queues_without_destroying script g g'.
Proof.
  assert (Hreg : forall reg reg' g g',
             Registry.AddScript script reg g = Ok (reg', g') ->
             queues_without_destroying script g g').
  { intros [T0 r|T0 r] reg' g0 g0'; cbn [Registry.AddScript]; intros Hrun;
      bind_inv Hrun; destruct a as [r1 g1]; ok_inj.
    - by eapply AddScript_queue.
    - by eapply Unbound_AddScript_queue. }
  revert regs'. induction regs as [|reg rest IH]; intros regs' Hrun;
    cbn [ScriptMgr.on_instance] in Hrun.
  - bind_inv Hrun. destruct a as [reg1 g1]. ok_inj. by eapply Hreg.
  - destruct (decide (registry_type reg = T)).
    + bind_inv Hrun. destruct a as [reg1 g1]. ok_inj. by eapply Hreg.
    + bind_inv Hrun. destruct a as [rest1 g1]. ok_inj. by eapply IH.
Qed.

(** Where the queue is written and drained. A registration call either
    leaves the queue alone or appends its script and destroys nothing;
    releasing a context leaves the queue alone; and
    [ScriptRegistryCompositum::SwapContext] first runs the swap of every
    registered registry, which neither touches the queue nor destroys a
    script, and then destroys the queued objects, in queue order, as the
    last effects of the call. *)
Lemma queue_written_and_drained `{Host} :
  (forall T script s s',
      ScriptMgr.AddScript T script s = Ok s' ->
      queues_without_destroying script (globals s) (globals s')) /\
  (forall context s s',
      Compositum.ReleaseContext context s = Ok s' ->
      _delayed_delete_queue (globals s') = _delayed_delete_queue (globals s)) /\
  (forall initialize s s',
      Compositum.SwapContext initialize s = Ok s' ->
      exists g1 evs,
        for_each_registry (Registry.SwapContext initialize)
                          (_registries s) (globals s)
        = Ok (_registries s', g1) /\
        _delayed_delete_queue g1 = _delayed_delete_queue (globals s) /\
        trace g1 = trace (globals s) ++ evs /\
        Forall not_a_destruction evs /\
        _delayed_delete_queue (globals s') = [] /\
        trace (globals s')
        = trace g1 ++ (Destroyed <$> _delayed_delete_queue (globals s))).
Proof.
  split; [|split].
  - intros T script s s'. unfold ScriptMgr.AddScript. intros Hrun.
    bind_inv Hrun. destruct a as [regs g1]. ok_inj. simpl.
    by eapply on_instance_AddScript_queue.
  - intros context s s'. unfold Compositum.ReleaseContext. intros Hrun.
    bind_inv Hrun. destruct a as [regs g1]. ok_inj. simpl.
    by pose proof (for_each_registry_extends _ _ _ _ _ _
                     (Registry_ReleaseContext_extends context) Hm) as (Hq & _).
  - intros initialize s s'. unfold Compositum.SwapContext. intros Hrun.
    bind_inv Hrun. destruct a as [regs g1]. ok_inj. simpl.
    pose proof (for_each_registry_extends _ _ _ _ _ _
                  (Registry_SwapContext_extends initialize) Hm)
      as (Hq & _ & _ & evs & Ht & Hevs).
    exists g1, evs. by rewrite Hq.
Qed.

Lemma C10_release_erases_names_last_witness :
  _scriptnames_to_context (globals demo_system_queued) !! "A" = Some "a" /\
  exists g',
    SetScriptNameInContext "A" "b"
      (globals (unwrap (Compositum.ReleaseContext "a" demo_system_queued)))
    = Ok g' /\
    _scriptnames_to_context g' !! "A" = Some "b".
Proof.
  split; [by vm_compute|].
  apply (C10_release_erases_names_last "a" demo_system_queued
           (unwrap (Compositum.ReleaseContext "a" demo_system_queued))).
  - by vm_compute.
  - by vm_compute.
Defined.

(** C4. A pointer registered twice in a registry that is not database
    bound is owned by the store and, from the second registration on, by
    the delayed-delete queue. Releasing the context erases the store entry
    and so runs the destructor of the object while it is still queued,
    before any swap; the drain of the next swap then destroys the queued
    object a second time. *)
Theorem C4_queued_object_destroyed_by_release :
  match @run demo_host
          [OpSetScriptContext "a";
           OpAddScript WorldScript script_world;
           OpAddScript WorldScript script_world] (startup [] 0) with
  | Ok s1 =>
      _delayed_delete_queue (globals s1) = [script_world] /\
      Forall not_a_destruction (trace (globals s1)) /\
      match ScriptMgr.ReleaseScriptContext "a" s1 with
      | Ok s2 =>
          _delayed_delete_queue (globals s2) = [script_world] /\
          trace (globals s2) = trace (globals s1) ++ [Destroyed script_world] /\
          match ScriptMgr.SwapScriptContext false s2 with
          | Ok s3 =>
              _delayed_delete_queue (globals s3) = [] /\
              trace (globals s3)
              = trace (globals s2) ++ [Destroyed script_world]
          | Fatal _ => False
          end
      | Fatal _ => False
      end
  | Fatal _ => False
  end.
Proof. vm_compute. repeat split; by repeat constructor. Qed.

(** ** Swapping with nothing to swap *)

Lemma VisitObjectsToSwapOnMap_empty {St : Type}
    (visitor : Entity -> St -> Result (Entity * St))
    (objects : list Entity) (st : St) :
  VisitObjectsToSwapOnMap ∅ visitor objects st = Ok (objects, st).
Proof.
  induction objects as [|e rest IH]; simpl; [done|].
  rewrite bool_decide_eq_false_2 by apply not_elem_of_empty.
  simpl. by rewrite IH.
Qed.

Lemma SetObjectsStore_id (OT : ObjectType) (m : Map) :
  SetObjectsStore OT (GetObjectsStore OT m) m = m.
Proof. by destruct OT, m. Qed.

Lemma DoForAllMaps_id (OT : ObjectType)
    (worker : list Entity -> N -> Result (list Entity * N))
    (ms : list Map) (next : N) :
  (forall objects next, worker objects next = Ok (objects, next)) ->
  DoForAllMaps OT worker ms next = Ok (ms, next).
Proof.
  intros Hid. induction ms as [|m rest IH]; simpl; [done|].
  rewrite Hid. simpl. rewrite IH. simpl. by rewrite SetObjectsStore_id.
Qed.

Lemma DestroyScriptIdsFromSet_empty (OT : ObjectType) (g : Globals) :
  DestroyScriptIdsFromSet OT ∅ g = Ok g.
Proof.
  unfold DestroyScriptIdsFromSet. rewrite DoForAllMaps_id.
  - simpl. by rewrite set_world_id.
  - intros objects next. unfold DestroyOnMap.
    rewrite VisitObjectsToSwapOnMap_empty. simpl.
    by rewrite VisitObjectsToSwapOnMap_empty.
Qed.

Lemma InitializeScriptIdsFromSet_empty (OT : ObjectType)
    (scripts : gmap N Script) (g : Globals) :
  InitializeScriptIdsFromSet OT scripts ∅ g = Ok g.
Proof.
  unfold InitializeScriptIdsFromSet. rewrite DoForAllMaps_id.
  - simpl. by rewrite set_world_id.
  - intros objects next. unfold InitializeOnMap.
    by rewrite VisitObjectsToSwapOnMap_empty.
Qed.

Definition only_command_table (ev : Event) : Prop := ev = InvalidateCommandTable.

(** The registry a swap without initialisation produced is a fixed point of
    the next such swap, whatever the process state. *)
Lemma SwapContext_again (T : ScriptType) (r r1 : BoundRegistry) (g g1 g' : Globals) :
  SwapContext T false r g = Ok (r1, g1) ->
  exists evs, SwapContext T false r1 g' = Ok (r1, emit evs g') /\
              Forall only_command_table evs.
Proof.
  unfold SwapContext. intros Hrun. bind_inv Hrun. destruct a as [r0 g0].
  ok_inj. revert Hm. unfold BeforeSwapContext.
  destruct (ScriptRegistrySwapHooks T) eqn:Hk; intros Hm.
  - ok_inj. exists []. by rewrite emit_nil.
  - ok_inj. exists []. by rewrite emit_nil.
  - bind_inv Hm. bind_inv Hm. ok_inj. exists []. cbn.
    rewrite (left_id_L ∅ (∪)). cbn.
    rewrite DestroyScriptIdsFromSet_empty. cbn.
    rewrite InitializeScriptIdsFromSet_empty. cbn.
    by rewrite emit_nil.
  - exists []. rewrite emit_nil. cbn in Hm.
    destruct (swapped r) eqn:Hs; ok_inj; cbn; [done|]. by rewrite Hs.
  - ok_inj. exists []. by rewrite emit_nil.
  - exists []. rewrite emit_nil.
    destruct (swapped r) eqn:Hs; ok_inj; cbn; [done|]. by rewrite Hs.
  - ok_inj. exists [InvalidateCommandTable]. by repeat constructor.
Qed.

Lemma Registry_SwapContext_again (reg reg1 : Registry) (g g1 g' : Globals) :
  Registry.SwapContext false reg g = Ok (reg1, g1) ->
  exists evs, Registry.SwapContext false reg1 g' = Ok (reg1, emit evs g') /\
              Forall only_command_table evs.
Proof.
  destruct reg as [T r|T r]; cbn [Registry.SwapContext]; intros Hrun.
  - bind_inv Hrun. destruct a as [r1 g0].
    destruct (SwapContext_again T r r1 g g0 g' Hm) as (evs & Hagain & Hevs).
    ok_inj. exists evs. cbn [Registry.SwapContext]. by rewrite Hagain.
  - unfold Unbound.SwapContext in *. simpl in Hrun. ok_inj. simpl.
    unfold Unbound.hook. destruct (ScriptRegistrySwapHooks T);
      first [ by exists []; rewrite emit_nil
            | by exists [InvalidateCommandTable]; repeat constructor ].
Qed.

Lemma emit_emit (evs evs' : list Event) (g : Globals) :
  emit evs' (emit evs g) = emit (evs ++ evs') g.
Proof. unfold emit. simpl. by rewrite app_assoc. Qed.

Lemma for_each_registry_swap_again (regs regs1 : list Registry) (g g1 g' : Globals) :
  for_each_registry (Registry.SwapContext false) regs g = Ok (regs1, g1) ->
  exists evs,
    for_each_registry (Registry.SwapContext false) regs1 g'
    = Ok (regs1, emit evs g') /\
    Forall only_command_table evs.
Proof.
  revert regs1 g g1 g'.
  induction regs as [|reg rest IH]; intros regs1 g g1 g' Hrun; simpl in Hrun.
  - ok_inj. exists []. by rewrite emit_nil.
  - bind_inv Hrun. destruct a as [reg1 g2]. bind_inv Hrun.
    destruct a as [rest1 g3].
    destruct (Registry_SwapContext_again reg reg1 g g2 g' Hm)
      as (evs & Hagain & Hevs).
    destruct (IH rest1 g2 g3 (emit evs g') Hm0) as (evs' & Hrest & Hevs').
    ok_inj. exists (evs ++ evs'). simpl. rewrite Hagain. simpl. rewrite Hrest. simpl.
    rewrite emit_emit. split; [done | by apply Forall_app].
Qed.

(** C7. When [SwapContext(false)] has run, running it again at once leaves
    every registry (scripts, context index, recently added ids, after-load
    buffer, hook flags and removed ids), the delayed-delete queue, the name
    map, the current context and the world exactly as they are; the only
    effects of the second call are invalidations of the command table. *)
Theorem C7_second_swap_changes_nothing (s s1 : System) :
  Compositum.SwapContext false s = Ok s1 ->
  exists evs,
    Compositum.SwapContext false s1
    = Ok {| _registries := _registries s1; globals := emit evs (globals s1) |} /\
    Forall only_command_table evs.
Proof.
  unfold Compositum.SwapContext. intros Hrun. bind_inv Hrun.
  destruct a as [regs g1]. ok_inj. simpl.
  destruct (for_each_registry_swap_again _ _ _ _ (DoDelayedDelete g1) Hm)
    as (evs & Hagain & Hevs).
  exists evs. rewrite Hagain. simpl. split; [|done].
  unfold DoDelayedDelete, emit, set_queue. simpl.
  by rewrite !app_nil_r.
Qed.

Lemma C7_second_swap_changes_nothing_witness :
  exists evs,
    Compositum.SwapContext false
      (unwrap (Compositum.SwapContext false demo_system_queued))
    = Ok {| _registries :=
              _registries (unwrap (Compositum.SwapContext false demo_system_queued));
            globals :=
              emit evs
                (globals (unwrap (Compositum.SwapContext false demo_system_queued))) |} /\
    Forall only_command_table evs.
Proof.
  apply (C7_second_swap_changes_nothing demo_system_queued
           (unwrap (Compositum.SwapContext false demo_system_queued))).
  by vm_compute.
Defined.

(** ** The context index as an invariant *)

(** Both halves of the invariant fail after a release. Script "A" (id 1)
    is registered in context "a" and the context is released before any
    swap: id 1 is still recently added, but it is no longer in the scripts
    map. Then a new instance of "A" is registered in context "b": id 1 is
    in the scripts map and listed in two buckets, "a" and "b". *)
Lemma C5_invariant_fails_after_release :
  match @run demo_host
          [OpSetScriptContext "a";
           OpAddScript ItemScript script_A;
           OpReleaseScriptContext "a"] (startup [] 0) with
  | Ok s1 =>
      match bound_registries s1 with
      | [(_, r1)] =>
          1 ∈ _recently_added_ids r1 /\ _scripts r1 !! 1 = None /\
          match @run demo_host
                  [OpSetScriptContext "b";
                   OpAddScript ItemScript script_A'] s1 with
          | Ok s2 =>
              match bound_registries s2 with
              | [(_, r2)] =>
                  _scripts r2 !! 1 = Some script_A' /\
                  ("a", 1) ∈ _ids_of_contexts r2 /\
                  ("b", 1) ∈ _ids_of_contexts r2
              | _ => False
              end
          | Fatal _ => False
          end
      | _ => False
      end
  | Fatal _ => False
  end.
Proof.
  vm_compute. split; [compute_done|]. split; [done|]. split; [done|].
  split; [left | right; left].
Qed.

Lemma BeforeSwapContext_store (T : ScriptType) (initialize : bool)
    (r r' : BoundRegistry) (g g' : Globals) :
  BeforeSwapContext T initialize r g = Ok (r', g') ->
  _scripts r' = _scripts r /\
  _ids_of_contexts r' = _ids_of_contexts r /\
  _recently_added_ids r' = _recently_added_ids r /\
  _alScripts r' = _alScripts r.
Proof.
  unfold BeforeSwapContext. intros Hrun.
  destruct (ScriptRegistrySwapHooks T);
    repeat match type of Hrun with
           | bind _ _ = Ok _ => bind_inv Hrun
           | (if ?c then _ else _) = Ok _ => destruct c
           end; ok_inj; done.
Qed.

Lemma stored_or_erased_empty : stored_or_erased empty_registry ∅.
Proof.
  split; [|split]; simpl.
  - intros id [s Hs]. by rewrite lookup_empty in Hs.
  - intros id Hin. by apply not_elem_of_empty in Hin.
  - intros id Hin. by apply not_elem_of_empty in Hin.
Qed.

(** What a registration does to the ids: nothing, or it lists one id under
    the current context and marks it recently added, and then the id is
    stored and every other id resolves as before. *)
Lemma AddScript_ids `{Host} (script : Script) (r r' : BoundRegistry)
    (g g' : Globals) :
  AddScript script r g = Ok (r', g') ->
  (_scripts r' = _scripts r /\ _ids_of_contexts r' = _ids_of_contexts r /\
   _recently_added_ids r' = _recently_added_ids r) \/
  (exists id,
      is_Some (_scripts r' !! id) /\
      (forall i, i <> id -> _scripts r' !! i = _scripts r !! i) /\
      (forall i, is_Some (_scripts r !! i) -> is_Some (_scripts r' !! i)) /\
      _ids_of_contexts r' = _ids_of_contexts r ++ [(_currentContext g, id)] /\
      _recently_added_ids r' = {[id]} ∪ _recently_added_ids r).
Proof.
  unfold AddScript. intros Hrun. bind_as Hrun u Hassert.
  destruct (negb (GetScriptId (GetName script) =? 0));
    [|left; by injection Hrun as <- <-].
  destruct (name_is_stored (GetName script) (_scripts r)).
  { bind_as Hrun g1 Habort. bind_as Hrun u1 Habort'. left.
    by injection Hrun as <- <-. }
  destruct (IsAfterLoadDB script); [left; by injection Hrun as <- <-|].
  right. exists (GetScriptId (GetName script)).
  destruct (_scripts r !! GetScriptId (GetName script)) eqn:E;
    bind_as Hrun g1 Hname; injection Hrun as <- <-; simpl.
  - rewrite E. by repeat split.
  - rewrite lookup_insert_eq. repeat split; try done.
    + intros i Hne. by rewrite lookup_insert_ne.
    + intros i Hi. destruct (decide (i = GetScriptId (GetName script)))
        as [->|Hne]; [by rewrite lookup_insert_eq|].
      by rewrite lookup_insert_ne.
Qed.

Lemma registry_call_stored_or_erased `{Host} (T : ScriptType)
    (c : RegistryCall) (r r' : BoundRegistry) (g g' : Globals)
    (erased : gset N) :
  stored_or_erased r erased ->
  registry_call T c r g = Ok (r', g') ->
  stored_or_erased r' (erased_unswapped c r r' erased).
Proof.
  intros (Hlisted & Hrecent & Herased).
  destruct c as [script|context|initialize]; cbn [registry_call erased_unswapped];
    intros Hcall.
  - assert (Hgrow : forall i, is_Some (_scripts r !! i) ->
                              is_Some (_scripts r' !! i)).
    { apply AddScript_ids in Hcall as [(Hs & _)|(id & _ & _ & Hg & _)];
        [by rewrite Hs | done]. }
    assert (Hkeep : forall i, is_Some (_scripts r !! i) \/ i ∈ erased ->
              is_Some (_scripts r' !! i)
              \/ i ∈ erased ∖ dom (_scripts r')).
    { intros i Hi. destruct (_scripts r' !! i) as [sc|] eqn:E; [by left|].
      right. apply elem_of_difference. split.
      - destruct Hi as [Hi|Hi]; [|done]. apply Hgrow in Hi.
        rewrite E in Hi. by destruct Hi.
      - by apply not_elem_of_dom. }
    split; [|split].
    + apply AddScript_ids in Hcall
        as [(Hs & Hi & _)|(id & Hid & Hother & _ & Hi & _)]; rewrite Hi.
      * rewrite Hs. apply Hlisted.
      * intros i Hsome. destruct (decide (i = id)) as [->|Hne].
        -- exists (_currentContext g). apply elem_of_app. right. left.
        -- rewrite Hother in Hsome by done.
           destruct (Hlisted i Hsome) as [ctx Hctx]. exists ctx.
           apply elem_of_app. by left.
    + apply AddScript_ids in Hcall
        as [(_ & _ & Hr)|(id & Hid & _ & _ & _ & Hr)]; rewrite Hr.
      * intros i Hi. by apply Hkeep, Hrecent.
      * intros i Hi. apply elem_of_union in Hi as [Hi|Hi].
        -- apply elem_of_singleton in Hi as ->. by left.
        -- by apply Hkeep, Hrecent.
    + intros i Hi. apply elem_of_difference in Hi as [_ Hi].
      by apply not_elem_of_dom.
  - apply ReleaseContext_keeps in Hcall as (Hi & Hr & _ & Hsub).
    split; [|split].
    + rewrite Hi. intros i Hsome. by apply Hlisted, Hsub.
    + rewrite Hr. intros i Hin.
      destruct (_scripts r' !! i) as [sc|] eqn:E; [by left|]. right.
      apply elem_of_union. destruct (Hrecent i Hin) as [Hsome|He]; [|by left].
      right. apply elem_of_difference. split.
      * by apply elem_of_dom.
      * by apply not_elem_of_dom.
    + intros i Hin. apply elem_of_union in Hin as [Hin|Hin].
      * destruct (_scripts r' !! i) as [sc|] eqn:E; [|done].
        assert (Hsome : is_Some (_scripts r !! i)) by (apply Hsub; by eexists).
        rewrite (Herased i Hin) in Hsome. by destruct Hsome.
      * apply elem_of_difference in Hin as [_ Hin]. by apply not_elem_of_dom.
  - unfold SwapContext in Hcall. bind_as Hcall x Hhook. destruct x as [r1 g1].
    injection Hcall as <- <-.
    apply BeforeSwapContext_store in Hhook as (Hs & Hi & _).
    split; [|split]; simpl.
    + rewrite Hs, Hi. apply Hlisted.
    + intros i Hin. by apply not_elem_of_empty in Hin.
    + intros i Hin. by apply not_elem_of_empty in Hin.
Qed.

Lemma for_each_registry_Forall (P : Registry -> Prop)
    (method : Registry -> Globals -> Result (Registry * Globals))
    (regs regs' : list Registry) (g g' : Globals) :
  (forall reg reg' g g', P reg -> method reg g = Ok (reg', g') -> P reg') ->
  Forall P regs ->
  for_each_registry method regs g = Ok (regs', g') ->
  Forall P regs'.
Proof.
  intros Hmethod Hall. revert regs' g g'.
  induction Hall as [|reg rest Hreg _ IH]; intros regs' g g' Hrun;
    simpl in Hrun.
  - ok_inj. constructor.
  - bind_inv Hrun. destruct a as [reg1 g1]. bind_inv Hrun.
    destruct a as [rest1 g2]. ok_inj. constructor.
    + by eapply Hmethod.
    + by eapply IH.
Qed.

Lemma on_instance_Forall (P : Registry -> Prop) (T : ScriptType)
    (method : Registry -> Globals -> Result (Registry * Globals))
    (regs regs' : list Registry) (g g' : Globals) :
  (forall reg reg' g g', P reg -> method reg g = Ok (reg', g') -> P reg') ->
  P (new_registry T) ->
  Forall P regs ->
  ScriptMgr.on_instance T method regs g = Ok (regs', g') ->
  Forall P regs'.
Proof.
  intros Hmethod Hnew Hall. revert regs'.
  induction Hall as [|reg rest Hreg Hrest IH]; intros regs' Hrun;
    cbn [ScriptMgr.on_instance] in Hrun.
  - bind_inv Hrun. destruct a as [reg1 g1]. ok_inj.
    constructor; [by eapply Hmethod | constructor].
  - destruct (decide (registry_type reg = T)).
    + bind_inv Hrun. destruct a as [reg1 g1]. ok_inj.
      constructor; [by eapply Hmethod | done].
    + bind_inv Hrun. destruct a as [rest1 g1]. ok_inj.
      constructor; [done | by eapply IH].
Qed.

Lemma elem_of_bound_registries (s : System) (T : ScriptType) (r : BoundRegistry) :
  (T, r) ∈ bound_registries s <-> DatabaseBound T r ∈ _registries s.
Proof.
  unfold bound_registries. rewrite list_elem_of_omap. split.
  - intros [[T0 r0|T0 r0] [Hin Heq]]; [|discriminate]. by ok_inj;
      injection Heq as -> ->.
  - intros Hin. by exists (DatabaseBound T r).
Qed.

(** C5, amended. After every sequence of [AddScript], [ReleaseContext] and
    [SwapContext] calls on a database bound registry that starts with the
    empty registry and completes, whatever the process state of each call:
    every id of the scripts map is listed in the context index; every
    recently added id is in the scripts map, unless a release erased it
    from the scripts map after it was last added and after the last swap;
    and an id erased that way is not in the scripts map. *)
Theorem C5_recently_added_stored_or_released `{Host} (T : ScriptType)
    (calls : list (RegistryCall * Globals)) (r : BoundRegistry)
    (erased : gset N) :
  registry_history T calls empty_registry ∅ = Ok (r, erased) ->
  (forall id, is_Some (GetScriptById id r) ->
              exists context, (context, id) ∈ _ids_of_contexts r) /\
  (forall id, id ∈ _recently_added_ids r ->
              is_Some (GetScriptById id r) \/ id ∈ erased) /\
  (forall id, id ∈ erased -> GetScriptById id r = None).
Proof.
  assert (Hgen : forall r0 erased0,
             stored_or_erased r0 erased0 ->
             registry_history T calls r0 erased0 = Ok (r, erased) ->
             stored_or_erased r erased).
  { induction calls as [|[c g] rest IH]; intros r0 erased0 Hinv Hrun;
      simpl in Hrun.
    - by injection Hrun as <- <-.
    - bind_as Hrun x Hcall. destruct x as [r1 g1]. simpl in Hrun.
      eapply IH; [|exact Hrun].
      by eapply registry_call_stored_or_erased. }
  intros Hrun. exact (Hgen _ _ stored_or_erased_empty Hrun).
Qed.

Lemma C5_recently_added_stored_or_released_witness :
  (forall id, is_Some (GetScriptById id demo_history.1) ->
              exists context, (context, id) ∈ _ids_of_contexts demo_history.1) /\
  (forall id, id ∈ _recently_added_ids demo_history.1 ->
              is_Some (GetScriptById id demo_history.1) \/ id ∈ demo_history.2) /\
  (forall id, id ∈ demo_history.2 -> GetScriptById id demo_history.1 = None).
Proof.
  apply (@C5_recently_added_stored_or_released demo_host ItemScript
           [(CallAddScript script_A, demo_globals "a" [] 0);
            (CallReleaseContext "a", demo_globals "a" [] 0);
            (CallAddScript script_B, demo_globals "b" [] 0)]
           demo_history.1 demo_history.2).
  by vm_compute.
Defined.

(** ** Walking the object stores

    The three loops of the swap logic, each with a state invariant [I], a
    relation [R] between an object before and after, and what is known of
    every object of the store, [Q]. *)
Section Walks.
Context {St : Type} (I : St -> Prop) (Q : Entity -> Prop)
        (R : Entity -> Entity -> Prop).

Lemma VisitObjectsToSwapOnMap_walk (ids : gset N)
    (visitor : Entity -> St -> Result (Entity * St))
    (objects objects' : list Entity) (st st' : St) :
  (forall e s e' s', Q e -> script_id e ∈ ids -> I s ->
                     visitor e s = Ok (e', s') -> I s' /\ R e e') ->
  (forall e, script_id e ∉ ids -> R e e) ->
  Forall Q objects -> I st ->
  VisitObjectsToSwapOnMap ids visitor objects st = Ok (objects', st') ->
  I st' /\ Forall2 R objects objects'.
Proof.
  intros Hvisit Hskip HQ. revert objects' st.
  induction HQ as [|e rest He _ IH]; intros objects' st Hst Hrun;
    simpl in Hrun.
  - ok_inj. by split.
  - bind_inv Hrun. destruct a as [e1 st1]. bind_inv Hrun.
    destruct a as [rest1 st2]. ok_inj.
    assert (I st1 /\ R e e1) as [Hst1 HR].
    { destruct (bool_decide (script_id e ∈ ids)) eqn:Hin.
      - apply bool_decide_eq_true in Hin. by eapply Hvisit.
      - apply bool_decide_eq_false in Hin. ok_inj.
        split; [done | by apply Hskip]. }
    destruct (IH _ _ Hst1 Hm0) as [Hst2 Hrest].
    split; [done | by constructor].
Qed.

Hypothesis R_refl : forall e, R e e.

Lemma Forall2_R_refl (objects : list Entity) : Forall2 R objects objects.
Proof. induction objects; by constructor. Qed.

Lemma with_entity_walk (g : N) (f : Entity -> St -> Result (Entity * St))
    (objects objects' : list Entity) (st st' : St) :
  (forall e s e' s', Q e -> guid e = g -> I s ->
                     f e s = Ok (e', s') -> I s' /\ R e e' /\ Q e') ->
  Forall Q objects -> I st ->
  with_entity g f objects st = Ok (objects', st') ->
  I st' /\ Forall2 R objects objects' /\ Forall Q objects'.
Proof.
  intros Hf HQ. revert objects' st.
  induction HQ as [|e rest He Hrest IH]; intros objects' st Hst Hrun;
    simpl in Hrun.
  - ok_inj. by repeat split.
  - destruct (bool_decide (guid e = g)) eqn:Hg.
    + apply bool_decide_eq_true in Hg.
      bind_inv Hrun. destruct a as [e1 st1]. injection Hrun as <- <-.
      destruct (Hf _ _ _ _ He Hg Hst Hm) as (Hst1 & HR & HQ1).
      repeat split; [done| |by constructor].
      constructor; [done | apply Forall2_R_refl].
    + bind_inv Hrun. destruct a as [rest1 st1]. ok_inj.
      destruct (IH _ _ Hst Hm) as (Hst1 & HR & HQ1).
      repeat split; [done| by constructor | by constructor].
Qed.

Hypothesis R_trans : forall e1 e2 e3, R e1 e2 -> R e2 e3 -> R e1 e3.

Lemma for_each_guid_walk (gs : list N)
    (f : Entity -> St -> Result (Entity * St))
    (objects objects' : list Entity) (st st' : St) :
  (forall g e s e' s', g ∈ gs -> Q e -> guid e = g -> I s ->
                       f e s = Ok (e', s') -> I s' /\ R e e' /\ Q e') ->
  Forall Q objects -> I st ->
  for_each_guid f gs objects st = Ok (objects', st') ->
  I st' /\ Forall2 R objects objects' /\ Forall Q objects'.
Proof.
  revert objects st. induction gs as [|g gs IH];
    intros objects st Hf HQ Hst Hrun; simpl in Hrun.
  - ok_inj. repeat split; [done| |done]. apply Forall2_R_refl.
  - bind_inv Hrun. destruct a as [objects1 st1].
    destruct (with_entity_walk g f _ _ _ _
                (fun e s e' s' => Hf g e s e' s' ltac:(left)) HQ Hst Hm)
      as (Hst1 & HR1 & HQ1).
    destruct (IH objects1 st1) as (Hst2 & HR2 & HQ2); try done.
    { intros g0 e s e' s' Hg0. apply Hf. by right. }
    repeat split; [done| |done].
    eapply Forall2_trans; [|exact HR1|exact HR2]. apply R_trans.
Qed.

End Walks.

(** ** The hooks of one entity *)

Lemma same_object_refl (e : Entity) : same_object e e.
Proof. by repeat split. Qed.

Lemma same_object_trans (e1 e2 e3 : Entity) :
  same_object e1 e2 -> same_object e2 e3 -> same_object e1 e3.
Proof. intros (? & ? & ?) (? & ? & ?). repeat split; congruence. Qed.

Lemma ai_kept_refl (e : Entity) : ai_kept e e.
Proof. intros a Ha. by exists a. Qed.

Lemma ai_kept_trans (e1 e2 e3 : Entity) :
  ai_kept e1 e2 -> ai_kept e2 e3 -> ai_kept e1 e3.
Proof.
  intros H12 H23 a Ha. destruct (H12 a Ha) as (a2 & Ha2 & ? & ?).
  destruct (H23 a2 Ha2) as (a3 & Ha3 & ? & ?).
  exists a3. repeat split; congruence.
Qed.

Lemma ai_from_refl (since : N) (scripts : gmap N Script) (e : Entity) :
  ai_from since scripts e e.
Proof. intros a Ha. left. by exists a. Qed.

Lemma ai_from_trans (since : N) (scripts : gmap N Script) (e1 e2 e3 : Entity) :
  script_id e2 = script_id e1 ->
  ai_from since scripts e1 e2 -> ai_from since scripts e2 e3 ->
  ai_from since scripts e1 e3.
Proof.
  intros Hid H12 H23 a3 Ha3.
  destruct (H23 a3 Ha3) as [(a2 & Ha2 & Haddr & Hscr)|[Hnew Hscr]].
  - destruct (H12 a2 Ha2) as [(a1 & Ha1 & ? & ?)|[Hnew' Hscr']].
    + left. exists a1. repeat split; congruence.
    + right. split; congruence.
  - right. split; congruence.
Qed.

Lemma touched_only_refl (gs : list N) (ids : gset N) (e : Entity) :
  touched_only gs ids e e.
Proof. split; [apply same_object_refl | done]. Qed.

Lemma touched_only_trans (gs : list N) (ids : gset N) (e1 e2 e3 : Entity) :
  touched_only gs ids e1 e2 -> touched_only gs ids e2 e3 ->
  touched_only gs ids e1 e3.
Proof.
  intros [Hs12 H12] [Hs23 H23]. split; [by eapply same_object_trans|].
  intros Hid Hg. specialize (H12 Hid Hg). subst e2. by apply H23.
Qed.

Lemma AI_call_spec (c : AICall) (e e' : Entity) :
  AI_call c e = Ok e' ->
  same_object e e' /\ ai_kept e e' /\
  (forall a', ai e' = Some a' ->
     exists a, ai e = Some a /\
               ai_addr a' = ai_addr a /\ ai_script a' = ai_script a).
Proof.
  unfold AI_call. destruct (ai e) as [a|] eqn:Ha; [|discriminate].
  intros Hrun. ok_inj. split; [by repeat split|]. split.
  - intros a0 Ha0. rewrite Ha in Ha0. injection Ha0 as <-. by eexists.
  - intros a' Ha'. simpl in Ha'. injection Ha' as <-. by exists a.
Qed.

Lemma UnloadResetScript_spec (OT : ObjectType) (e e' : Entity) :
  UnloadResetScript OT e = Ok e' -> same_object e e'.
Proof.
  destruct OT; simpl; intros Hrun.
  - bind_inv Hrun. destruct (alive _).
    + apply AI_call_spec in Hrun as (Hs & _).
      eapply same_object_trans; [|exact Hs].
      destruct (charmed e); by repeat split.
    + ok_inj. destruct (charmed e); by repeat split.
  - by apply AI_call_spec in Hrun as (Hs & _).
Qed.

Lemma UnloadDestroyScript_spec (OT : ObjectType) (e e' : Entity) :
  UnloadDestroyScript OT e = Ok e' -> same_object e e' /\ ai e' = None.
Proof.
  destruct OT; unfold UnloadDestroyScript, AIM_Destroy;
    destruct (ai_locked e) eqn:Hl; intros Hrun.
  - bind_inv Hrun. discriminate.
  - bind_inv Hrun. bind_inv Hrun. injection Hrun as <-. by repeat split.
  - bind_inv Hrun. injection Hrun as <-. apply ASSERT_Ok in Hm.
    unfold has_ai in Hm. destruct (ai e); [discriminate|]. by repeat split.
  - bind_inv Hrun. injection Hrun as <-. by repeat split.
Qed.

Lemma AIM_Create_spec (scripts : gmap N Script) (next next' : N)
    (e e' : Entity) (created : bool) :
  AIM_Create scripts next e = (created, e', next') ->
  next <= next' /\ same_object e e' /\
  created = negb (ai_locked e) /\
  (created = false -> ai e' = ai e) /\
  (created = true ->
   exists a', ai e' = Some a' /\ ai_addr a' = next /\
              ai_script a' = scripts !! script_id e).
Proof.
  unfold AIM_Create. destruct (ai_locked e) eqn:Hl; intros Hrun;
    injection Hrun as <- <- <-.
  - repeat split; try done; try lia.
  - repeat split; try done; try lia. intros _. by eexists.
Qed.

Lemma LoadInitializeScript_spec (OT : ObjectType) (scripts : gmap N Script)
    (e e' : Entity) (next next' : N) :
  LoadInitializeScript OT scripts e next = Ok (e', next') ->
  next <= next' /\ same_object e e' /\ ai e = None /\
  (ai_locked e = false -> ai e' <> None) /\
  (forall a', ai e' = Some a' ->
     next <= ai_addr a' /\ ai_script a' = scripts !! script_id e).
Proof.
  assert (Hnone : forall x u,
             ASSERT (negb (has_ai x)) "The AI should be null here!" = Ok u ->
             ai x = None).
  { intros x u Hx. apply ASSERT_Ok in Hx. unfold has_ai in Hx.
    by destruct (ai x). }
  destruct OT; unfold LoadInitializeScript; intros Hrun; bind_inv Hrun;
    apply Hnone in Hm.
  - set (e1 := if alive e then set_evade false e else e) in *.
    assert (He1 : same_object e e1 /\ ai e1 = ai e).
    { unfold e1. destruct (alive e); by repeat split. }
    destruct He1 as [(Hg1 & Hi1 & Hl1) Ha1].
    destruct (AIM_Create scripts next e1) as [[created e2] n2] eqn:Hc.
    apply AIM_Create_spec in Hc as (Hle & (Hg2 & Hi2 & Hl2) & Hcr & _ & Hnew).
    bind_inv Hrun. apply ASSERT_Ok in Hm0. injection Hrun as <- <-.
    destruct (Hnew Hm0) as (a2 & Ha2 & Haddr & Hscr).
    split; [done|]. split; [repeat split; congruence|]. split; [done|].
    split; [congruence|]. intros x Hx. rewrite Ha2 in Hx.
    injection Hx as <-. split; [lia | congruence].
  - destruct (AIM_Create scripts next e) as [[created e2] n2] eqn:Hc.
    apply AIM_Create_spec in Hc as (Hle & Hsame & Hcr & Hold & Hnew).
    injection Hrun as <- <-.
    split; [done|]. split; [done|]. split; [done|]. split.
    + intros Hl. rewrite Hl in Hcr. simpl in Hcr.
      destruct (Hnew Hcr) as (a2 & Ha2 & _). congruence.
    + intros x Hx. destruct created.
      * destruct (Hnew eq_refl) as (a2 & Ha2 & Haddr & Hscr).
        rewrite Ha2 in Hx. injection Hx as <-. split; [lia | done].
      * rewrite (Hold eq_refl) in Hx. congruence.
Qed.

Lemma LoadResetScript_spec (OT : ObjectType) (e e' : Entity) :
  LoadResetScript OT e = Ok e' ->
  same_object e e' /\ ai_kept e e' /\
  (forall a', ai e' = Some a' ->
     exists a, ai e = Some a /\
               ai_addr a' = ai_addr a /\ ai_script a' = ai_script a).
Proof.
  destruct OT; simpl; intros Hrun.
  - destruct (alive e); simpl in Hrun.
    + bind_inv Hrun. ok_inj.
      apply AI_call_spec in Hm as ((Hg & Hi & Hl) & Hk & Hf).
      split; [by repeat split|]. split.
      * intros a0 Ha0. by apply Hk.
      * intros a' Ha'. by apply Hf.
    + ok_inj. split; [apply same_object_refl|].
      split; [apply ai_kept_refl|]. intros a' Ha'. by exists a'.
  - by apply (AI_call_spec CallReset).
Qed.

(** ** The swap logic on one object store *)

Lemma Forall2_eq_inv {A : Type} (l k : list A) : Forall2 eq l k -> l = k.
Proof. induction 1; congruence. Qed.

Lemma Forall_elem_of_self (objects : list Entity) :
  Forall (fun e => e ∈ objects) objects.
Proof. by apply Forall_forall. Qed.

Lemma collected_from_snoc (ids : gset N) (objects : list Entity)
    (gs : list N) (e : Entity) :
  collected_from ids objects gs -> e ∈ objects -> script_id e ∈ ids ->
  collected_from ids objects (gs ++ [guid e]).
Proof.
  intros Hgs He Hid g Hg. apply elem_of_app in Hg as [Hg|Hg].
  - by apply Hgs.
  - apply list_elem_of_singleton in Hg as ->. by exists e.
Qed.

(** After the destroy pass no object whose script id is in [ids] has a
    behavior, and an object outside [ids] changed only if its guid was
    collected. *)
Lemma DestroyOnMap_spec (OT : ObjectType) (ids : gset N)
    (objects objects' : list Entity) :
  DestroyOnMap OT ids objects = Ok objects' ->
  exists gs, collected_from ids objects gs /\
    Forall2 (fun e e' => touched_only gs ids e e' /\
                         (script_id e ∈ ids -> ai e' = None))
            objects objects'.
Proof.
  unfold DestroyOnMap. intros Hrun.
  bind_inv Hrun. destruct a as [objects0 gs].
  bind_inv Hrun. destruct a as [objects1 u1].
  bind_inv Hrun. destruct a as [objects2 u2]. injection Hrun as <-.
  (* collecting the guids *)
  apply (VisitObjectsToSwapOnMap_walk
           (collected_from ids objects) (fun e => e ∈ objects) eq) in Hm.
  2:{ intros e s e' s' He Hid Hs Hv. injection Hv as <- <-. split; [|done].
      destruct (has_ai e && negb (guid_IsEmpty e)); [|done].
      by apply collected_from_snoc. }
  2:{ done. }
  2:{ apply Forall_elem_of_self. }
  2:{ intros g Hg. by apply not_elem_of_nil in Hg. }
  destruct Hm as [Hgs Heq]. apply Forall2_eq_inv in Heq as <-.
  exists gs. split; [done|].
  (* the reset by guid *)
  apply (for_each_guid_walk (fun _ => True) (fun _ => True)
           (touched_only gs ids) (touched_only_refl gs ids)
           (touched_only_trans gs ids)) in Hm0.
  2:{ intros g e s e' s' Hg _ Hguid _ Hf. bind_as Hf e1 Hreset.
      injection Hf as <- <-. apply UnloadResetScript_spec in Hreset.
      split; [done|]. split; [|done]. split; [done|].
      intros _ Hnot. destruct Hnot. by rewrite Hguid. }
  2:{ by apply Forall_forall. }
  2:{ done. }
  destruct Hm0 as (_ & Hreset & _).
  (* the destruction *)
  apply (VisitObjectsToSwapOnMap_walk (fun _ => True) (fun _ => True)
           (fun e e' => touched_only gs ids e e' /\
                        (script_id e ∈ ids -> ai e' = None))) in Hm1.
  2:{ intros e s e' s' _ Hid _ Hv. bind_as Hv e1 Hdestroy.
      injection Hv as <- <-.
      apply UnloadDestroyScript_spec in Hdestroy as [Hsame Hnone].
      split; [done|]. split; [|done]. by split. }
  2:{ intros e Hid. split; [apply touched_only_refl | done]. }
  2:{ by apply Forall_forall. }
  2:{ done. }
  destruct Hm1 as [_ Hdestroy].
  eapply Forall2_trans; [|exact Hreset|exact Hdestroy].
  intros e e1 e2 Ht [Ht' Hnone]. split.
  - by eapply touched_only_trans.
  - intros Hid. apply Hnone. destruct Ht as [(_ & Hsid & _) _]. by rewrite Hsid.
Qed.

Lemma swap_step_refl (gs : list N) (ids : gset N) (since : N)
    (scripts : gmap N Script) (e : Entity) :
  swap_step gs ids since scripts e e.
Proof.
  split; [apply touched_only_refl|].
  split; [apply ai_from_refl | apply ai_kept_refl].
Qed.

Lemma swap_step_trans (gs : list N) (ids : gset N) (since : N)
    (scripts : gmap N Script) (e1 e2 e3 : Entity) :
  swap_step gs ids since scripts e1 e2 ->
  swap_step gs ids since scripts e2 e3 ->
  swap_step gs ids since scripts e1 e3.
Proof.
  intros (Ht & Hf & Hk) (Ht' & Hf' & Hk').
  split; [by eapply touched_only_trans|]. split.
  - eapply ai_from_trans; [|exact Hf|exact Hf'].
    by destruct Ht as [(_ & Hid & _) _].
  - by eapply ai_kept_trans.
Qed.

(** The initialize pass: behaviors are kept or built anew at or after the
    allocator position [next]; an object in [ids] that had no behavior, is
    in the world and can be given one has a behavior afterwards. *)
Lemma InitializeOnMap_spec (OT : ObjectType) (scripts : gmap N Script)
    (ids : gset N) (objects objects' : list Entity) (next next' : N) :
  InitializeOnMap OT scripts ids objects next = Ok (objects', next') ->
  next <= next' /\
  exists gs, collected_from ids objects gs /\
    Forall2 (fun e e' =>
               swap_step gs ids next scripts e e' /\
               (script_id e ∈ ids -> ai e = None -> guid e <> 0 ->
                ai_locked e = false -> ai e' <> None))
            objects objects'.
Proof.
  unfold InitializeOnMap. intros Hrun.
  bind_as Hrun st1 Hvisit. destruct st1 as [objects1 [next1 gs]].
  (* creating the behaviors and collecting the guids *)
  apply (VisitObjectsToSwapOnMap_walk
           (fun st => next <= st.1 /\ collected_from ids objects st.2)
           (fun e => e ∈ objects)
           (fun e e' =>
              same_object e e' /\ (script_id e ∉ ids -> e' = e) /\
              ai_from next scripts e e' /\ ai_kept e e' /\
              (script_id e ∈ ids -> ai e = None -> guid e <> 0 ->
               ai_locked e = false -> ai e' <> None))) in Hvisit.
  2:{ intros e [n guids] e' [n' guids'] He Hid [Hn Hgs] Hv. simpl in *.
      destruct (negb (has_ai e) && negb (guid_IsEmpty e)) eqn:Hc.
      - bind_as Hv x Hinit. destruct x as [e1 n1]. injection Hv as <- <- <-.
        apply LoadInitializeScript_spec in Hinit
          as (Hle & Hsame & Hnone & Hcreated & Hnew).
        split; [split; [lia | by apply collected_from_snoc]|].
        split; [done|]. split; [done|]. split.
        { intros a' Ha'. right. destruct (Hnew a' Ha'). split; [lia|done]. }
        split.
        { intros a Ha. congruence. }
        intros _ _ _ Hl. by apply Hcreated.
      - injection Hv as <- <- <-. split; [done|].
        split; [apply same_object_refl|]. split; [done|].
        split; [apply ai_from_refl|]. split; [apply ai_kept_refl|].
        intros _ Hnone Hguid _. exfalso.
        unfold has_ai, guid_IsEmpty in Hc. rewrite Hnone in Hc. simpl in Hc.
        by rewrite bool_decide_eq_false_2 in Hc. }
  2:{ intros e Hid. split; [apply same_object_refl|]. split; [done|].
      split; [apply ai_from_refl|]. split; [apply ai_kept_refl | done]. }
  2:{ apply Forall_elem_of_self. }
  2:{ simpl. split; [lia|]. intros g Hg. by apply not_elem_of_nil in Hg. }
  destruct Hvisit as [[Hn1 Hgs] Hpass1]. simpl in Hn1, Hgs.
  (* the reset by guid *)
  apply (for_each_guid_walk (fun n => next <= n) (fun _ => True)
           (swap_step gs ids next scripts)
           (swap_step_refl gs ids next scripts)
           (swap_step_trans gs ids next scripts)) in Hrun.
  2:{ intros g e n e' n' Hg _ Hguid Hn Hf.
      bind_as Hf x Hinit. destruct x as [e1 n1].
      bind_as Hf e2 Hreset. injection Hf as <- <-.
      apply LoadResetScript_spec in Hreset as (Hsame2 & Hkept2 & Hfrom2).
      assert (Hstep1 : n <= n1 /\ same_object e e1 /\
                       ai_from next scripts e e1 /\ ai_kept e e1).
      { destruct (negb (has_ai e)).
        - apply LoadInitializeScript_spec in Hinit
            as (Hle & Hsame & Hnone & _ & Hnew).
          split; [done|]. split; [done|]. split.
          + intros a' Ha'. right. destruct (Hnew a' Ha'). split; [lia|done].
          + intros a Ha. congruence.
        - injection Hinit as <- <-. split; [lia|].
          split; [apply same_object_refl|].
          split; [apply ai_from_refl | apply ai_kept_refl]. }
      destruct Hstep1 as (Hle & Hsame1 & Hfrom1 & Hkept1).
      split; [lia|]. split; [|done]. split; [|split].
      - split; [by eapply same_object_trans|].
        intros _ Hnot. destruct Hnot. by rewrite Hguid.
      - intros a' Ha'. destruct (Hfrom2 a' Ha') as (a1 & Ha1 & Haddr & Hscr).
        destruct (Hfrom1 a1 Ha1) as [(a0 & Ha0 & ? & ?)|[? ?]].
        + left. exists a0. repeat split; congruence.
        + right. split; congruence.
      - by eapply ai_kept_trans. }
  2:{ by apply Forall_forall. }
  2:{ done. }
  destruct Hrun as (Hn' & Hpass2 & _).
  split; [done|]. exists gs. split; [done|].
  eapply Forall2_trans; [|exact Hpass1|exact Hpass2].
  intros e e1 e2 (Hsame1 & Hout1 & Hfrom1 & Hkept1 & Hnew1)
         ((Hsame2 & Hout2) & Hfrom2 & Hkept2).
  split; [split; [|split]|].
  - split; [by eapply same_object_trans|].
    intros Hid Hgu. specialize (Hout1 Hid). subst e1. by apply Hout2.
  - eapply ai_from_trans; [|exact Hfrom1|exact Hfrom2].
    by destruct Hsame1 as (_ & Hi1 & _).
  - by eapply ai_kept_trans.
  - intros Hid Hnone Hguid Hl.
    specialize (Hnew1 Hid Hnone Hguid Hl).
    destruct (ai e1) as [a1|] eqn:Ha1; [|done].
    destruct (Hkept2 a1 Ha1) as (a2 & Ha2 & _). congruence.
Qed.

(** ** The swap logic on all maps *)

Lemma GetObjectsStore_Set (OT : ObjectType) (l : list Entity) (m : Map) :
  GetObjectsStore OT (SetObjectsStore OT l m) = l.
Proof. by destruct OT. Qed.

Lemma DoForAllMaps_walk (OT : ObjectType) (I : N -> Prop)
    (R : list Entity -> list Entity -> Prop)
    (worker : list Entity -> N -> Result (list Entity * N))
    (ms ms' : list Map) (next next' : N) :
  (forall objects n objects' n',
      I n -> worker objects n = Ok (objects', n') -> I n' /\ R objects objects') ->
  I next ->
  DoForAllMaps OT worker ms next = Ok (ms', next') ->
  I next' /\ stores_related OT R ms ms'.
Proof.
  intros Hworker. revert ms' next.
  induction ms as [|m rest IH]; intros ms' next Hnext Hrun; simpl in Hrun.
  - injection Hrun as <- <-. split; [done | constructor].
  - bind_as Hrun x Hw. destruct x as [objects1 n1].
    bind_as Hrun y Hrest. destruct y as [rest1 n2]. injection Hrun as <- <-.
    destruct (Hworker _ _ _ _ Hnext Hw) as [Hn1 HR].
    destruct (IH _ _ Hn1 Hrest) as [Hn2 Hall].
    split; [done|]. constructor; [|done]. by rewrite GetObjectsStore_Set.
Qed.

Lemma DestroyScriptIdsFromSet_spec (OT : ObjectType) (ids : gset N)
    (g g' : Globals) :
  DestroyScriptIdsFromSet OT ids g = Ok g' ->
  ai_next g' = ai_next g /\
  stores_related OT (destroyed_store ids) (maps g) (maps g').
Proof.
  unfold DestroyScriptIdsFromSet. intros Hrun.
  bind_as Hrun x Hall. destruct x as [ms n]. injection Hrun as <-. simpl.
  apply (DoForAllMaps_walk OT (fun k => k = ai_next g) (destroyed_store ids))
    in Hall; [done| |done].
  intros objects k objects' k' Hk Hw. bind_as Hw o Hd. injection Hw as <- <-.
  split; [done|]. by apply DestroyOnMap_spec in Hd.
Qed.

Lemma ai_from_weaken (since n : N) (scripts : gmap N Script) (e e' : Entity) :
  since <= n -> ai_from n scripts e e' -> ai_from since scripts e e'.
Proof.
  intros Hle Hfrom a' Ha'. destruct (Hfrom a' Ha') as [Hold|[Hnew Hscr]].
  - by left.
  - right. split; [lia | done].
Qed.

Lemma InitializeScriptIdsFromSet_spec (OT : ObjectType)
    (scripts : gmap N Script) (ids : gset N) (g g' : Globals) :
  InitializeScriptIdsFromSet OT scripts ids g = Ok g' ->
  ai_next g <= ai_next g' /\
  stores_related OT (initialized_store ids (ai_next g) scripts)
                 (maps g) (maps g').
Proof.
  unfold InitializeScriptIdsFromSet. intros Hrun.
  bind_as Hrun x Hall. destruct x as [ms n]. injection Hrun as <-. simpl.
  apply (DoForAllMaps_walk OT (fun k => ai_next g <= k)
           (initialized_store ids (ai_next g) scripts))
    in Hall; [done| |lia].
  intros objects k objects' k' Hk Hw.
  apply InitializeOnMap_spec in Hw as (Hle & gs & Hgs & Hall').
  split; [lia|]. exists gs. split; [done|].
  eapply Forall2_impl; [exact Hall'|].
  intros e e' [(Ht & Hf & Hkept) Hnew]. split; [|done].
  split; [done|]. split; [|done]. by eapply ai_from_weaken.
Qed.

(** ** Objects outside the swapped ids *)

Lemma Forall2_with_elem_of {A B : Type} (R : A -> B -> Prop) (l : list A)
    (k : list B) :
  Forall2 R l k -> Forall2 (fun x y => x ∈ l /\ R x y) l k.
Proof.
  intros Hall.
  assert (Hgen : forall l0 : list A, (forall x, x ∈ l -> x ∈ l0) ->
                            Forall2 (fun x y => x ∈ l0 /\ R x y) l k).
  { induction Hall as [|x y l k Hxy _ IH]; intros l0 Hsub; constructor.
    - split; [apply Hsub; left | done].
    - apply IH. intros z Hz. apply Hsub. by right. }
  by apply Hgen.
Qed.

Lemma NoDup_guid_inj (objects : list Entity) (e e0 : Entity) :
  NoDup (guid <$> objects) -> e ∈ objects -> e0 ∈ objects ->
  guid e = guid e0 -> e = e0.
Proof.
  induction objects as [|x rest IH]; intros Hnd He He0 Hg.
  - by apply not_elem_of_nil in He.
  - rewrite fmap_cons in Hnd. apply NoDup_cons in Hnd as [Hx Hnd].
    apply elem_of_cons in He as [->|He];
      apply elem_of_cons in He0 as [->|He0]; try done.
    + destruct Hx. rewrite Hg. by apply list_elem_of_fmap_2.
    + destruct Hx. rewrite <- Hg. by apply list_elem_of_fmap_2.
    + by apply IH.
Qed.

Lemma same_outside_refl (ids : gset N) (e : Entity) : same_outside ids e e.
Proof. by repeat split. Qed.

Lemma same_outside_trans (ids : gset N) (e1 e2 e3 : Entity) :
  same_outside ids e1 e2 -> same_outside ids e2 e3 -> same_outside ids e1 e3.
Proof.
  intros (Hg & Hi & Ho) (Hg' & Hi' & Ho'). repeat split; try congruence.
  intros Hid. specialize (Ho Hid). subst e2. by apply Ho'.
Qed.

Lemma same_outside_weaken (ids ids' : gset N) (e e' : Entity) :
  ids ⊆ ids' -> same_outside ids e e' -> same_outside ids' e e'.
Proof.
  intros Hsub (Hg & Hi & Ho). repeat split; try done.
  intros Hid. apply Ho. intros Hin. apply Hid. by apply Hsub.
Qed.

Lemma touched_only_outside (gs : list N) (ids : gset N)
    (objects : list Entity) (e e' : Entity) :
  NoDup (guid <$> objects) -> collected_from ids objects gs ->
  e ∈ objects -> touched_only gs ids e e' -> same_outside ids e e'.
Proof.
  intros Hnd Hgs He [(Hg & Hi & _) Hout]. repeat split; try done.
  intros Hid. apply Hout; [done|]. intros Hin.
  destruct (Hgs _ Hin) as (e0 & He0 & Hg0 & Hid0).
  assert (e0 = e) as -> by (by eapply NoDup_guid_inj).
  done.
Qed.

Lemma same_object_guids (objects objects' : list Entity) :
  Forall2 same_object objects objects' -> guid <$> objects' = guid <$> objects.
Proof.
  induction 1 as [|e e' l k (Hg & _) _ IH]; [done|].
  rewrite !fmap_cons. congruence.
Qed.

Lemma destroyed_store_same_object (ids : gset N) (objects objects' : list Entity) :
  destroyed_store ids objects objects' -> Forall2 same_object objects objects'.
Proof.
  intros (gs & _ & Hall). eapply Forall2_impl; [exact Hall|].
  by intros e e' [[Hs _] _].
Qed.

Lemma destroyed_store_outside (ids : gset N) (objects objects' : list Entity) :
  NoDup (guid <$> objects) -> destroyed_store ids objects objects' ->
  Forall2 (same_outside ids) objects objects'.
Proof.
  intros Hnd (gs & Hgs & Hall). apply Forall2_with_elem_of in Hall.
  eapply Forall2_impl; [exact Hall|].
  intros e e' (He & Ht & _). by eapply touched_only_outside.
Qed.

Lemma initialized_store_same_object (ids : gset N) (since : N)
    (scripts : gmap N Script) (objects objects' : list Entity) :
  initialized_store ids since scripts objects objects' ->
  Forall2 same_object objects objects'.
Proof.
  intros (gs & _ & Hall). eapply Forall2_impl; [exact Hall|].
  by intros e e' [[[Hs _] _] _].
Qed.

Lemma initialized_store_outside (ids : gset N) (since : N)
    (scripts : gmap N Script) (objects objects' : list Entity) :
  NoDup (guid <$> objects) ->
  initialized_store ids since scripts objects objects' ->
  Forall2 (same_outside ids) objects objects'.
Proof.
  intros Hnd (gs & Hgs & Hall). apply Forall2_with_elem_of in Hall.
  eapply Forall2_impl; [exact Hall|].
  intros e e' (He & (Ht & _) & _). by eapply touched_only_outside.
Qed.

(** Destroy, then initialize, over the same ids, on one store. *)
Lemma swapped_store (ids : gset N) (since : N) (scripts : gmap N Script)
    (o0 o1 o2 : list Entity) :
  destroyed_store ids o0 o1 ->
  initialized_store ids since scripts o1 o2 ->
  Forall2 (hot_swapped ids since scripts) o0 o2 /\
  (NoDup (guid <$> o0) -> Forall2 (same_outside ids) o0 o2).
Proof.
  intros Hd Hi. split.
  - destruct Hd as (gs1 & _ & Hd). destruct Hi as (gs2 & _ & Hi).
    eapply Forall2_trans; [|exact Hd|exact Hi].
    intros e e1 e2 [[Hs1 _] Hnone] [([Hs2 _] & Hfrom & _) Hnew].
    split; [by eapply same_object_trans|]. intros Hid.
    destruct Hs1 as (Hg1 & Hi1 & Hl1). destruct Hs2 as (Hg2 & Hi2 & Hl2).
    specialize (Hnone Hid).
    assert (Hfresh : forall a2, ai e2 = Some a2 ->
               since <= ai_addr a2 /\ ai_script a2 = scripts !! script_id e2).
    { intros a2 Ha2. destruct (Hfrom a2 Ha2) as [(a1 & Ha1 & _)|[Hle Hscr]].
      - congruence.
      - split; [done | congruence]. }
    split.
    + destruct (ai e2) as [a2|] eqn:Ha2; [|by left].
      right. exists a2. split; [done|]. by apply Hfresh.
    + intros Hguid Hl.
      assert (Hsome : ai e2 <> None).
      { apply Hnew; congruence. }
      destruct (ai e2) as [a2|] eqn:Ha2; [|done].
      exists a2. split; [done|]. by apply Hfresh.
  - intros Hnd.
    pose proof (destroyed_store_outside _ _ _ Hnd Hd) as Ho1.
    assert (Hnd1 : NoDup (guid <$> o1)).
    { by rewrite (same_object_guids _ _ (destroyed_store_same_object _ _ _ Hd)). }
    pose proof (initialized_store_outside _ _ _ _ _ Hnd1 Hi) as Ho2.
    eapply Forall2_trans; [|exact Ho1|exact Ho2]. apply same_outside_trans.
Qed.

(** The same after an earlier destroy pass over a part of the ids. *)
Lemma released_then_swapped_store (ids0 ids : gset N) (since : N)
    (scripts : gmap N Script) (o o0 o1 o2 : list Entity) :
  ids0 ⊆ ids ->
  destroyed_store ids0 o o0 ->
  destroyed_store ids o0 o1 ->
  initialized_store ids since scripts o1 o2 ->
  Forall2 (hot_swapped ids since scripts) o o2 /\
  (NoDup (guid <$> o) -> Forall2 (same_outside ids) o o2).
Proof.
  intros Hsub Hd0 Hd Hi.
  destruct (swapped_store _ _ _ _ _ _ Hd Hi) as [Hswap Hout].
  pose proof (destroyed_store_same_object _ _ _ Hd0) as Hsame0. split.
  - eapply Forall2_trans; [|exact Hsame0|exact Hswap].
    intros e e0 e2 Hs0 [Hs Hre]. split; [by eapply same_object_trans|].
    intros Hid. apply Hre. destruct Hs0 as (_ & Hi0 & _). by rewrite Hi0.
  - intros Hnd.
    pose proof (destroyed_store_outside _ _ _ Hnd Hd0) as Ho0.
    assert (Hnd0 : NoDup (guid <$> o0)) by (by rewrite (same_object_guids _ _ Hsame0)).
    eapply Forall2_trans; [|exact Ho0|exact (Hout Hnd0)].
    intros e e0 e2 H0 H2. eapply same_outside_trans; [|exact H2].
    by eapply same_outside_weaken.
Qed.

Lemma stores_related_trans (OT : ObjectType)
    (R1 R2 R3 : list Entity -> list Entity -> Prop) (ms1 ms2 ms3 : list Map) :
  (forall o1 o2 o3, R1 o1 o2 -> R2 o2 o3 -> R3 o1 o3) ->
  stores_related OT R1 ms1 ms2 -> stores_related OT R2 ms2 ms3 ->
  stores_related OT R3 ms1 ms3.
Proof.
  intros Hcomp H12 H23. unfold stores_related in *.
  eapply Forall2_trans; [|exact H12|exact H23].
  intros m1 m2 m3. apply Hcomp.
Qed.

(** ** No dangling attachment *)

(** C1, as stated, fails. The example world has a creature attached to the
    untouched id 7; after the release of "mod1" (which holds id 5) and the
    swap, that creature still has the behavior it had before, allocated
    before the cycle began: it is neither freshly constructed nor absent. *)
Lemma C1_untouched_entity_keeps_old_behavior :
  BeforeReleaseContext CreatureScript "mod1" creature_registry
    (demo_globals EmptyString demo_world 3) = Ok demo_released /\
  BeforeSwapContext CreatureScript false demo_released.1 demo_released.2
  = Ok demo_swapped /\
  exists m e,
    m ∈ maps demo_swapped.2 /\ e ∈ creatures m /\
    script_id e = 7 /\
    ~ (ai e = None \/ freshly_constructed 3 e).
Proof.
  split; [by vm_compute|]. split; [by vm_compute|].
  eexists _, (demo_entity 12 7 (Some (old_ai 1 None))).
  split; [vm_compute; left|]. split; [vm_compute; right; left|].
  split; [done|]. intros [Hnone|(a & Ha & Hle)].
  - discriminate Hnone.
  - injection Ha as <-. simpl in Hle. lia.
Qed.

(** C1, amended. For the creature and the game-object category, when
    [BeforeReleaseContext] and then [BeforeSwapContext(false)] complete, the
    world holds the same objects and, with [ids] the ids removed so far, the
    ids of the released context and the recently added ids: every object
    whose script id is in [ids] has either no behavior or one constructed
    during the cycle (and does have one, built by the script now registered
    for its id, when it is in the world and its behavior can be created);
    every object whose script id is not in [ids] is exactly as it was, its
    store being keyed by guid. *)
Theorem C1_no_stale_attachment (T : ScriptType) (OT : ObjectType)
    (context : string) (r r1 r2 : BoundRegistry) (g g1 g2 : Globals) :
  ScriptRegistrySwapHooks T = CreatureGameObjectHooks OT ->
  BeforeReleaseContext T context r g = Ok (r1, g1) ->
  BeforeSwapContext T false r1 g1 = Ok (r2, g2) ->
  stores_related OT
    (store_swapped
       (ids_removed_ r ∪ GetScriptIDsToRemove context r ∪ _recently_added_ids r)
       (ai_next g) (_scripts r))
    (maps g) (maps g2).
Proof.
  intros Hk. unfold BeforeReleaseContext, BeforeSwapContext. rewrite Hk.
  intros Hrel Hswap.
  bind_as Hrel g0 Hd0. injection Hrel as <- <-.
  bind_as Hswap g3 Hd. bind_as Hswap g4 Hi. injection Hswap as <- <-.
  cbn in Hd, Hi.
  apply DestroyScriptIdsFromSet_spec in Hd0 as [Hn0 Hd0].
  apply DestroyScriptIdsFromSet_spec in Hd as [Hn Hd].
  apply InitializeScriptIdsFromSet_spec in Hi as [_ Hi].
  rewrite Hn, Hn0 in Hi.
  set (ids := ids_removed_ r ∪ GetScriptIDsToRemove context r
              ∪ _recently_added_ids r) in *.
  assert (H13 : stores_related OT
            (fun o1 o3 => exists o2,
                 destroyed_store ids o1 o2 /\
                 initialized_store ids (ai_next g) (_scripts r) o2 o3)
            (maps g0) (maps g4)).
  { eapply stores_related_trans; [|exact Hd|exact Hi].
    intros o1 o2 o3 H12 H23. by exists o2. }
  eapply stores_related_trans; [|exact Hd0|exact H13].
  intros o o0 o2 H0 (o1 & H1 & H2).
  eapply released_then_swapped_store; [|exact H0|exact H1|exact H2].
  unfold ids. intros id Hid. apply elem_of_union. left.
  apply elem_of_union. by right.
Qed.

Lemma C1_no_stale_attachment_witness :
  stores_related Creature
    (store_swapped
       (ids_removed_ creature_registry
        ∪ GetScriptIDsToRemove "mod1" creature_registry
        ∪ _recently_added_ids creature_registry)
       3 (_scripts creature_registry))
    demo_world (maps demo_swapped.2).
Proof.
  apply (C1_no_stale_attachment CreatureScript Creature "mod1"
           creature_registry demo_released.1 demo_swapped.1
           (demo_globals EmptyString demo_world 3) demo_released.2 demo_swapped.2).
  - reflexivity.
  - by vm_compute.
  - by vm_compute.
Defined.

(** ** The swap of the creature and game-object categories *)

(** C6. For the creature and the game-object category: a swap during
    initialisation only clears the recently added ids, the process state
    (the world in it) and the removed ids are what they were; a swap
    without initialisation runs the destroy pass and then the initialize
    pass over the removed ids united with the recently added ids, leaves
    both sets empty, and every object whose script id is in the union is
    reattached. *)
Theorem C6_swap_covers_recently_added (T : ScriptType) (OT : ObjectType)
    (r r' : BoundRegistry) (g g' : Globals) :
  ScriptRegistrySwapHooks T = CreatureGameObjectHooks OT ->
  SwapContext T true r g = Ok (set_recently_added ∅ r, g) /\
  (SwapContext T false r g = Ok (r', g') ->
   (exists g1,
       DestroyScriptIdsFromSet OT (ids_removed_ r ∪ _recently_added_ids r) g
       = Ok g1 /\
       InitializeScriptIdsFromSet OT (_scripts r)
         (ids_removed_ r ∪ _recently_added_ids r) g1 = Ok g') /\
   _recently_added_ids r' = ∅ /\ ids_removed_ r' = ∅ /\
   _scripts r' = _scripts r /\ _ids_of_contexts r' = _ids_of_contexts r /\
   stores_related OT
     (store_swapped (ids_removed_ r ∪ _recently_added_ids r)
                    (ai_next g) (_scripts r))
     (maps g) (maps g')).
Proof.
  intros Hk. unfold SwapContext, BeforeSwapContext. rewrite Hk. split; [done|].
  intros Hswap. bind_as Hswap x Hhook. destruct x as [r0 g0].
  injection Hswap as <- <-.
  bind_as Hhook g1 Hd. bind_as Hhook g2 Hi. injection Hhook as <- <-.
  cbn in Hd, Hi. split; [by exists g1|]. repeat split.
  apply DestroyScriptIdsFromSet_spec in Hd as [Hn Hd].
  apply InitializeScriptIdsFromSet_spec in Hi as [_ Hi]. rewrite Hn in Hi.
  eapply stores_related_trans; [|exact Hd|exact Hi].
  intros o0 o1 o2. apply swapped_store.
Qed.

Lemma C6_swap_covers_recently_added_witness :
  SwapContext CreatureScript true creature_registry_recent
    (demo_globals EmptyString demo_world 3)
  = Ok (set_recently_added ∅ creature_registry_recent,
        demo_globals EmptyString demo_world 3) /\
  _recently_added_ids demo_upgraded.1 = ∅ /\
  ids_removed_ demo_upgraded.1 = ∅ /\
  stores_related Creature
    (store_swapped
       (ids_removed_ creature_registry_recent
        ∪ _recently_added_ids creature_registry_recent)
       3 (_scripts creature_registry_recent))
    demo_world (maps demo_upgraded.2).
Proof.
  destruct (C6_swap_covers_recently_added CreatureScript Creature
              creature_registry_recent demo_upgraded.1
              (demo_globals EmptyString demo_world 3) demo_upgraded.2 eq_refl)
    as [Hinit Hswap].
  split; [exact Hinit|].
  destruct (Hswap ltac:(by vm_compute)) as (_ & Hrec & Hrem & _ & _ & Hworld).
  by repeat split.
Defined.

(** In the example, the creature with guid 13 ran without a behavior for the
    recently added id 5; after the swap it has one built by the registered
    script. *)
Lemma recently_added_id_upgrades_entity :
  exists m e a,
    m ∈ maps demo_upgraded.2 /\ e ∈ creatures m /\ guid e = 13 /\
    ai e = Some a /\ 3 <= ai_addr a /\ ai_script a = Some script_five.
Proof.
  eexists _, _, _. split; [vm_compute; left|].
  split; [vm_compute; right; right; left|].
  split; [done|]. split; [done|]. split; [|done]. simpl. lia.
Qed.

(** ** The swap logic completes on a well-formed world *)

Lemma VisitObjectsToSwapOnMap_completes {St : Type} (ids : gset N)
    (visitor : Entity -> St -> Result (Entity * St))
    (objects : list Entity) (st : St) :
  (forall e s, e ∈ objects -> script_id e ∈ ids -> exists x, visitor e s = Ok x) ->
  exists x, VisitObjectsToSwapOnMap ids visitor objects st = Ok x.
Proof.
  revert st. induction objects as [|e rest IH]; intros st Hv; simpl.
  - by eexists.
  - assert (exists x, (if bool_decide (script_id e ∈ ids)
                       then visitor e st else Ok (e, st)) = Ok x) as [[e1 st1] ->].
    { case_bool_decide; [apply Hv; [left | done] | by eexists]. }
    simpl. destruct (IH st1) as [[rest1 st2] ->].
    { intros e0 s He0. apply Hv. by right. }
    simpl. by eexists.
Qed.

Lemma with_entity_completes {St : Type} (g : N)
    (f : Entity -> St -> Result (Entity * St))
    (objects : list Entity) (st : St) :
  (forall e, e ∈ objects -> guid e = g -> exists x, f e st = Ok x) ->
  exists x, with_entity g f objects st = Ok x.
Proof.
  induction objects as [|e rest IH]; intros Hf; simpl.
  - by eexists.
  - case_bool_decide as Hg.
    + destruct (Hf e ltac:(left) Hg) as [[e1 st1] ->]. simpl. by eexists.
    + destruct IH as [[rest1 st1] ->].
      { intros e0 He0. apply Hf. by right. }
      simpl. by eexists.
Qed.

Lemma for_each_guid_completes {St : Type} (P : Entity -> Prop) (gs : list N)
    (f : Entity -> St -> Result (Entity * St))
    (objects : list Entity) (st : St) :
  (forall e s, P e ->
     exists e' s', f e s = Ok (e', s') /\ P e' /\ guid e' = guid e) ->
  Forall (fun e => guid e ∈ gs -> P e) objects ->
  exists x, for_each_guid f gs objects st = Ok x.
Proof.
  intros Hf. revert objects st.
  induction gs as [|g gs IH]; intros objects st HP; simpl.
  - by eexists.
  - destruct (with_entity_completes g f objects st) as [[objects1 st1] Hw].
    { intros e He Hg. rewrite Forall_forall in HP.
      destruct (Hf e st (HP e He ltac:(rewrite Hg; left)))
        as (e' & s' & Hfe & _). by eexists. }
    rewrite Hw. simpl. apply IH.
    apply (with_entity_walk (fun _ => True)
             (fun e => guid e ∈ g :: gs -> P e) (fun _ _ => True)) in Hw;
      [|done| |done|done].
    + destruct Hw as (_ & _ & HP1). eapply Forall_impl; [exact HP1|].
      intros e He Hin. apply He. by right.
    + intros e s e' s' He Hg _ Hfe. split; [done|]. split; [done|].
      destruct (Hf e s (He ltac:(rewrite Hg; left)))
        as (e2 & s2 & Hfe2 & HP2 & Hg2).
      rewrite Hfe in Hfe2. injection Hfe2 as <- <-. by intros _.
Qed.

Lemma UnloadResetScript_completes (OT : ObjectType) (e : Entity) :
  ai e <> None ->
  exists e', UnloadResetScript OT e = Ok e' /\ ai e' <> None /\
             guid e' = guid e.
Proof.
  intros Hai. destruct (ai e) as [a|] eqn:Ha; [|done].
  destruct OT; unfold UnloadResetScript.
  - set (e2 := if charmed (KillAllEvents e) then RemoveCharmedBy (KillAllEvents e)
               else KillAllEvents e).
    assert (He2 : charmed e2 = false /\ ai e2 = Some a /\ guid e2 = guid e).
    { unfold e2. destruct (charmed (KillAllEvents e)) eqn:Hc; by repeat split. }
    destruct He2 as (Hc & Ha2 & Hg2). rewrite Hc. simpl.
    destruct (alive e2).
    + unfold AI_call. rewrite Ha2. eexists. split; [reflexivity|]. by split.
    + eexists. split; [reflexivity|]. split; [congruence | done].
  - unfold AI_call. rewrite Ha. eexists. split; [reflexivity|]. by split.
Qed.

Lemma UnloadDestroyScript_completes (OT : ObjectType) (e : Entity) :
  ai_locked e = false -> exists e', UnloadDestroyScript OT e = Ok e'.
Proof.
  intros Hl. destruct OT; unfold UnloadDestroyScript, AIM_Destroy; rewrite Hl;
    simpl; by eexists.
Qed.

Lemma LoadInitializeScript_completes (OT : ObjectType)
    (scripts : gmap N Script) (e : Entity) (next : N) :
  ai e = None -> ai_locked e = false ->
  exists e' next', LoadInitializeScript OT scripts e next = Ok (e', next') /\
                   ai e' <> None.
Proof.
  intros Hnone Hl.
  destruct OT; unfold LoadInitializeScript, has_ai; rewrite Hnone; simpl.
  - unfold AIM_Create.
    replace (ai_locked (if alive e then set_evade false e else e)) with false
      by (by destruct (alive e)).
    simpl. by eexists _, _.
  - unfold AIM_Create. rewrite Hl. by eexists _, _.
Qed.

Lemma LoadResetScript_completes (OT : ObjectType) (e : Entity) :
  ai e <> None -> exists e', LoadResetScript OT e = Ok e'.
Proof.
  intros Hai. destruct (ai e) as [a|] eqn:Ha; [|done].
  destruct OT; unfold LoadResetScript.
  - destruct (alive e); simpl; [|by eexists].
    unfold AI_call. simpl. rewrite Ha. simpl. by eexists.
  - unfold AI_call. rewrite Ha. by eexists.
Qed.

Lemma DestroyOnMap_completes (OT : ObjectType) (ids : gset N)
    (objects : list Entity) :
  NoDup (guid <$> objects) ->
  Forall (fun e => ai_locked e = false) objects ->
  exists objects', DestroyOnMap OT ids objects = Ok objects'.
Proof.
  intros Hnd Hl. unfold DestroyOnMap.
  destruct (VisitObjectsToSwapOnMap_completes ids
              (fun object guids =>
                 Ok (object,
                     if has_ai object && negb (guid_IsEmpty object)
                     then guids ++ [guid object] else guids))
              objects []) as [[objects0 gs] Hv]; [by eexists|].
  rewrite Hv. simpl.
  (* the collected guids belong to objects that have a behavior *)
  apply (VisitObjectsToSwapOnMap_walk
           (fun gs => forall g, g ∈ gs ->
                        exists e, e ∈ objects /\ guid e = g /\ ai e <> None)
           (fun e => e ∈ objects) eq) in Hv.
  2:{ intros e s e' s' He Hid Hs Hvis. injection Hvis as <- <-. split; [|done].
      destruct (has_ai e && negb (guid_IsEmpty e)) eqn:Hc; [|done].
      intros g Hg. apply elem_of_app in Hg as [Hg|Hg]; [by apply Hs|].
      apply list_elem_of_singleton in Hg as ->. exists e.
      split; [done|]. split; [done|]. unfold has_ai in Hc.
      by destruct (ai e). }
  2:{ done. }
  2:{ apply Forall_elem_of_self. }
  2:{ intros g Hg. by apply not_elem_of_nil in Hg. }
  destruct Hv as [Hgs Heq]. apply Forall2_eq_inv in Heq as <-.
  destruct (for_each_guid_completes (fun e => ai e <> None) gs
              (fun entity (_ : unit) =>
                 do entity' <- UnloadResetScript OT entity; Ok (entity', tt))
              objects tt) as [[objects1 u1] Hreset].
  { intros e s Hai.
    destruct (UnloadResetScript_completes OT e Hai) as (e' & -> & Hai' & Hg').
    simpl. by eexists _, _. }
  { apply Forall_forall. intros e He Hin.
    destruct (Hgs _ Hin) as (e0 & He0 & Hg0 & Hai0).
    by rewrite (NoDup_guid_inj objects e e0 Hnd He He0). }
  rewrite Hreset. simpl.
  apply (for_each_guid_walk (fun _ => True)
           (fun e => ai_locked e = false) same_object
           same_object_refl same_object_trans) in Hreset;
    [| |done|done].
  2:{ intros g e s e' s' _ Hle _ _ Hf. bind_as Hf e1 Hr. injection Hf as <- <-.
      apply UnloadResetScript_spec in Hr. split; [done|]. split; [done|].
      destruct Hr as (_ & _ & Hl1). congruence. }
  destruct Hreset as (_ & _ & Hl1).
  destruct (VisitObjectsToSwapOnMap_completes ids
              (fun object (_ : unit) =>
                 do object' <- UnloadDestroyScript OT object; Ok (object', tt))
              objects1 tt) as [[objects2 u2] ->].
  { intros e s He _. rewrite Forall_forall in Hl1.
    destruct (UnloadDestroyScript_completes OT e (Hl1 e He)) as [e' ->].
    simpl. by eexists. }
  simpl. by eexists.
Qed.

Lemma same_object_unlocked (objects objects' : list Entity) :
  Forall2 same_object objects objects' ->
  Forall (fun e => ai_locked e = false) objects ->
  Forall (fun e => ai_locked e = false) objects'.
Proof.
  induction 1 as [|e e' l k (_ & _ & Hl) _ IH]; intros Hall; [done|].
  apply Forall_cons in Hall as [He Hall]. constructor; [congruence | auto].
Qed.

Lemma InitializeOnMap_completes (OT : ObjectType) (scripts : gmap N Script)
    (ids : gset N) (objects : list Entity) (next : N) :
  Forall (fun e => ai_locked e = false) objects ->
  exists x, InitializeOnMap OT scripts ids objects next = Ok x.
Proof.
  intros Hl. unfold InitializeOnMap.
  set (visitor := fun (object : Entity) '((next, guids) : N * list N) =>
         if negb (has_ai object) && negb (guid_IsEmpty object) then
           do (object', next') <- LoadInitializeScript OT scripts object next;
           Ok (object', (next', guids ++ [guid object]))
         else Ok (object, (next, guids))).
  destruct (VisitObjectsToSwapOnMap_completes ids visitor objects (next, []))
    as [[objects1 [next1 gs]] Hv].
  { intros e [n guids] He _. unfold visitor.
    destruct (negb (has_ai e) && negb (guid_IsEmpty e)) eqn:Hc; [|by eexists].
    rewrite Forall_forall in Hl.
    destruct (LoadInitializeScript_completes OT scripts e n)
      as (e' & n' & -> & _); [|by apply Hl|by eexists].
    unfold has_ai in Hc. by destruct (ai e). }
  rewrite Hv. simpl.
  apply (VisitObjectsToSwapOnMap_walk (fun _ => True) (fun _ => True)
           same_object) in Hv; [| |by intros; apply same_object_refl
                                |by apply Forall_forall|done].
  2:{ intros e [n guids] e' s' _ _ _ Hvis. split; [done|]. unfold visitor in Hvis.
      destruct (negb (has_ai e) && negb (guid_IsEmpty e)).
      - bind_as Hvis x Hinit. destruct x as [e1 n1]. injection Hvis as <- <-.
        by apply LoadInitializeScript_spec in Hinit as (_ & Hs & _).
      - injection Hvis as <- <-. apply same_object_refl. }
  destruct Hv as [_ Hsame]. pose proof (same_object_unlocked _ _ Hsame Hl) as Hl1.
  apply (for_each_guid_completes (fun e => ai_locked e = false)).
  - intros e n Hle.
    assert (exists e1 n1,
               (if negb (has_ai e)
                then LoadInitializeScript OT scripts e n else Ok (e, n))
               = Ok (e1, n1) /\ ai e1 <> None /\ same_object e e1)
      as (e1 & n1 & -> & Hai1 & Hs1).
    { unfold has_ai. destruct (ai e) as [a|] eqn:Ha; simpl.
      - eexists _, _. split; [reflexivity|]. split; [congruence|].
        apply same_object_refl.
      - destruct (LoadInitializeScript_completes OT scripts e n Ha Hle)
          as (e1 & n1 & Hinit & Hai1).
        exists e1, n1. split; [done|]. split; [done|].
        by apply LoadInitializeScript_spec in Hinit as (_ & Hs & _). }
    simpl. destruct (LoadResetScript_completes OT e1 Hai1) as [e2 Hreset].
    rewrite Hreset. simpl. exists e2, n1. split; [done|].
    apply LoadResetScript_spec in Hreset as ((Hg2 & _ & Hl2) & _).
    destruct Hs1 as (Hg1 & _ & Hl1'). split; congruence.
  - eapply Forall_impl; [exact Hl1|]. by intros e He _.
Qed.

Lemma DoForAllMaps_completes (OT : ObjectType)
    (worker : list Entity -> N -> Result (list Entity * N))
    (ms : list Map) (next : N) :
  Forall (fun m => forall n, exists x, worker (GetObjectsStore OT m) n = Ok x) ms ->
  exists x, DoForAllMaps OT worker ms next = Ok x.
Proof.
  intros Hall. revert next.
  induction Hall as [|m rest Hm _ IH]; intros next; simpl.
  - by eexists.
  - destruct (Hm next) as [[objects1 n1] ->]. simpl.
    destruct (IH n1) as [[rest1 n2] ->]. simpl. by eexists.
Qed.

Lemma swappable_preserved (OT : ObjectType) (ms ms' : list Map) :
  stores_related OT (Forall2 same_object) ms ms' ->
  swappable OT ms -> swappable OT ms'.
Proof.
  unfold stores_related, swappable.
  induction 1 as [|m m' l k Hsame _ IH]; intros Hall; [done|].
  apply Forall_cons in Hall as [[Hnd Hl] Hall]. constructor; [|auto].
  split.
  - by rewrite (same_object_guids _ _ Hsame).
  - by eapply same_object_unlocked.
Qed.

Lemma stores_related_impl (OT : ObjectType)
    (R R' : list Entity -> list Entity -> Prop) (ms ms' : list Map) :
  (forall o o', R o o' -> R' o o') ->
  stores_related OT R ms ms' -> stores_related OT R' ms ms'.
Proof.
  intros Himpl Hall. unfold stores_related in *.
  eapply Forall2_impl; [exact Hall|]. intros m m'. apply Himpl.
Qed.

Lemma DestroyScriptIdsFromSet_completes (OT : ObjectType) (ids : gset N)
    (g : Globals) :
  swappable OT (maps g) ->
  exists g', DestroyScriptIdsFromSet OT ids g = Ok g' /\ swappable OT (maps g').
Proof.
  intros Hw. unfold DestroyScriptIdsFromSet.
  destruct (DoForAllMaps_completes OT
              (fun objects next =>
                 do objects' <- DestroyOnMap OT ids objects;
                 Ok (objects', next))
              (maps g) (ai_next g)) as [[ms n] Hall].
  { eapply Forall_impl; [exact Hw|]. intros m [Hnd Hl] k.
    destruct (DestroyOnMap_completes OT ids _ Hnd Hl) as [objects' ->].
    simpl. by eexists. }
  assert (Hrun : DestroyScriptIdsFromSet OT ids g = Ok (set_world ms n g)).
  { unfold DestroyScriptIdsFromSet. by rewrite Hall. }
  rewrite Hall. simpl. eexists. split; [reflexivity|].
  apply DestroyScriptIdsFromSet_spec in Hrun as [_ Hrel].
  eapply swappable_preserved; [|exact Hw].
  eapply stores_related_impl; [|exact Hrel].
  apply destroyed_store_same_object.
Qed.

Lemma InitializeScriptIdsFromSet_completes (OT : ObjectType)
    (scripts : gmap N Script) (ids : gset N) (g : Globals) :
  swappable OT (maps g) ->
  exists g', InitializeScriptIdsFromSet OT scripts ids g = Ok g' /\
             swappable OT (maps g').
Proof.
  intros Hw. unfold InitializeScriptIdsFromSet.
  destruct (DoForAllMaps_completes OT (InitializeOnMap OT scripts ids)
              (maps g) (ai_next g)) as [[ms n] Hall].
  { eapply Forall_impl; [exact Hw|]. intros m [_ Hl] k.
    by apply InitializeOnMap_completes. }
  assert (Hrun : InitializeScriptIdsFromSet OT scripts ids g
                 = Ok (set_world ms n g)).
  { unfold InitializeScriptIdsFromSet. by rewrite Hall. }
  rewrite Hall. simpl. eexists. split; [reflexivity|].
  apply InitializeScriptIdsFromSet_spec in Hrun as [_ Hrel].
  eapply swappable_preserved; [|exact Hw].
  eapply stores_related_impl; [|exact Hrel].
  apply initialized_store_same_object.
Qed.

(** On a world whose stores are keyed by guid and hold no locked behavior,
    the release hook and the swap hook of the creature and game-object
    categories complete. *)
Theorem swap_cycle_completes (T : ScriptType) (OT : ObjectType)
    (context : string) (initialize : bool) (r : BoundRegistry) (g : Globals) :
  ScriptRegistrySwapHooks T = CreatureGameObjectHooks OT ->
  swappable OT (maps g) ->
  exists r1 g1 r2 g2,
    BeforeReleaseContext T context r g = Ok (r1, g1) /\
    BeforeSwapContext T initialize r1 g1 = Ok (r2, g2) /\
    swappable OT (maps g2).
Proof.
  intros Hk Hw. unfold BeforeReleaseContext, BeforeSwapContext. rewrite Hk.
  destruct (DestroyScriptIdsFromSet_completes OT
              (GetScriptIDsToRemove context r) g Hw) as (g1 & -> & Hw1).
  simpl. eexists _, g1. destruct initialize.
  - eexists _, _. by repeat split.
  - match goal with
    | |- context [DestroyScriptIdsFromSet OT ?ids g1] =>
        destruct (DestroyScriptIdsFromSet_completes OT ids g1 Hw1)
          as (g2 & Hd & Hw2)
    end.
    match goal with
    | |- context [InitializeScriptIdsFromSet OT ?scripts ?ids _] =>
        destruct (InitializeScriptIdsFromSet_completes OT scripts ids g2 Hw2)
          as (g3 & Hi & Hw3)
    end.
    exists (set_ids_removed ∅
              (set_ids_removed
                 (ids_removed_ r ∪ GetScriptIDsToRemove context r
                  ∪ _recently_added_ids r)
                 (set_ids_removed
                    (ids_removed_ r ∪ GetScriptIDsToRemove context r) r))), g3.
    split; [reflexivity|]. split; [|done].
    cbn in *. rewrite Hd. cbn. rewrite Hi. reflexivity.
Qed.

(** [with_entity] acts on the object [GetEntityFromMap] finds. *)
Lemma with_entity_GetEntityFromMap {St : Type} (g : N)
    (f : Entity -> St -> Result (Entity * St))
    (objects : list Entity) (st : St) :
  match GetEntityFromMap g objects with
  | None => with_entity g f objects st = Ok (objects, st)
  | Some entity =>
      exists before after,
        objects = before ++ entity :: after /\
        Forall (fun e => guid e <> g) before /\
        with_entity g f objects st
        = (do (entity', st') <- f entity st;
           Ok (before ++ entity' :: after, st'))
  end.
Proof.
  unfold GetEntityFromMap. induction objects as [|e rest IH]; [done|].
  rewrite filter_cons. simpl. case_decide as Hg.
  - simpl. rewrite bool_decide_eq_true_2 by done.
    exists [], rest. by repeat split.
  - rewrite bool_decide_eq_false_2 by done.
    destruct (head (filter (fun e => guid e = g) rest)) as [entity|].
    + destruct IH as (before & after & -> & Hbefore & ->).
      exists (e :: before), after. split; [done|]. split; [by constructor|].
      simpl. by destruct (f entity st) as [[entity' st']|].
    + by rewrite IH.
Qed.

(** * Further properties of the registry code *)

(** ** Registering a script *)

Lemma name_is_stored_false (name : string) (m : gmap N Script) :
  name_is_stored name m = false <->
  forall id stored, m !! id = Some stored -> GetName stored <> name.
Proof.
  unfold name_is_stored. rewrite bool_decide_eq_false. split.
  - intros Hno id stored Hl Hn. apply Hno. by exists id, stored.
  - intros Hno (id & stored & Hl & Hn). by eapply Hno.
Qed.

(** X1. A script with an assigned name that no stored script carries, that
    is not an after-load script, whose id is free and whose name the
    compositum does not know, registered inside a context: the call
    completes, the id resolves to the script, every other id resolves as
    before, the id is recently added and listed under the current context,
    the compositum answers the current context for the name, and nothing is
    queued, logged or destroyed. *)
Theorem X1_AddScript_registers `{Host} (script : Script) (r : BoundRegistry)
    (g : Globals) :
  _currentContext g ≠ EmptyString ->
  GetScriptId (GetName script) <> 0 ->
  (forall id stored, _scripts r !! id = Some stored ->
                     GetName stored <> GetName script) ->
  IsAfterLoadDB script = false ->
  _scripts r !! GetScriptId (GetName script) = None ->
  _scriptnames_to_context g !! GetName script = None ->
  exists r' g',
    AddScript script r g = Ok (r', g') /\
    GetScriptById (GetScriptId (GetName script)) r' = Some script /\
    (forall id, id <> GetScriptId (GetName script) ->
                GetScriptById id r' = GetScriptById id r) /\
    GetScriptId (GetName script) ∈ _recently_added_ids r' /\
    (_currentContext g, GetScriptId (GetName script)) ∈ _ids_of_contexts r' /\
    GetScriptContextOfScriptName (GetName script) g' = Ok (_currentContext g) /\
    _delayed_delete_queue g' = _delayed_delete_queue g /\
    trace g' = trace g.
Proof.
  intros Hctx Hid Hname Hal Hfree Hunknown.
  unfold AddScript. rewrite (context_check g Hctx). simpl.
  apply N.eqb_neq in Hid. rewrite Hid. simpl.
  rewrite (proj2 (name_is_stored_false _ _) Hname), Hal, Hfree.
  unfold SetScriptNameInContext. simpl. rewrite Hunknown.
  rewrite bool_decide_eq_true_2 by done. simpl.
  eexists _, _. split; [reflexivity|].
  unfold GetScriptById, GetScriptContextOfScriptName. simpl.
  rewrite !lookup_insert_eq, app_nil_r.
  repeat split; try done.
  - intros id Hne. by rewrite lookup_insert_ne.
  - apply elem_of_union. left. by apply elem_of_singleton.
  - apply elem_of_app. right. left.
Qed.

Lemma X1_AddScript_registers_witness :
  exists r' g',
    @AddScript demo_host script_A empty_registry (demo_globals "mod1" [] 0)
    = Ok (r', g') /\
    GetScriptById 1 r' = Some script_A /\
    (forall id, id <> 1 -> GetScriptById id r' = GetScriptById id empty_registry) /\
    1 ∈ _recently_added_ids r' /\
    ("mod1", 1) ∈ _ids_of_contexts r' /\
    GetScriptContextOfScriptName "A" g' = Ok "mod1" /\
    _delayed_delete_queue g' = [] /\
    trace g' = [].
Proof.
  apply (@X1_AddScript_registers demo_host script_A empty_registry
           (demo_globals "mod1" [] 0)).
  - simpl. discriminate.
  - simpl. discriminate.
  - intros id stored Hl. simpl in Hl. by rewrite lookup_empty in Hl.
  - reflexivity.
  - reflexivity.
  - reflexivity.
Defined.

Lemma on_instance_Fatal (T : ScriptType)
    (method : Registry -> Globals -> Result (Registry * Globals))
    (regs : list Registry) (g : Globals) (msg : string) :
  (forall reg, method reg g = Fatal msg) ->
  ScriptMgr.on_instance T method regs g = Fatal msg.
Proof.
  intros Hm. induction regs as [|reg rest IH]; cbn [ScriptMgr.on_instance].
  - by rewrite Hm.
  - case_decide; [by rewrite Hm | by rewrite IH].
Qed.

(** X2. A registration with no open context is a fatal assertion, in a
    database bound and in a database unbound registry alike; and since
    [SwapScriptContext] clears the current context, every registration that
    follows a swap without a new [SetScriptContext] is fatal. *)
Theorem X2_no_context_is_fatal `{Host} :
  (forall script r g,
      _currentContext g = EmptyString ->
      AddScript script r g
      = Fatal "Tried to register a script without being in a valid script context!") /\
  (forall script r g,
      _currentContext g = EmptyString ->
      Unbound.AddScript script r g
      = Fatal "Tried to register a script without being in a valid script context!") /\
  (forall initialize s s' T script,
      ScriptMgr.SwapScriptContext initialize s = Ok s' ->
      ScriptMgr.AddScript T script s'
      = Fatal "Tried to register a script without being in a valid script context!").
Proof.
  assert (Hb : forall script r g, _currentContext g = EmptyString ->
             AddScript script r g
             = Fatal "Tried to register a script without being in a valid script context!").
  { intros script r g Hc. unfold AddScript. by rewrite Hc. }
  assert (Hu : forall script r g, _currentContext g = EmptyString ->
             Unbound.AddScript script r g
             = Fatal "Tried to register a script without being in a valid script context!").
  { intros script r g Hc. unfold Unbound.AddScript. by rewrite Hc. }
  split; [done|]. split; [done|].
  intros initialize s s' T script Hswap.
  unfold ScriptMgr.SwapScriptContext in Hswap. bind_as Hswap s1 Hs1.
  injection Hswap as <-. unfold ScriptMgr.AddScript. simpl.
  rewrite on_instance_Fatal
    with (msg := "Tried to register a script without being in a valid script context!");
    [done|].
  intros [T0 r|T0 r]; cbn [Registry.AddScript].
  - by rewrite Hb.
  - by rewrite Hu.
Qed.

Lemma X2_no_context_is_fatal_witness :
  @ScriptMgr.AddScript demo_host ItemScript script_B demo_system_swapped
  = Fatal "Tried to register a script without being in a valid script context!".
Proof.
  apply (proj2 (proj2 (@X2_no_context_is_fatal demo_host)) true
           (unwrap (@run demo_host
                      [OpSetScriptContext "a";
                       OpAddScript ItemScript script_A] (startup [] 0)))
           demo_system_swapped ItemScript script_B).
  by vm_compute.
Defined.

(** X3. A script whose name the database assigns to nothing is not
    registered, whatever the build: the call completes, the registry is
    unchanged, the script is appended to the delayed-delete queue, not
    destroyed, and one error is logged on "sql.sql". *)
Theorem X3_unassigned_name_is_queued `{Host} (script : Script)
    (r : BoundRegistry) (g : Globals) :
  _currentContext g ≠ EmptyString ->
  GetScriptId (GetName script) = 0 ->
  exists g' message,
    AddScript script r g = Ok (r, g') /\
    _delayed_delete_queue g' = _delayed_delete_queue g ++ [script] /\
    trace g' = trace g ++ [LogError "sql.sql" message] /\
    _scriptnames_to_context g' = _scriptnames_to_context g.
Proof.
  intros Hctx Hid. unfold AddScript. rewrite (context_check g Hctx), Hid.
  simpl. by eexists _, _.
Qed.

Lemma X3_unassigned_name_is_queued_witness :
  exists g' message,
    @AddScript demo_host script_unassigned empty_registry
       (demo_globals "mod1" [] 0) = Ok (empty_registry, g') /\
    _delayed_delete_queue g' = [script_unassigned] /\
    trace g' = [LogError "sql.sql" message] /\
    _scriptnames_to_context g' = ∅.
Proof.
  apply (@X3_unassigned_name_is_queued demo_host script_unassigned
           empty_registry (demo_globals "mod1" [] 0)).
  - simpl. discriminate.
  - reflexivity.
Defined.

(** ** Invariants of the database bound store *)

Lemma erase_scripts_Some (ids : list N) (m : gmap N Script) (id : N) (s : Script) :
  (erase_scripts ids m).1 !! id = Some s -> m !! id = Some s /\ id ∉ ids.
Proof.
  rewrite erase_scripts_lookup. case_decide; [discriminate | done].
Qed.

(** What a release leaves in the store was there before, and is outside the
    released bucket. *)
Lemma ReleaseContext_stored (T : ScriptType) (context : string)
    (r r' : BoundRegistry) (g g' : Globals) (id : N) (s : Script) :
  ReleaseContext T context r g = Ok (r', g') ->
  _scripts r' !! id = Some s ->
  _scripts r !! id = Some s /\ (context, id) ∉ _ids_of_contexts r.
Proof.
  unfold ReleaseContext. intros Hrun Hl. bind_as Hrun x Hhook.
  destruct x as [r1 g1].
  apply BeforeReleaseContext_store in Hhook as (Hs & Hi & _).
  pose proof (erase_scripts_Some
                (equal_range context (_ids_of_contexts r1)) (_scripts r1) id s) as L.
  destruct (erase_scripts _ _) as [m evs]. injection Hrun as <- <-.
  simpl in *. destruct (L Hl) as [Hold Hout]. split; [congruence|].
  intros Hin. apply Hout. apply elem_of_equal_range. by rewrite Hi.
Qed.

Lemma SwapContext_store (T : ScriptType) (initialize : bool)
    (r r' : BoundRegistry) (g g' : Globals) :
  SwapContext T initialize r g = Ok (r', g') ->
  _scripts r' = _scripts r /\ _ids_of_contexts r' = _ids_of_contexts r /\
  _alScripts r' = _alScripts r.
Proof.
  unfold SwapContext. intros Hrun. bind_as Hrun x Hhook. destruct x as [r1 g1].
  injection Hrun as <- <-.
  by apply BeforeSwapContext_store in Hhook as (Hs & Hi & _ & Ha).
Qed.

(** A property of bound registries that the empty registry has and that
    registration, release and swap keep holds in every registry of every
    system a sequence of operations reaches. *)
Section RegistryInvariant.
Context `{Host} (P : BoundRegistry -> Prop).
Hypothesis P_empty : P empty_registry.
Hypothesis P_add : forall script r g r' g',
    P r -> AddScript script r g = Ok (r', g') -> P r'.
Hypothesis P_release : forall T context r g r' g',
    P r -> ReleaseContext T context r g = Ok (r', g') -> P r'.
Hypothesis P_swap : forall T initialize r g r' g',
    P r -> SwapContext T initialize r g = Ok (r', g') -> P r'.

Definition holds_in (reg : Registry) : Prop :=
  match reg with
  | DatabaseBound _ r => P r
  | DatabaseUnbound _ _ => True
  end.

Lemma step_invariant (op : Op) (s s' : System) :
  Forall holds_in (_registries s) -> step op s = Ok s' ->
  Forall holds_in (_registries s').
Proof.
  intros Hall. destruct op as [context|T script|T|context|initialize];
    cbn [step]; intros Hrun.
  - by injection Hrun as <-.
  - unfold ScriptMgr.AddScript in Hrun. bind_as Hrun x Hon.
    destruct x as [regs g]. injection Hrun as <-. simpl.
    eapply on_instance_Forall; [| |exact Hall|exact Hon].
    + intros [T0 r|T0 r] reg' g0 g0' Hreg; cbn [Registry.AddScript];
        intros Hadd; bind_as Hadd y Ha; destruct y as [r1 g1];
        injection Hadd as <- <-; simpl; [by eapply P_add | done].
    + unfold new_registry. by destruct (is_script_database_bound T).
  - bind_as Hrun x Hon. destruct x as [regs g]. injection Hrun as <-. simpl.
    eapply on_instance_Forall; [| |exact Hall|exact Hon].
    + intros [T0 r|T0 r] reg' g0 g0' Hreg; cbn [Registry_AddALScripts];
        intros Hadd; bind_as Hadd y Ha; destruct y as [r1 g1];
        injection Hadd as <- <-; simpl; [|done].
      by apply AddALScripts_Ok in Ha as (_ & -> & _).
    + unfold new_registry. by destruct (is_script_database_bound T).
  - unfold ScriptMgr.ReleaseScriptContext, Compositum.ReleaseContext in Hrun.
    bind_as Hrun x Hall'. destruct x as [regs g]. injection Hrun as <-. simpl.
    eapply for_each_registry_Forall; [|exact Hall|exact Hall'].
    intros [T0 r|T0 r] reg' g0 g0' Hreg; cbn [Registry.ReleaseContext];
      intros Hrel; bind_as Hrel y Hr; destruct y as [r1 g1];
      injection Hrel as <- <-; simpl; [by eapply P_release | done].
  - unfold ScriptMgr.SwapScriptContext, Compositum.SwapContext in Hrun.
    bind_as Hrun s1 Hs1. bind_as Hs1 x Hall'. destruct x as [regs g].
    injection Hs1 as <-. injection Hrun as <-. simpl.
    eapply for_each_registry_Forall; [|exact Hall|exact Hall'].
    intros [T0 r|T0 r] reg' g0 g0' Hreg; cbn [Registry.SwapContext];
      intros Hswap; bind_as Hswap y Hr; destruct y as [r1 g1];
      injection Hswap as <- <-; simpl; [by eapply P_swap | done].
Qed.

Lemma run_invariant (ops : list Op) (s s' : System) :
  Forall holds_in (_registries s) -> run ops s = Ok s' ->
  Forall holds_in (_registries s').
Proof.
  revert s. induction ops as [|op rest IH]; intros s Hall Hrun; simpl in Hrun.
  - by injection Hrun as <-.
  - bind_as Hrun s1 Hstep. eapply IH; [|exact Hrun]. by eapply step_invariant.
Qed.

Lemma reachable_invariant (ops : list Op) (ms : list Map) (next : N)
    (s : System) (T : ScriptType) (r : BoundRegistry) :
  run ops (startup ms next) = Ok s -> (T, r) ∈ bound_registries s -> P r.
Proof.
  intros Hrun Hin. apply elem_of_bound_registries in Hin.
  assert (Hall : Forall holds_in (_registries s)).
  { eapply run_invariant; [|exact Hrun]. constructor. }
  rewrite Forall_forall in Hall. exact (Hall _ Hin).
Qed.

End RegistryInvariant.

Lemma AddScript_keyed_by_name `{Host} (script : Script) (r r' : BoundRegistry)
    (g g' : Globals) :
  keyed_by_name r -> AddScript script r g = Ok (r', g') -> keyed_by_name r'.
Proof.
  intros Hk. unfold AddScript. intros Hrun. bind_as Hrun u Hassert.
  destruct (negb (GetScriptId (GetName script) =? 0)) eqn:Hid.
  - destruct (name_is_stored (GetName script) (_scripts r)).
    + bind_as Hrun g1 Habort. bind_as Hrun u1 Habort'. by injection Hrun as <- <-.
    + destruct (IsAfterLoadDB script) eqn:Hal; [by injection Hrun as <- <-|].
      destruct (_scripts r !! GetScriptId (GetName script)) eqn:E;
        bind_as Hrun g1 Hname; injection Hrun as <- <-; [done|].
      intros id sc Hl. simpl in Hl.
      destruct (decide (id = GetScriptId (GetName script))) as [->|Hne].
      * rewrite lookup_insert_eq in Hl. injection Hl as <-.
        split; [done|]. split; [|done].
        apply negb_true_iff in Hid. by apply N.eqb_neq in Hid.
      * rewrite lookup_insert_ne in Hl by done. by apply Hk.
  - by injection Hrun as <- <-.
Qed.

(** X4. In every system that a sequence of context changes, registrations,
    flushes, releases and swaps reaches from the start of the process, a
    script that [GetScriptById] returns for an id has a name to which the
    database assigns that very id, the id is not 0 and the script is not an
    after-load script; so no two ids of a registry resolve to scripts of
    the same name. *)
Theorem X4_store_keyed_by_name `{Host} (ops : list Op) (ms : list Map)
    (next : N) (s : System) (T : ScriptType) (r : BoundRegistry) :
  run ops (startup ms next) = Ok s ->
  (T, r) ∈ bound_registries s ->
  (forall id script, GetScriptById id r = Some script ->
     GetScriptId (GetName script) = id /\ id <> 0 /\
     IsAfterLoadDB script = false) /\
  (forall id1 id2 script1 script2,
     GetScriptById id1 r = Some script1 ->
     GetScriptById id2 r = Some script2 ->
     GetName script1 = GetName script2 -> id1 = id2).
Proof.
  intros Hrun Hin.
  assert (Hk : keyed_by_name r).
  { apply (reachable_invariant keyed_by_name) with ops ms next s T;
      try done.
    - intros script r0 g r' g'. apply AddScript_keyed_by_name.
    - intros T0 context r0 g r' g' Hk Hrel id sc Hl.
      apply Hk. by eapply ReleaseContext_stored.
    - intros T0 initialize r0 g r' g' Hk Hswap id sc Hl.
      apply SwapContext_store in Hswap as (Hs & _). apply Hk. by rewrite <- Hs. }
  split.
  - intros id script Hl. by destruct (Hk id script Hl) as (-> & ? & ?).
  - intros id1 id2 sc1 sc2 H1 H2 Hn.
    destruct (Hk id1 sc1 H1) as (-> & _). destruct (Hk id2 sc2 H2) as (-> & _).
    by rewrite Hn.
Qed.

Lemma X4_store_keyed_by_name_witness :
  @GetScriptId demo_host (GetName script_A) = 1 /\ 1 <> 0 /\
  IsAfterLoadDB script_A = false.
Proof.
  apply (proj1 (@X4_store_keyed_by_name demo_host
                  [OpSetScriptContext "a";
                   OpAddScript ItemScript script_A;
                   OpAddScript ItemScript script_A'] [] 0 demo_system_queued
                  ItemScript demo_registry_queued
                  ltac:(by vm_compute) ltac:(vm_compute; left))
           1 script_A).
  by vm_compute.
Defined.

(** ** The name map of the compositum *)

Lemma names_known_mono (names names' : gmap string string) (reg : Registry) :
  names ⊆ names' -> names_known names reg -> names_known names' reg.
Proof.
  intros Hsub. destruct reg as [T r|T r]; [|done]. simpl.
  intros Hk id script Hl. destruct (Hk id script Hl) as (c & Hc & Hin).
  exists c. split; [|done]. by eapply lookup_weaken.
Qed.

Lemma AddScript_names `{Host} (script : Script) (r r' : BoundRegistry)
    (g g' : Globals) :
  AddScript script r g = Ok (r', g') ->
  _scriptnames_to_context g ⊆ _scriptnames_to_context g' /\
  (names_known_in (_scriptnames_to_context g) r ->
   names_known_in (_scriptnames_to_context g') r').
Proof.
  unfold AddScript. intros Hrun. bind_as Hrun u Hassert.
  destruct (negb (GetScriptId (GetName script) =? 0)) eqn:Hid.
  - destruct (name_is_stored (GetName script) (_scripts r)) eqn:Hstored.
    + bind_as Hrun g1 Habort. bind_as Hrun u1 Habort'.
      injection Hrun as <- <-. unfold ABORT_MSG in Habort.
      destruct debug_assertions; [discriminate|]. by injection Habort as <-.
    + destruct (IsAfterLoadDB script); [by injection Hrun as <- <-|].
      set (id := GetScriptId (GetName script)) in *.
      assert (Hset : forall evs g1,
                 SetScriptNameInContext (GetName script) (_currentContext g)
                   (emit evs g) = Ok g1 ->
                 _scriptnames_to_context g !! GetName script = None /\
                 _scriptnames_to_context g1
                 = <[GetName script := _currentContext g]>
                     (_scriptnames_to_context g)).
      { intros evs g1 Hs. unfold SetScriptNameInContext in Hs.
        bind_as Hs u1 Ha. apply ASSERT_Ok in Ha.
        apply bool_decide_eq_true in Ha. by injection Hs as <-. }
      assert (Hkeep : forall i sc,
                 names_known_in (_scriptnames_to_context g) r ->
                 _scripts r !! i = Some sc ->
                 exists context,
                   <[GetName script := _currentContext g]>
                     (_scriptnames_to_context g) !! GetName sc = Some context /\
                   (context, i) ∈ _ids_of_contexts r ++ [(_currentContext g, id)]).
      { intros i sc Hk Hl. destruct (Hk i sc Hl) as (c & Hc & Hin).
        exists c. split; [|apply elem_of_app; by left].
        rewrite lookup_insert_ne; [done|]. intros Heq.
        apply (proj1 (name_is_stored_false _ _) Hstored i sc Hl). by symmetry. }
      destruct (_scripts r !! id) eqn:E; bind_as Hrun g1 Hname;
        injection Hrun as <- <-; destruct (Hset _ _ Hname) as [Hnone ->];
        (split; [by apply insert_subseteq|]); intros Hk i sc Hl; simpl in *.
      * by apply Hkeep.
      * destruct (decide (i = id)) as [->|Hne].
        -- rewrite lookup_insert_eq in Hl. injection Hl as <-.
           exists (_currentContext g). rewrite lookup_insert_eq.
           split; [done|]. apply elem_of_app. right. left.
        -- rewrite lookup_insert_ne in Hl by done. by apply Hkeep.
  - by injection Hrun as <- <-.
Qed.

Lemma on_instance_names_known (T : ScriptType)
    (method : Registry -> Globals -> Result (Registry * Globals))
    (regs regs' : list Registry) (g g' : Globals) :
  (forall reg reg' g g', method reg g = Ok (reg', g') ->
     _scriptnames_to_context g ⊆ _scriptnames_to_context g' /\
     (names_known (_scriptnames_to_context g) reg ->
      names_known (_scriptnames_to_context g') reg')) ->
  names_known (_scriptnames_to_context g) (new_registry T) ->
  Forall (names_known (_scriptnames_to_context g)) regs ->
  ScriptMgr.on_instance T method regs g = Ok (regs', g') ->
  Forall (names_known (_scriptnames_to_context g')) regs'.
Proof.
  intros Hmethod Hnew Hall. revert regs'.
  induction Hall as [|reg rest Hreg Hrest IH]; intros regs' Hrun;
    cbn [ScriptMgr.on_instance] in Hrun.
  - bind_as Hrun x Hm. destruct x as [reg1 g1]. injection Hrun as <- <-.
    destruct (Hmethod _ _ _ _ Hm) as [_ Hk]. constructor; [auto | constructor].
  - destruct (decide (registry_type reg = T)).
    + bind_as Hrun x Hm. destruct x as [reg1 g1]. injection Hrun as <- <-.
      destruct (Hmethod _ _ _ _ Hm) as [Hsub Hk]. constructor; [auto|].
      eapply Forall_impl; [exact Hrest|]. intros reg0. by apply names_known_mono.
    + bind_as Hrun x Hm. destruct x as [rest1 g1]. injection Hrun as <- <-.
      constructor; [|by apply IH].
      assert (Hsub : _scriptnames_to_context g ⊆ _scriptnames_to_context g1).
      { clear IH Hrest Hreg. revert rest1 Hm.
        induction rest as [|reg0 rest0 IH0]; intros rest1 Hm;
          cbn [ScriptMgr.on_instance] in Hm.
        - bind_as Hm x Hx. destruct x as [y g2]. injection Hm as <- <-.
          by destruct (Hmethod _ _ _ _ Hx).
        - destruct (decide (registry_type reg0 = T)).
          + bind_as Hm x Hx. destruct x as [y g2]. injection Hm as <- <-.
            by destruct (Hmethod _ _ _ _ Hx).
          + bind_as Hm x Hx. destruct x as [y g2]. injection Hm as <- <-.
            by eapply IH0. }
      by eapply names_known_mono.
Qed.

Lemma new_registry_names_known (names : gmap string string) (T : ScriptType) :
  names_known names (new_registry T).
Proof.
  unfold new_registry. destruct (is_script_database_bound T); simpl; [|done].
  intros id script Hl. cbn [empty_registry _scripts] in Hl. by apply lookup_empty_Some in Hl.
Qed.

(** A loop over the registries whose method leaves the name map alone. *)
Lemma for_each_registry_names (P Q : Registry -> Prop)
    (method : Registry -> Globals -> Result (Registry * Globals))
    (regs regs' : list Registry) (g g' : Globals) :
  (forall reg reg' g g', method reg g = Ok (reg', g') -> P reg -> Q reg') ->
  Forall P regs ->
  for_each_registry method regs g = Ok (regs', g') ->
  Forall Q regs'.
Proof.
  intros Hmethod Hall. revert regs' g.
  induction Hall as [|reg rest Hreg _ IH]; intros regs' g Hrun; simpl in Hrun.
  - injection Hrun as <- <-. constructor.
  - bind_as Hrun x Hm. destruct x as [reg1 g1]. bind_as Hrun y Hrest.
    destruct y as [rest1 g2]. injection Hrun as <- <-.
    constructor; [by eapply Hmethod | by eapply IH].
Qed.

Lemma step_names_known `{Host} (op : Op) (s s' : System) :
  Forall (names_known (_scriptnames_to_context (globals s))) (_registries s) ->
  step op s = Ok s' ->
  Forall (names_known (_scriptnames_to_context (globals s'))) (_registries s').
Proof.
  intros Hall. destruct op as [context|T script|T|context|initialize];
    cbn [step]; intros Hrun.
  - by injection Hrun as <-.
  - unfold ScriptMgr.AddScript in Hrun. bind_as Hrun x Hon.
    destruct x as [regs g]. injection Hrun as <-. simpl.
    eapply on_instance_names_known;
      [|apply new_registry_names_known|exact Hall|exact Hon].
    intros [T0 r|T0 r] reg' g0 g0'; cbn [Registry.AddScript];
      intros Hadd; bind_as Hadd y Ha; destruct y as [r1 g1];
      injection Hadd as <- <-.
    + by apply AddScript_names in Ha.
    + split; [|done]. unfold Unbound.AddScript in Ha. bind_as Ha u Hassert.
      destruct (filter _ _); [destruct (IsAfterLoadDB script)|];
        by injection Ha as <- <-.
  - bind_as Hrun x Hon. destruct x as [regs g]. injection Hrun as <-. simpl.
    eapply on_instance_names_known;
      [|apply new_registry_names_known|exact Hall|exact Hon].
    intros [T0 r|T0 r] reg' g0 g0'; cbn [Registry_AddALScripts];
      intros Hadd; bind_as Hadd y Ha; destruct y as [r1 g1];
      injection Hadd as <- <-.
    + by apply AddALScripts_Ok in Ha as (_ & -> & ->).
    + by apply Unbound_AddALScripts_Ok in Ha as (_ & -> & ->).
  - unfold ScriptMgr.ReleaseScriptContext, Compositum.ReleaseContext in Hrun.
    bind_as Hrun x Hall'. destruct x as [regs g]. injection Hrun as <-. simpl.
    pose proof (for_each_registry_extends _ _ _ _ _ _
                  (Registry_ReleaseContext_extends context) Hall')
      as (_ & Hnames & _).
    rewrite Hnames.
    apply (for_each_registry_names
             (names_known (_scriptnames_to_context (globals s)))
             (names_known_besides context (_scriptnames_to_context (globals s))))
      in Hall'; [| |done].
    + eapply Forall_impl; [exact Hall'|].
      intros [T0 r|T0 r]; [|done]. simpl. intros Hk id script Hl.
      destruct (Hk id script Hl) as (c & Hc & Hin & Hne).
      exists c. split; [|done]. by apply map_lookup_filter_Some.
    + intros [T0 r|T0 r] reg' g0 g0'; cbn [Registry.ReleaseContext];
        intros Hrel; bind_as Hrel y Hr; destruct y as [r1 g1];
        injection Hrel as <- <-; [|done].
      simpl. intros Hk id script Hl.
      destruct (ReleaseContext_stored _ _ _ _ _ _ _ _ Hr Hl) as [Hold Hout].
      destruct (Hk id script Hold) as (c & Hc & Hin).
      apply ReleaseContext_keeps in Hr as (Hi & _).
      exists c. rewrite Hi. split; [done|]. split; [done|].
      intros ->. by apply Hout.
  - unfold ScriptMgr.SwapScriptContext, Compositum.SwapContext in Hrun.
    bind_as Hrun s1 Hs1. bind_as Hs1 x Hall'. destruct x as [regs g].
    injection Hs1 as <-. injection Hrun as <-. simpl.
    pose proof (for_each_registry_extends _ _ _ _ _ _
                  (Registry_SwapContext_extends initialize) Hall')
      as (_ & Hnames & _).
    rewrite Hnames.
    eapply for_each_registry_names; [|exact Hall|exact Hall'].
    intros [T0 r|T0 r] reg' g0 g0'; cbn [Registry.SwapContext];
      intros Hswap; bind_as Hswap y Hr; destruct y as [r1 g1];
      injection Hswap as <- <-; [|done].
    simpl. apply SwapContext_store in Hr as (Hs & Hi & _).
    intros Hk id script Hl. rewrite Hi. apply Hk. by rewrite <- Hs.
Qed.

Lemma run_names_known `{Host} (ops : list Op) (s s' : System) :
  Forall (names_known (_scriptnames_to_context (globals s))) (_registries s) ->
  run ops s = Ok s' ->
  Forall (names_known (_scriptnames_to_context (globals s'))) (_registries s').
Proof.
  revert s. induction ops as [|op rest IH]; intros s Hall Hrun; simpl in Hrun.
  - by injection Hrun as <-.
  - bind_as Hrun s1 Hstep. eapply IH; [|exact Hrun].
    by eapply step_names_known.
Qed.

(** X5. In every system that a sequence of operations reaches from the
    start of the process, the compositum knows the context of every stored
    script: [GetScriptContextOfScriptName] does not fail on its name, and
    the context it answers is one whose bucket lists the id of the script. *)
Theorem X5_stored_script_has_a_context `{Host} (ops : list Op)
    (ms : list Map) (next : N) (s : System) (T : ScriptType)
    (r : BoundRegistry) (id : N) (script : Script) :
  run ops (startup ms next) = Ok s ->
  (T, r) ∈ bound_registries s ->
  GetScriptById id r = Some script ->
  exists context,
    GetScriptContextOfScriptName (GetName script) (globals s) = Ok context /\
    (context, id) ∈ _ids_of_contexts r.
Proof.
  intros Hrun Hin Hl. apply elem_of_bound_registries in Hin.
  assert (Hall : Forall (names_known (_scriptnames_to_context (globals s)))
                        (_registries s)).
  { eapply run_names_known; [|exact Hrun]. constructor. }
  rewrite Forall_forall in Hall. specialize (Hall _ Hin). simpl in Hall.
  destruct (Hall id script Hl) as (c & Hc & Hin').
  exists c. split; [|done]. unfold GetScriptContextOfScriptName. by rewrite Hc.
Qed.

Lemma X5_stored_script_has_a_context_witness :
  exists context,
    GetScriptContextOfScriptName (GetName script_A) (globals demo_system_queued)
    = Ok context /\
    (context, 1) ∈ _ids_of_contexts demo_registry_queued.
Proof.
  apply (@X5_stored_script_has_a_context demo_host
           [OpSetScriptContext "a";
            OpAddScript ItemScript script_A;
            OpAddScript ItemScript script_A'] [] 0 demo_system_queued
           ItemScript demo_registry_queued 1 script_A).
  - by vm_compute.
  - vm_compute. left.
  - by vm_compute.
Defined.

(** ** Unused script names *)

Lemma elem_of_erase_names (owned : list Script) (scripts : gset string)
    (name : string) :
  name ∈ erase_names owned scripts <->
  name ∈ scripts /\ forall script, script ∈ owned -> GetName script <> name.
Proof.
  unfold erase_names. revert scripts.
  induction owned as [|s rest IH]; intros scripts; simpl.
  - split; [|by intros [? _]]. intros Hin. split; [done|].
    intros script Hs. by apply elem_of_nil in Hs.
  - rewrite IH, elem_of_difference, elem_of_singleton. split.
    + intros [[Hin Hne] Hrest]. split; [done|]. intros sc Hsc.
      apply elem_of_cons in Hsc as [->|Hsc]; [|by apply Hrest].
      intros Heq. by apply Hne.
    + intros [Hin Hall]. split; [split; [done|] |].
      * intros ->. apply (Hall s); [left | done].
      * intros sc Hsc. apply Hall. by right.
Qed.

Lemma elem_of_RemoveUsedScriptsFromContainer (s : System)
    (scripts : gset string) (name : string) :
  name ∈ Compositum_RemoveUsedScriptsFromContainer s scripts <->
  name ∈ scripts /\ ~ name_in_use s name.
Proof.
  destruct s as [regs g].
  unfold Compositum_RemoveUsedScriptsFromContainer, name_in_use. simpl.
  revert scripts. induction regs as [|reg rest IH]; intros scripts; simpl.
  - split; [|by intros [? _]]. intros Hin. split; [done|].
    intros (reg & script & Hreg & _). by apply elem_of_nil in Hreg.
  - rewrite IH. unfold Registry_RemoveUsedScriptsFromContainer.
    rewrite elem_of_erase_names. split.
    + intros [[Hin Hhead] Hrest]. split; [done|].
      intros (reg0 & script & Hreg & Hscript & Hname).
      apply elem_of_cons in Hreg as [->|Hreg]; [by eapply Hhead|].
      apply Hrest. by exists reg0, script.
    + intros [Hin Hnone]. split; [split; [done|] |].
      * intros script Hscript Hname. apply Hnone.
        exists reg, script. split; [left | done].
      * intros (reg0 & script & Hreg & Hscript & Hname). apply Hnone.
        exists reg0, script. split; [by right | done].
Qed.

(** X6. [RemoveUsedScriptsFromContainer] of the compositum leaves in the
    container exactly the names it held that no script of any registry,
    database bound or not, carries. *)
Theorem X6_container_keeps_the_unused_names (s : System)
    (scripts : gset string) (name : string) :
  name ∈ Compositum_RemoveUsedScriptsFromContainer s scripts <->
  name ∈ scripts /\ ~ name_in_use s name.
Proof. apply elem_of_RemoveUsedScriptsFromContainer. Qed.

(** X7. The end of [LoadDatabase] reports a script name as missing in the
    core exactly when the database lists it, it is not the empty
    placeholder and no registered script carries it; each such name is
    reported once, however often the database lists it. *)
Theorem X7_unused_names_reported_once (all_names : list string) (s : System) :
  NoDup (unused_script_names all_names s) /\
  forall name,
    name ∈ unused_script_names all_names s <->
    name ∈ all_names /\ name <> EmptyString /\ ~ name_in_use s name.
Proof.
  unfold unused_script_names. split.
  - apply NoDup_filter, NoDup_elements.
  - intros name.
    rewrite list_elem_of_filter, elem_of_elements,
      elem_of_RemoveUsedScriptsFromContainer, elem_of_list_to_set.
    tauto.
Qed.

(** ** The registry of a category that is not database bound *)

Lemma Unbound_AddScript_owns_once (T : ScriptType) (script : Script)
    (r r' : Unbound.Registry) (g g' : Globals) :
  owns_once (DatabaseUnbound T r) ->
  Unbound.AddScript script r g = Ok (r', g') ->
  owns_once (DatabaseUnbound T r').
Proof.
  intros [Hnodup Hall] Hadd. unfold Unbound.AddScript in Hadd.
  bind_as Hadd u Hassert. apply ASSERT_Ok in Hassert.
  destruct (filter _ _) as [|entry rest] eqn:Hfilter;
    [|by injection Hadd as <- <-].
  destruct (IsAfterLoadDB script) eqn:Hal; injection Hadd as <- <-; [done|].
  simpl. split.
  - rewrite !fmap_app. apply NoDup_app. split; [done|]. split.
    + intros p Hin Hp. apply list_elem_of_singleton in Hp.
      apply list_elem_of_fmap in Hin as (sc & -> & Hin).
      apply list_elem_of_fmap in Hin as (entry & -> & Hin).
      assert (Hf : entry ∈ filter (fun p => s_ptr p.2 = s_ptr script)
                                  (Unbound._scripts r))
        by by apply list_elem_of_filter.
      rewrite Hfilter in Hf. by apply elem_of_nil in Hf.
    + apply NoDup_singleton.
  - apply Forall_app. split; [done|]. constructor; [|constructor].
    simpl. split; [|done]. intros Heq. rewrite Heq in Hassert. done.
Qed.

Lemma new_registry_owns_once (T : ScriptType) : owns_once (new_registry T).
Proof.
  unfold new_registry. destruct (is_script_database_bound T); [done|].
  split; [constructor | constructor].
Qed.

Lemma step_owns_once `{Host} (op : Op) (s s' : System) :
  Forall owns_once (_registries s) -> step op s = Ok s' ->
  Forall owns_once (_registries s').
Proof.
  intros Hall. destruct op as [context|T script|T|context|initialize];
    cbn [step]; intros Hrun.
  - by injection Hrun as <-.
  - unfold ScriptMgr.AddScript in Hrun. bind_as Hrun x Hon.
    destruct x as [regs g]. injection Hrun as <-. simpl.
    eapply on_instance_Forall;
      [|apply new_registry_owns_once|exact Hall|exact Hon].
    intros [T0 r|T0 r] reg' g0 g0' Hreg; cbn [Registry.AddScript];
      intros Hadd; bind_as Hadd y Ha; destruct y as [r1 g1];
      injection Hadd as <- <-; [done|].
    by eapply Unbound_AddScript_owns_once.
  - bind_as Hrun x Hon. destruct x as [regs g]. injection Hrun as <-. simpl.
    eapply on_instance_Forall;
      [|apply new_registry_owns_once|exact Hall|exact Hon].
    intros [T0 r|T0 r] reg' g0 g0' Hreg; cbn [Registry_AddALScripts];
      intros Hadd; bind_as Hadd y Ha; destruct y as [r1 g1];
      injection Hadd as <- <-; [done|].
    by apply Unbound_AddALScripts_Ok in Ha as (_ & -> & _).
  - unfold ScriptMgr.ReleaseScriptContext, Compositum.ReleaseContext in Hrun.
    bind_as Hrun x Hall'. destruct x as [regs g]. injection Hrun as <-. simpl.
    eapply for_each_registry_Forall; [|exact Hall|exact Hall'].
    intros [T0 r|T0 r] reg' g0 g0' Hreg; cbn [Registry.ReleaseContext];
      intros Hrel; bind_as Hrel y Hr; destruct y as [r1 g1];
      injection Hrel as <- <-; [done|].
    unfold Unbound.ReleaseContext in Hr. injection Hr as <- <-.
    destruct Hreg as [Hnodup Hevery]. split; simpl.
    + apply (sublist_NoDup _ _ Hnodup).
      apply fmap_sublist, fmap_sublist, sublist_filter.
    + rewrite Forall_forall in Hevery. apply Forall_forall.
      intros entry Hin. apply list_elem_of_filter in Hin as [_ Hin]. auto.
  - unfold ScriptMgr.SwapScriptContext, Compositum.SwapContext in Hrun.
    bind_as Hrun s1 Hs1. bind_as Hs1 x Hall'. destruct x as [regs g].
    injection Hs1 as <-. injection Hrun as <-. simpl.
    eapply for_each_registry_Forall; [|exact Hall|exact Hall'].
    intros [T0 r|T0 r] reg' g0 g0' Hreg; cbn [Registry.SwapContext];
      intros Hswap; bind_as Hswap y Hr; destruct y as [r1 g1];
      injection Hswap as <- <-; [done|].
    unfold Unbound.SwapContext in Hr. by injection Hr as <- <-.
Qed.

Lemma run_owns_once `{Host} (ops : list Op) (s s' : System) :
  Forall owns_once (_registries s) -> run ops s = Ok s' ->
  Forall owns_once (_registries s').
Proof.
  revert s. induction ops as [|op rest IH]; intros s Hall Hrun; simpl in Hrun.
  - by injection Hrun as <-.
  - bind_as Hrun s1 Hstep. eapply IH; [|exact Hrun]. by eapply step_owns_once.
Qed.

(** X8. In every system that a sequence of operations reaches from the
    start of the process, the store of a category that is not database
    bound owns no object twice (the stored pointers are pairwise distinct),
    every entry sits under a context that is not empty, and no stored
    script is an after-load script. *)
Theorem X8_unbound_store_owns_each_object_once `{Host} (ops : list Op)
    (ms : list Map) (next : N) (s : System) (T : ScriptType)
    (r : Unbound.Registry) :
  run ops (startup ms next) = Ok s ->
  DatabaseUnbound T r ∈ _registries s ->
  NoDup (s_ptr <$> (Unbound._scripts r).*2) /\
  forall context script, (context, script) ∈ Unbound._scripts r ->
    context <> EmptyString /\ IsAfterLoadDB script = false.
Proof.
  intros Hrun Hin.
  assert (Hall : Forall owns_once (_registries s)).
  { eapply run_owns_once; [|exact Hrun]. constructor. }
  rewrite Forall_forall in Hall. destruct (Hall _ Hin) as [Hnodup Hevery].
  split; [done|]. intros context script Hentry.
  rewrite Forall_forall in Hevery. exact (Hevery _ Hentry).
Qed.

Lemma X8_unbound_store_owns_each_object_once_witness :
  NoDup (s_ptr <$> (Unbound._scripts demo_registry_world).*2) /\
  forall context script,
    (context, script) ∈ Unbound._scripts demo_registry_world ->
    context <> EmptyString /\ IsAfterLoadDB script = false.
Proof.
  apply (@X8_unbound_store_owns_each_object_once demo_host
           [OpSetScriptContext "a";
            OpAddScript WorldScript script_world;
            OpAddScript WorldScript script_world] [] 0
           (unwrap (@run demo_host
                      [OpSetScriptContext "a";
                       OpAddScript WorldScript script_world;
                       OpAddScript WorldScript script_world] (startup [] 0)))
           WorldScript demo_registry_world).
  - by vm_compute.
  - vm_compute. left.
Defined.

Lemma for_each_registry_swap_unbound (initialize : bool) (T : ScriptType)
    (r : Unbound.Registry) (regs regs' : list Registry) (g g' : Globals) :
  for_each_registry (Registry.SwapContext initialize) regs g = Ok (regs', g') ->
  DatabaseUnbound T r ∈ regs -> DatabaseUnbound T r ∈ regs'.
Proof.
  revert regs' g. induction regs as [|reg rest IH]; intros regs' g Hrun Hin;
    simpl in Hrun.
  - by apply elem_of_nil in Hin.
  - bind_as Hrun x Hm. destruct x as [reg1 g1]. bind_as Hrun y Hrest.
    destruct y as [rest1 g2]. injection Hrun as <- <-.
    apply elem_of_cons in Hin as [<-|Hin].
    + cbn [Registry.SwapContext] in Hm. bind_as Hm z Hz.
      destruct z as [r1 g3]. unfold Unbound.SwapContext in Hz.
      injection Hz as <- <-. injection Hm as <- <-. left.
    + right. by eapply IH.
Qed.

(** X9. Registering a pointer that the store of a category that is not
    database bound already owns leaves the store as it is, logs one error,
    destroys nothing and appends the pointer to the delayed-delete queue;
    the next [SwapContext] of the compositum, whose registry swaps destroy
    nothing, then drains the queue and runs the destructor of that object
    as its last effect, while the store still holds it. *)
Theorem X9_duplicate_pointer_destroyed_while_stored (T : ScriptType)
    (script : Script) (context : string) (r r' : Unbound.Registry)
    (s s2 : System) (g' : Globals) (initialize : bool) :
  DatabaseUnbound T r ∈ _registries s ->
  (context, script) ∈ Unbound._scripts r ->
  Unbound.AddScript script r (globals s) = Ok (r', g') ->
  Compositum.SwapContext initialize
    {| _registries := _registries s; globals := g' |} = Ok s2 ->
  r' = r /\
  _delayed_delete_queue g' = _delayed_delete_queue (globals s) ++ [script] /\
  (exists message,
      trace g' = trace (globals s) ++ [LogError "scripts" message]) /\
  DatabaseUnbound T r ∈ _registries s2 /\
  _delayed_delete_queue (globals s2) = [] /\
  exists evs,
    Forall not_a_destruction evs /\
    trace (globals s2)
    = trace g' ++ evs
      ++ (Destroyed <$> _delayed_delete_queue (globals s))
      ++ [Destroyed script].
Proof.
  intros Hreg Hentry Hadd Hswap.
  unfold Unbound.AddScript in Hadd. bind_as Hadd u Hassert.
  destruct (filter _ _) as [|entry rest] eqn:Hfilter.
  { assert (Hf : (context, script)
                 ∈ filter (fun p => s_ptr p.2 = s_ptr script)
                          (Unbound._scripts r))
      by by apply list_elem_of_filter.
    rewrite Hfilter in Hf. by apply elem_of_nil in Hf. }
  injection Hadd as <- <-. split; [done|]. split; [done|].
  split; [by eexists|].
  unfold Compositum.SwapContext in Hswap. bind_as Hswap x Hall.
  destruct x as [regs g1]. injection Hswap as <-. simpl in *.
  split; [by eapply for_each_registry_swap_unbound|]. split; [done|].
  pose proof (for_each_registry_extends _ _ _ _ _ _
                (Registry_SwapContext_extends initialize) Hall)
    as (Hq & _ & _ & evs & Htrace & Hevs).
  simpl in Hq, Htrace. exists evs. split; [done|].
  by rewrite Htrace, Hq, fmap_app, <- !(assoc_L (++)).
Qed.

Lemma X9_duplicate_pointer_destroyed_while_stored_witness :
  demo_registry_world = demo_registry_world /\
  _delayed_delete_queue (globals demo_system_world_again)
  = _delayed_delete_queue (globals (ScriptMgr.SetScriptContext "b" demo_system_world))
    ++ [script_world] /\
  (exists message,
      trace (globals demo_system_world_again)
      = trace (globals (ScriptMgr.SetScriptContext "b" demo_system_world))
        ++ [LogError "scripts" message]) /\
  DatabaseUnbound WorldScript demo_registry_world
  ∈ _registries (unwrap (Compositum.SwapContext false demo_system_world_again)) /\
  _delayed_delete_queue
    (globals (unwrap (Compositum.SwapContext false demo_system_world_again))) = [] /\
  exists evs,
    Forall not_a_destruction evs /\
    trace (globals (unwrap (Compositum.SwapContext false demo_system_world_again)))
    = trace (globals demo_system_world_again) ++ evs
      ++ (Destroyed <$> _delayed_delete_queue
                          (globals (ScriptMgr.SetScriptContext "b" demo_system_world)))
      ++ [Destroyed script_world].
Proof.
  apply (X9_duplicate_pointer_destroyed_while_stored WorldScript script_world
           "a" demo_registry_world demo_registry_world
           (ScriptMgr.SetScriptContext "b" demo_system_world)
           (unwrap (Compositum.SwapContext false demo_system_world_again))
           (globals demo_system_world_again) false).
  - vm_compute. left.
  - left.
  - by vm_compute.
  - by vm_compute.
Defined.

(** ** Unload *)

Lemma Unload_recently_added (T : ScriptType) (r : BoundRegistry) (g : Globals) :
  _recently_added_ids r ≠ ∅ -> exists message, Unload T r g = Fatal message.
Proof.
  intros Hne. unfold Unload.
  destruct (BeforeUnload T r g) as [g1|message]; simpl; [|by eexists].
  rewrite bool_decide_eq_false_2 by done. by eexists.
Qed.

(** X10. A registration that changes the store makes [Unload] fatal for
    every category: the id is recently added, and [Unload] asserts that no
    id is. Releasing a context does not help, since [ReleaseContext] keeps
    the recently added ids; only the swap clears them. *)
Theorem X10_unload_before_swap_is_fatal `{Host} (script : Script)
    (r r' : BoundRegistry) (g g' : Globals) :
  AddScript script r g = Ok (r', g') ->
  _scripts r' ≠ _scripts r ->
  (forall T g1, exists message, Unload T r' g1 = Fatal message) /\
  (forall T context g1 r2 g2,
      ReleaseContext T context r' g1 = Ok (r2, g2) ->
      forall g3, exists message, Unload T r2 g3 = Fatal message).
Proof.
  intros Hadd Hchanged.
  assert (Hrecent : _recently_added_ids r' ≠ ∅).
  { unfold AddScript in Hadd. bind_as Hadd u Hassert.
    destruct (negb (GetScriptId (GetName script) =? 0));
      [|injection Hadd as <- <-; by destruct Hchanged].
    destruct (name_is_stored (GetName script) (_scripts r)).
    { bind_as Hadd g1 Habort. bind_as Hadd u1 Habort'.
      injection Hadd as <- <-. by destruct Hchanged. }
    destruct (IsAfterLoadDB script);
      [injection Hadd as <- <-; by destruct Hchanged|].
    destruct (_scripts r !! GetScriptId (GetName script));
      bind_as Hadd g1 Hname; injection Hadd as <- <-; simpl;
      intros Hempty;
      apply (not_elem_of_empty (C := gset N) (GetScriptId (GetName script)));
      rewrite <- Hempty; apply elem_of_union; left; by apply elem_of_singleton. }
  split.
  - intros T g1. by apply Unload_recently_added.
  - intros T context g1 r2 g2 Hrel g3. apply Unload_recently_added.
    apply ReleaseContext_keeps in Hrel as (_ & Hr & _). by rewrite Hr.
Qed.

Lemma X10_unload_before_swap_is_fatal_witness :
  (forall T g1, exists message,
      Unload T (unwrap_hook (@AddScript demo_host script_A empty_registry
                               (demo_globals "mod1" [] 0))).1 g1
      = Fatal message) /\
  (forall T context g1 r2 g2,
      ReleaseContext T context
        (unwrap_hook (@AddScript demo_host script_A empty_registry
                        (demo_globals "mod1" [] 0))).1 g1 = Ok (r2, g2) ->
      forall g3, exists message, Unload T r2 g3 = Fatal message).
Proof.
  apply (@X10_unload_before_swap_is_fatal demo_host script_A empty_registry
           (unwrap_hook (@AddScript demo_host script_A empty_registry
                           (demo_globals "mod1" [] 0))).1
           (demo_globals "mod1" [] 0)
           (unwrap_hook (@AddScript demo_host script_A empty_registry
                           (demo_globals "mod1" [] 0))).2).
  - by vm_compute.
  - vm_compute. discriminate.
Defined.

Lemma SwapContext_then_Unload (T : ScriptType) (r r1 : BoundRegistry)
    (g g1 g' : Globals) :
  SwapContext T false r g = Ok (r1, g1) ->
  exists evs,
    Unload T r1 g'
    = Ok (set_ids_of_contexts [] (set_scripts ∅ r1),
          emit (evs ++ (Destroyed <$> (map_to_list (_scripts r1)).*2)) g') /\
    Forall only_command_table evs.
Proof.
  unfold SwapContext, BeforeSwapContext, Unload, BeforeUnload. intros Hswap.
  bind_as Hswap x Hhook. destruct x as [r0 g0]. injection Hswap as <- <-.
  destruct (ScriptRegistrySwapHooks T) eqn:Hk; simpl in *.
  - injection Hhook as <- <-. exists []. by rewrite bool_decide_eq_true_2.
  - injection Hhook as <- <-. exists []. by rewrite bool_decide_eq_true_2.
  - bind_as Hhook g2 Hd. bind_as Hhook g3 Hi. injection Hhook as <- <-.
    simpl. exists []. by rewrite !bool_decide_eq_true_2.
  - destruct (swapped r) eqn:Hs; simpl in Hhook; injection Hhook as <- <-;
      simpl; rewrite ?Hs; simpl; exists []; by rewrite bool_decide_eq_true_2.
  - injection Hhook as <- <-. simpl. exists [].
    by rewrite bool_decide_eq_true_2.
  - destruct (swapped r) eqn:Hs; simpl in Hhook; injection Hhook as <- <-;
      simpl; rewrite ?Hs; simpl; exists []; by rewrite bool_decide_eq_true_2.
  - injection Hhook as <- <-. simpl. exists [InvalidateCommandTable].
    rewrite bool_decide_eq_true_2 by done. simpl. rewrite emit_emit.
    split; [done|]. by constructor.
Qed.

Lemma Registry_SwapContext_then_Unload (reg reg1 : Registry)
    (g g1 g' : Globals) :
  Registry.SwapContext false reg g = Ok (reg1, g1) ->
  exists reg2 evs,
    Registry.Unload reg1 g' = Ok (reg2, emit evs g') /\
    stored_scripts reg2 = [] /\
    forall script, script ∈ stored_scripts reg1 <-> Destroyed script ∈ evs.
Proof.
  destruct reg as [T r|T r]; cbn [Registry.SwapContext]; intros Hswap;
    bind_as Hswap x Hx; destruct x as [r1 g0]; injection Hswap as <- <-;
    cbn [Registry.Unload stored_scripts].
  - destruct (SwapContext_then_Unload _ _ _ _ _ g' Hx) as (evs & -> & Hevs).
    simpl. eexists _, _. split; [done|]. split.
    + cbn [stored_scripts set_ids_of_contexts set_scripts _scripts].
      by rewrite map_to_list_empty.
    + intros script. rewrite elem_of_app. split.
      * intros Hin. right. by apply list_elem_of_fmap_2.
      * intros [Hin|Hin].
        -- rewrite Forall_forall in Hevs. by specialize (Hevs _ Hin).
        -- apply list_elem_of_fmap in Hin as (sc & Heq & Hin).
           by injection Heq as ->.
  - unfold Unbound.SwapContext in Hx. injection Hx as <- <-.
    unfold Unbound.Unload, Unbound.hook. simpl.
    destruct (ScriptRegistrySwapHooks T); rewrite ?emit_emit;
      eexists _, _; (split; [done|]); (split; [done|]); intros script;
      rewrite ?elem_of_app; (split; [intros Hin|]);
      try (by apply list_elem_of_fmap_2);
      try (right; by apply list_elem_of_fmap_2);
      try (intros Hin; apply list_elem_of_fmap in Hin as (sc & Heq & Hin);
           by injection Heq as ->).
    intros [Hin|Hin].
    + apply list_elem_of_singleton in Hin. discriminate.
    + apply list_elem_of_fmap in Hin as (sc & Heq & Hin). by injection Heq as ->.
Qed.

Lemma for_each_registry_swap_then_unload (regs regs1 : list Registry)
    (g g1 g' : Globals) :
  for_each_registry (Registry.SwapContext false) regs g = Ok (regs1, g1) ->
  exists regs2 evs,
    for_each_registry Registry.Unload regs1 g' = Ok (regs2, emit evs g') /\
    Forall (fun reg => stored_scripts reg = []) regs2 /\
    forall script,
      (exists reg, reg ∈ regs1 /\ script ∈ stored_scripts reg) <->
      Destroyed script ∈ evs.
Proof.
  revert regs1 g g'. induction regs as [|reg rest IH]; intros regs1 g g' Hrun;
    simpl in Hrun.
  - injection Hrun as <- <-. exists [], []. simpl. rewrite emit_nil.
    split; [done|]. split; [constructor|]. intros script. split.
    + intros (reg & Hin & _). by apply elem_of_nil in Hin.
    + intros Hin. by apply elem_of_nil in Hin.
  - bind_as Hrun x Hm. destruct x as [reg1 g2]. bind_as Hrun y Hrest.
    destruct y as [rest1 g3]. injection Hrun as <- <-.
    destruct (Registry_SwapContext_then_Unload _ _ _ _ g' Hm)
      as (reg2 & evs & Hun & Hempty & Hevs).
    destruct (IH _ _ (emit evs g') Hrest) as (rest2 & evs' & Hun' & Hall & Hevs').
    exists (reg2 :: rest2), (evs ++ evs'). simpl. rewrite Hun. simpl.
    rewrite Hun'. simpl. rewrite emit_emit. split; [done|].
    split; [by constructor|]. intros script. rewrite elem_of_app.
    rewrite <- Hevs, <- Hevs'. split.
    + intros (reg0 & Hin & Hs). apply elem_of_cons in Hin as [->|Hin];
        [by left | right; by exists reg0].
    + intros [Hs|(reg0 & Hin & Hs)];
        [exists reg1; split; [left | done] | exists reg0; split; [by right | done]].
Qed.

(** X11. After a completed [SwapContext(false)] of the compositum, [Unload]
    of the compositum completes for every registry: no hook assertion is
    left to fail. Afterwards no registry stores a script, and the scripts
    whose destructor ran during the unload are exactly the scripts that the
    registries stored. *)
Theorem X11_unload_after_swap_completes (s s1 : System) :
  Compositum.SwapContext false s = Ok s1 ->
  exists s2 evs,
    Compositum.Unload s1 = Ok s2 /\
    Forall (fun reg => stored_scripts reg = []) (_registries s2) /\
    trace (globals s2) = trace (globals s1) ++ evs /\
    forall script,
      (exists reg, reg ∈ _registries s1 /\ script ∈ stored_scripts reg) <->
      Destroyed script ∈ evs.
Proof.
  unfold Compositum.SwapContext, Compositum.Unload. intros Hswap.
  bind_as Hswap x Hall. destruct x as [regs g]. injection Hswap as <-. simpl.
  destruct (for_each_registry_swap_then_unload _ _ _ _ (DoDelayedDelete g) Hall)
    as (regs2 & evs & -> & Hempty & Hevs).
  simpl. by eexists _, evs.
Qed.

Lemma X11_unload_after_swap_completes_witness :
  exists s2 evs,
    Compositum.Unload (unwrap (Compositum.SwapContext false demo_system_queued))
    = Ok s2 /\
    Forall (fun reg => stored_scripts reg = []) (_registries s2) /\
    trace (globals s2)
    = trace (globals (unwrap (Compositum.SwapContext false demo_system_queued)))
      ++ evs /\
    forall script,
      (exists reg,
          reg ∈ _registries (unwrap (Compositum.SwapContext false
                                       demo_system_queued)) /\
          script ∈ stored_scripts reg) <->
      Destroyed script ∈ evs.
Proof.
  apply (X11_unload_after_swap_completes demo_system_queued
           (unwrap (Compositum.SwapContext false demo_system_queued))).
  by vm_compute.
Defined.

(** ** The outdoor PvP hook *)

Definition no_pvp_call (ev : Event) : Prop :=
  match ev with
  | OutdoorPvPDie | OutdoorPvPInit => False
  | _ => True
  end.

Lemma pvp_calls_app (evs evs' : list Event) :
  pvp_calls (evs ++ evs') = pvp_calls evs ++ pvp_calls evs'.
Proof. apply omap_app. Qed.

Lemma pvp_calls_none (evs : list Event) :
  Forall no_pvp_call evs -> pvp_calls evs = [].
Proof.
  induction 1 as [|ev evs Hev _ IH]; [done|].
  unfold pvp_calls in *. by destruct ev.
Qed.

Lemma take_turns_app (down : bool) (calls calls' : list bool) :
  take_turns down (calls ++ calls')
  = match take_turns down calls with
    | Some down' => take_turns down' calls'
    | None => None
    end.
Proof.
  revert down. induction calls as [|die rest IH]; intros down; simpl; [done|].
  by case_bool_decide.
Qed.

Lemma erase_scripts_events (ids : list N) (m : gmap N Script) :
  Forall no_pvp_call (erase_scripts ids m).2.
Proof.
  revert m. induction ids as [|id rest IH]; intros m; simpl; [constructor|].
  specialize (IH (delete id m)).
  destruct (erase_scripts rest (delete id m)) as [m' evs']. simpl in *.
  apply Forall_app. split; [|done].
  destruct (m !! id); [constructor; [done|constructor] | constructor].
Qed.

(** What a step does not say to the outdoor PvP manager. *)
Definition quiet_step (r r' : BoundRegistry) (g g' : Globals) : Prop :=
  swapped r' = swapped r /\
  exists evs, trace g' = trace g ++ evs /\ Forall no_pvp_call evs.

Lemma AddScript_quiet `{Host} (script : Script) (r r' : BoundRegistry)
    (g g' : Globals) :
  AddScript script r g = Ok (r', g') -> quiet_step r r' g g'.
Proof.
  unfold AddScript, quiet_step. intros Hadd. bind_as Hadd u Hassert.
  destruct (negb (GetScriptId (GetName script) =? 0)).
  - destruct (name_is_stored (GetName script) (_scripts r)).
    + bind_as Hadd g1 Habort. bind_as Hadd u1 Habort'.
      injection Hadd as <- <-. split; [done|]. unfold ABORT_MSG in Habort.
      destruct debug_assertions; [discriminate|]. injection Habort as <-.
      simpl. eexists. split; [done|]. by repeat constructor.
    + destruct (IsAfterLoadDB script).
      { injection Hadd as <- <-. split; [done|]. simpl. eexists.
        split; [done|]. by repeat constructor. }
      destruct (_scripts r !! GetScriptId (GetName script));
        bind_as Hadd g1 Hname; injection Hadd as <- <-;
        apply SetScriptNameInContext_queue in Hname as [_ ->];
        (split; [done|]); simpl; eexists; (split; [done|]);
        by repeat constructor.
  - injection Hadd as <- <-. split; [done|]. simpl. eexists.
    split; [done|]. by repeat constructor.
Qed.

Lemma registry_step_pvp `{Host} (op : RegistryOp) (r r' : BoundRegistry)
    (g g' : Globals) :
  registry_step OutdoorPvPScript op r g = Ok (r', g') ->
  exists evs,
    trace g' = trace g ++ evs /\
    take_turns (swapped r) (pvp_calls evs) = Some (swapped r').
Proof.
  assert (Hquiet : forall r r' g g', quiet_step r r' g g' ->
            exists evs, trace g' = trace g ++ evs /\
              take_turns (swapped r) (pvp_calls evs) = Some (swapped r')).
  { intros r0 r0' g0 g0' (Hs & evs & Ht & Hevs). exists evs.
    split; [done|]. rewrite (pvp_calls_none _ Hevs), Hs. done. }
  destruct op as [context|script| |context|initialize]; cbn [registry_step];
    intros Hstep.
  - injection Hstep as <- <-. exists []. by rewrite app_nil_r.
  - by eapply Hquiet, AddScript_quiet.
  - apply AddALScripts_Ok in Hstep as (_ & -> & ->). exists [].
    by rewrite app_nil_r.
  - unfold ReleaseContext, BeforeReleaseContext in Hstep. simpl in Hstep.
    pose proof (erase_scripts_events
                  (equal_range context (_ids_of_contexts r)) (_scripts r))
      as Hevs.
    destruct (swapped r) eqn:Hs; simpl in Hstep.
    + destruct (erase_scripts _ _) as [m evs]. injection Hstep as <- <-.
      simpl in *. exists evs. split; [done|].
      by rewrite (pvp_calls_none _ Hevs), Hs.
    + destruct (bucket_is_empty context r); simpl in Hstep;
        destruct (erase_scripts _ _) as [m evs]; injection Hstep as <- <-;
        simpl in *.
      * exists evs. split; [done|]. by rewrite (pvp_calls_none _ Hevs), Hs.
      * exists (OutdoorPvPDie :: evs). rewrite <- (assoc_L (++)).
        split; [done|]. change (pvp_calls (OutdoorPvPDie :: evs))
          with (true :: pvp_calls evs).
        by rewrite (pvp_calls_none _ Hevs).
  - unfold SwapContext, BeforeSwapContext in Hstep. simpl in Hstep.
    destruct initialize, (swapped r) eqn:Hs; simpl in Hstep;
      injection Hstep as <- <-; simpl; rewrite ?Hs;
      try (exists []; by rewrite app_nil_r).
    by exists [OutdoorPvPInit].
Qed.

(** X12. Over every sequence of calls the outdoor PvP registry receives,
    the registry tears the outdoor PvP manager down ([Die()]) and sets it
    up again ([InitOutdoorPvP()]) in turns: never two calls of the same
    kind in a row, and the flag [swapped] tells at every moment whether
    the manager is torn down. *)
Theorem X12_outdoor_pvp_calls_take_turns `{Host} (ops : list RegistryOp)
    (r r' : BoundRegistry) (g g' : Globals) :
  registry_run OutdoorPvPScript ops r g = Ok (r', g') ->
  exists evs,
    trace g' = trace g ++ evs /\
    take_turns (swapped r) (pvp_calls evs) = Some (swapped r').
Proof.
  revert r g. induction ops as [|op rest IH]; intros r g Hrun; simpl in Hrun.
  - injection Hrun as <- <-. exists []. by rewrite app_nil_r.
  - bind_as Hrun x Hstep. destruct x as [r1 g1].
    apply registry_step_pvp in Hstep as (evs & Ht & Hturns).
    apply IH in Hrun as (evs' & Ht' & Hturns').
    exists (evs ++ evs'). rewrite Ht', Ht, <- (assoc_L (++)). split; [done|].
    by rewrite pvp_calls_app, take_turns_app, Hturns.
Qed.

Lemma X12_outdoor_pvp_calls_take_turns_witness :
  exists evs,
    trace (unwrap_hook
             (@registry_run demo_host OutdoorPvPScript
                [RSetScriptContext "a"; RAddScript script_A;
                 RSwapContext true; RReleaseContext "a";
                 RSetScriptContext "b"; RAddScript script_B;
                 RReleaseContext "b"; RSwapContext false; RSwapContext false;
                 RReleaseContext "b"]
                empty_registry (demo_globals EmptyString [] 0))).2
    = trace (demo_globals EmptyString [] 0) ++ evs /\
    take_turns (swapped empty_registry) (pvp_calls evs)
    = Some (swapped
              (unwrap_hook
                 (@registry_run demo_host OutdoorPvPScript
                    [RSetScriptContext "a"; RAddScript script_A;
                     RSwapContext true; RReleaseContext "a";
                     RSetScriptContext "b"; RAddScript script_B;
                     RReleaseContext "b"; RSwapContext false; RSwapContext false;
                 RReleaseContext "b"]
                    empty_registry (demo_globals EmptyString [] 0))).1).
Proof.
  apply (@X12_outdoor_pvp_calls_take_turns demo_host
           [RSetScriptContext "a"; RAddScript script_A;
            RSwapContext true; RReleaseContext "a";
            RSetScriptContext "b"; RAddScript script_B;
            RReleaseContext "b"; RSwapContext false; RSwapContext false;
                 RReleaseContext "b"]).
  by vm_compute.
Defined.

(** ** Release of a context, in detail *)

Lemma ReleaseContext_lookup (T : ScriptType) (context : string)
    (r r' : BoundRegistry) (g g' : Globals) (id : N) :
  ReleaseContext T context r g = Ok (r', g') ->
  _scripts r' !! id
  = if decide ((context, id) ∈ _ids_of_contexts r) then None
    else _scripts r !! id.
Proof.
  unfold ReleaseContext. intros Hrun. bind_as Hrun x Hhook.
  destruct x as [r1 g1].
  apply BeforeReleaseContext_store in Hhook as (Hs & Hi & _).
  pose proof (erase_scripts_lookup
                (equal_range context (_ids_of_contexts r1)) (_scripts r1) id)
    as L.
  destruct (erase_scripts _ _) as [m evs]. injection Hrun as <- <-.
  simpl in *. rewrite L, Hi, Hs.
  destruct (decide (id ∈ equal_range context (_ids_of_contexts r)))
    as [Hin|Hout].
  - apply elem_of_equal_range in Hin. by rewrite decide_True.
  - rewrite decide_False; [done|]. intros Hin. apply Hout.
    by apply elem_of_equal_range.
Qed.

Lemma omap_lookup_delete (id : N) (m : gmap N Script) (ids : list N) :
  omap (fun x => delete id m !! x) ids
  = omap (fun x => m !! x) (filter (fun x => x <> id) ids).
Proof.
  induction ids as [|x rest IH]; [done|]. simpl.
  destruct (decide (x = id)) as [->|Hne].
  - rewrite lookup_delete_eq, filter_cons_False by (intros Hc; by apply Hc).
    done.
  - rewrite lookup_delete_ne, filter_cons_True by done. simpl.
    change (list_omap N Script) with (@omap list _ N Script).
    by rewrite IH.
Qed.

Lemma erase_scripts_once (ids : list N) (m : gmap N Script) :
  exists ids',
    NoDup ids' /\ (forall id, id ∈ ids' <-> id ∈ ids) /\
    (erase_scripts ids m).2 = Destroyed <$> omap (fun id => m !! id) ids'.
Proof.
  revert m. induction ids as [|id rest IH]; intros m.
  - exists []. split; [constructor|]. by split.
  - destruct (IH (delete id m)) as (rest' & Hnodup & Hsame & Hevs).
    exists (id :: filter (fun x => x <> id) rest'). split; [|split].
    + constructor; [|by apply NoDup_filter].
      intros Hin. apply list_elem_of_filter in Hin as [Hne _]. by apply Hne.
    + intros x. rewrite !elem_of_cons, list_elem_of_filter, Hsame.
      destruct (decide (x = id)); tauto.
    + simpl. destruct (erase_scripts rest (delete id m)) as [m' evs'].
      simpl in *. rewrite Hevs, omap_lookup_delete.
      by destruct (m !! id).
Qed.

Lemma ReleaseContext_once (T : ScriptType)
    (context : string) (r r' : BoundRegistry) (g g' : Globals) :
  ReleaseContext T context r g = Ok (r', g') ->
  exists ids hook_evs,
    NoDup ids /\
    (forall id, id ∈ ids <-> (context, id) ∈ _ids_of_contexts r) /\
    Forall not_a_destruction hook_evs /\
    trace g' = trace g ++ hook_evs
               ++ (Destroyed <$> omap (fun id => GetScriptById id r) ids) /\
    forall id, GetScriptById id r'
               = if decide (id ∈ ids) then None else GetScriptById id r.
Proof.
  intros Hrun. pose proof (fun id => ReleaseContext_lookup _ _ _ _ _ _ id Hrun)
    as Hlookup.
  unfold ReleaseContext in Hrun. bind_as Hrun x Hhook. destruct x as [r1 g1].
  pose proof (BeforeReleaseContext_extends _ _ _ _ _ _ Hhook)
    as (_ & _ & _ & hook_evs & Htrace & Hquiet).
  apply BeforeReleaseContext_store in Hhook as (Hs & Hi & _).
  destruct (erase_scripts_once (equal_range context (_ids_of_contexts r1))
                               (_scripts r1)) as (ids & Hnodup & Hsame & Hevs).
  destruct (erase_scripts _ _) as [m evs]. injection Hrun as <- <-.
  simpl in *. subst evs. exists ids, hook_evs. split; [done|].
  assert (Hbucket : forall id,
             id ∈ ids <-> (context, id) ∈ _ids_of_contexts r).
  { intros id. by rewrite Hsame, elem_of_equal_range, Hi. }
  split; [done|]. split; [done|]. split.
  - rewrite Htrace, Hs. by rewrite <- (assoc_L (++)).
  - intros id. unfold GetScriptById. rewrite Hlookup.
    destruct (decide (id ∈ ids)) as [Hin|Hout].
    + rewrite decide_True; [done | by apply Hbucket].
    + rewrite decide_False; [done|]. intros Hin. by apply Hout, Hbucket.
Qed.

(** X14. [ReleaseContext] of a database bound registry runs the destructor
    of every script stored under an id of the bucket exactly once, also
    when the index lists the id several times; after it these ids resolve
    to nothing, every other id resolves as before, and the hook destroys no
    script. *)
Theorem X14_release_destroys_each_script_once (T : ScriptType)
    (context : string) (r r' : BoundRegistry) (g g' : Globals) :
  ReleaseContext T context r g = Ok (r', g') ->
  exists ids hook_evs,
    NoDup ids /\
    (forall id, id ∈ ids <-> (context, id) ∈ _ids_of_contexts r) /\
    Forall not_a_destruction hook_evs /\
    trace g' = trace g ++ hook_evs
               ++ (Destroyed <$> omap (fun id => GetScriptById id r) ids) /\
    forall id, GetScriptById id r'
               = if decide (id ∈ ids) then None else GetScriptById id r.
Proof. apply ReleaseContext_once. Qed.

Lemma X14_release_destroys_each_script_once_witness :
  exists ids hook_evs,
    NoDup ids /\
    (forall id, id ∈ ids <-> ("a", id) ∈ _ids_of_contexts demo_registry_twice) /\
    Forall not_a_destruction hook_evs /\
    trace (unwrap_hook (ReleaseContext ItemScript "a" demo_registry_twice
                          (demo_globals EmptyString [] 0))).2
    = trace (demo_globals EmptyString [] 0) ++ hook_evs
      ++ (Destroyed <$> omap (fun id => GetScriptById id demo_registry_twice) ids) /\
    forall id,
      GetScriptById id
        (unwrap_hook (ReleaseContext ItemScript "a" demo_registry_twice
                        (demo_globals EmptyString [] 0))).1
      = if decide (id ∈ ids) then None
        else GetScriptById id demo_registry_twice.
Proof.
  apply (X14_release_destroys_each_script_once ItemScript "a"
           demo_registry_twice _ (demo_globals EmptyString [] 0)).
  by vm_compute.
Defined.

(** X15. Releasing a context under which a database bound registry holds
    no id changes neither the registry nor the process-wide state, whatever
    the category: no hook acts on an empty bucket. *)
Theorem X15_release_of_empty_bucket_changes_nothing (T : ScriptType)
    (context : string) (r : BoundRegistry) (g : Globals) :
  is_script_database_bound T = true ->
  bucket_is_empty context r = true ->
  ReleaseContext T context r g = Ok (r, g).
Proof.
  intros Hbound Hempty.
  assert (Hrange : equal_range context (_ids_of_contexts r) = []).
  { unfold bucket_is_empty in Hempty. by destruct (equal_range _ _). }
  assert (Hhook : BeforeReleaseContext T context r g = Ok (r, g)).
  { unfold BeforeReleaseContext.
    destruct T; try discriminate Hbound; simpl; rewrite ?Hempty;
      rewrite ?andb_false_r; try done.
    all: unfold GetScriptIDsToRemove; rewrite Hrange; simpl;
      rewrite DestroyScriptIdsFromSet_empty; simpl;
      rewrite (right_id_L ∅ (∪)); by destruct r. }
  unfold ReleaseContext. rewrite Hhook. simpl. rewrite Hrange. simpl.
  by rewrite set_scripts_id, emit_nil.
Qed.

Lemma X15_release_of_empty_bucket_changes_nothing_witness :
  ReleaseContext CreatureScript "mod2" creature_registry
    (demo_globals EmptyString demo_world 3)
  = Ok (creature_registry, demo_globals EmptyString demo_world 3).
Proof.
  apply (X15_release_of_empty_bucket_changes_nothing CreatureScript "mod2"
           creature_registry (demo_globals EmptyString demo_world 3));
    reflexivity.
Defined.

(** ** Spell and aura scripts *)

Lemma CreateSpellOrAuraScripts_extends {T : Type}
    (extractor : Script -> option T) (_Init : string -> N -> T -> T)
    (_Load : T -> bool) (r : BoundRegistry) (spellId : N)
    (bounds : list (N * bool)) (scriptVector : list T) :
  exists created,
    CreateSpellOrAuraScripts extractor _Init _Load r spellId bounds scriptVector
    = scriptVector ++ created.
Proof.
  revert scriptVector.
  induction bounds as [|[scriptId enabled] rest IH]; intros v; simpl.
  - exists []. by rewrite app_nil_r.
  - destruct enabled; simpl; [|apply IH].
    destruct (GetScriptById scriptId r) as [tmpscript|]; [|apply IH].
    destruct (extractor tmpscript) as [script|]; [|apply IH].
    destruct (_Load _); simpl; [|apply IH].
    destruct (IH (v ++ [_Init (GetName tmpscript) spellId script]))
      as (created & ->).
    eexists. by rewrite <- (assoc_L (++)).
Qed.

(** X13. [CreateSpellOrAuraScripts] only appends to the vector it is
    given. After the context of a loader was released, no spell or aura
    script is created from that loader any more: the call yields what it
    would have yielded before the release from the database rows whose
    loader id is not listed under the released context. *)
Theorem X13_no_spell_script_from_released_loader {T : Type}
    (extractor : Script -> option T) (_Init : string -> N -> T -> T)
    (_Load : T -> bool) (context : string) (r r' : BoundRegistry)
    (g g' : Globals) (spellId : N) (bounds : list (N * bool))
    (scriptVector : list T) :
  ReleaseContext SpellScriptLoader context r g = Ok (r', g') ->
  CreateSpellOrAuraScripts extractor _Init _Load r' spellId bounds scriptVector
  = CreateSpellOrAuraScripts extractor _Init _Load r spellId
      (filter (fun row => (context, row.1) ∉ _ids_of_contexts r) bounds)
      scriptVector /\
  exists created,
    CreateSpellOrAuraScripts extractor _Init _Load r' spellId bounds scriptVector
    = scriptVector ++ created.
Proof.
  intros Hrel. split; [|apply CreateSpellOrAuraScripts_extends].
  revert scriptVector.
  induction bounds as [|[scriptId enabled] rest IH]; intros v; [done|].
  cbn [CreateSpellOrAuraScripts]. unfold GetScriptById at 1.
  rewrite (ReleaseContext_lookup _ _ _ _ _ _ scriptId Hrel).
  destruct (decide ((context, scriptId) ∈ _ids_of_contexts r)) as [Hin|Hout].
  - rewrite filter_cons_False by (simpl; tauto).
    destruct enabled; simpl; apply IH.
  - rewrite filter_cons_True by done. cbn [CreateSpellOrAuraScripts].
    unfold GetScriptById.
    destruct enabled; simpl; [|apply IH].
    destruct (_scripts r !! scriptId) as [tmpscript|]; [|apply IH].
    destruct (extractor tmpscript) as [script|]; [|apply IH].
    destruct (_Load _); simpl; apply IH.
Qed.

Lemma X13_no_spell_script_from_released_loader_witness :
  CreateSpellOrAuraScripts (fun loader => Some (GetName loader))
    (fun name spell script => script) (fun script => true)
    (unwrap_hook (ReleaseContext SpellScriptLoader "a" spell_registry
                    (demo_globals EmptyString [] 0))).1
    7 [(1, true); (2, true); (2, false)] []
  = CreateSpellOrAuraScripts (fun loader => Some (GetName loader))
      (fun name spell script => script) (fun script => true)
      spell_registry 7
      (filter (fun row => ("a", row.1) ∉ _ids_of_contexts spell_registry)
              [(1, true); (2, true); (2, false)]) [] /\
  exists created,
    CreateSpellOrAuraScripts (fun loader => Some (GetName loader))
      (fun name spell script => script) (fun script => true)
      (unwrap_hook (ReleaseContext SpellScriptLoader "a" spell_registry
                      (demo_globals EmptyString [] 0))).1
      7 [(1, true); (2, true); (2, false)] []
    = [] ++ created.
Proof.
  apply (X13_no_spell_script_from_released_loader
           (fun loader => Some (GetName loader))
           (fun name spell script => script) (fun script => true)
           "a" spell_registry _ (demo_globals EmptyString [] 0)
           (unwrap_hook (ReleaseContext SpellScriptLoader "a" spell_registry
                           (demo_globals EmptyString [] 0))).2).
  by vm_compute.
Defined.

(** ** What a swap keeps *)

Lemma for_each_registry_Forall2 (R : Registry -> Registry -> Prop)
    (method : Registry -> Globals -> Result (Registry * Globals))
    (regs regs' : list Registry) (g g' : Globals) :
  (forall reg reg' g g', method reg g = Ok (reg', g') -> R reg reg') ->
  for_each_registry method regs g = Ok (regs', g') ->
  Forall2 R regs regs'.
Proof.
  intros Hmethod. revert regs' g.
  induction regs as [|reg rest IH]; intros regs' g Hrun; simpl in Hrun.
  - injection Hrun as <- <-. constructor.
  - bind_as Hrun x Hm. destruct x as [reg1 g1]. bind_as Hrun y Hrest.
    destruct y as [rest1 g2]. injection Hrun as <- <-.
    constructor; [by eapply Hmethod | by eapply IH].
Qed.

(** X16. [SwapScriptContext], with either value of [initialize], keeps the
    registries in place and keeps the scripts every registry stores; after
    it no database bound registry has a recently added id, the
    delayed-delete queue is empty, the current context is empty, and the
    names known to the compositum are the ones known before. *)
Theorem X16_swap_keeps_the_stores (initialize : bool) (s s' : System) :
  ScriptMgr.SwapScriptContext initialize s = Ok s' ->
  Forall2 swapped_from (_registries s) (_registries s') /\
  _delayed_delete_queue (globals s') = [] /\
  _currentContext (globals s') = EmptyString /\
  _scriptnames_to_context (globals s') = _scriptnames_to_context (globals s).
Proof.
  unfold ScriptMgr.SwapScriptContext, Compositum.SwapContext. intros Hswap.
  bind_as Hswap s1 Hs1. bind_as Hs1 x Hall. destruct x as [regs g].
  injection Hs1 as <-. injection Hswap as <-. simpl.
  pose proof (for_each_registry_extends _ _ _ _ _ _
                (Registry_SwapContext_extends initialize) Hall)
    as (_ & Hnames & _).
  split; [|done].
  eapply for_each_registry_Forall2; [|exact Hall].
  intros [T r|T r] reg' g0 g0'; cbn [Registry.SwapContext]; intros Hm;
    bind_as Hm y Hr; destruct y as [r1 g1]; injection Hm as <- <-.
  - split; [done|]. simpl. split.
    + apply SwapContext_store in Hr as (-> & _). done.
    + unfold SwapContext in Hr. bind_as Hr z Hhook. destruct z as [r2 g2].
      by injection Hr as <- <-.
  - unfold Unbound.SwapContext in Hr. by injection Hr as <- <-.
Qed.

Lemma X16_swap_keeps_the_stores_witness :
  Forall2 swapped_from (_registries demo_system_queued)
    (_registries (unwrap (ScriptMgr.SwapScriptContext true demo_system_queued))) /\
  _delayed_delete_queue
    (globals (unwrap (ScriptMgr.SwapScriptContext true demo_system_queued))) = [] /\
  _currentContext
    (globals (unwrap (ScriptMgr.SwapScriptContext true demo_system_queued)))
  = EmptyString /\
  _scriptnames_to_context
    (globals (unwrap (ScriptMgr.SwapScriptContext true demo_system_queued)))
  = _scriptnames_to_context (globals demo_system_queued).
Proof.
  apply (X16_swap_keeps_the_stores true demo_system_queued
           (unwrap (ScriptMgr.SwapScriptContext true demo_system_queued))).
  by vm_compute.
Defined.

(** ** The store of the other object type *)

Lemma GetObjectsStore_other (OT : ObjectType) (l : list Entity) (m : Map) :
  GetObjectsStore (other_type OT) (SetObjectsStore OT l m)
  = GetObjectsStore (other_type OT) m.
Proof. by destruct OT. Qed.

Lemma DoForAllMaps_other (OT : ObjectType)
    (worker : list Entity -> N -> Result (list Entity * N))
    (ms ms' : list Map) (next next' : N) :
  DoForAllMaps OT worker ms next = Ok (ms', next') ->
  Forall2 (fun m m' => GetObjectsStore (other_type OT) m'
                       = GetObjectsStore (other_type OT) m) ms ms'.
Proof.
  revert ms' next. induction ms as [|m rest IH]; intros ms' next Hrun;
    simpl in Hrun.
  - injection Hrun as <- <-. constructor.
  - bind_as Hrun x Hw. destruct x as [objects1 n1].
    bind_as Hrun y Hrest. destruct y as [rest1 n2]. injection Hrun as <- <-.
    constructor; [apply GetObjectsStore_other | by eapply IH].
Qed.

(** X17. The map worker of a swap hook visits the store of its own object
    type only: destroying or initializing the behaviors of one object type
    leaves, in every map, the store of the other object type as it was,
    keeps the number of maps, and touches neither the delayed-delete queue
    nor the name map nor the trace of effects. *)
Theorem X17_other_object_type_untouched (OT : ObjectType)
    (scripts : gmap N Script) (ids : gset N) (g g' : Globals) :
  DestroyScriptIdsFromSet OT ids g = Ok g' \/
  InitializeScriptIdsFromSet OT scripts ids g = Ok g' ->
  Forall2 (fun m m' => GetObjectsStore (other_type OT) m'
                       = GetObjectsStore (other_type OT) m)
          (maps g) (maps g') /\
  _delayed_delete_queue g' = _delayed_delete_queue g /\
  _scriptnames_to_context g' = _scriptnames_to_context g /\
  trace g' = trace g.
Proof.
  intros [Hrun|Hrun].
  - unfold DestroyScriptIdsFromSet in Hrun. bind_as Hrun x Hall.
    destruct x as [ms n]. injection Hrun as <-. simpl.
    split; [by eapply DoForAllMaps_other | done].
  - unfold InitializeScriptIdsFromSet in Hrun. bind_as Hrun x Hall.
    destruct x as [ms n]. injection Hrun as <-. simpl.
    split; [by eapply DoForAllMaps_other | done].
Qed.

Lemma X17_other_object_type_untouched_witness :
  Forall2 (fun m m' => GetObjectsStore (other_type Creature) m'
                       = GetObjectsStore (other_type Creature) m)
          (maps (demo_globals EmptyString demo_world 3)) (maps demo_released.2) /\
  _delayed_delete_queue demo_released.2
  = _delayed_delete_queue (demo_globals EmptyString demo_world 3) /\
  _scriptnames_to_context demo_released.2
  = _scriptnames_to_context (demo_globals EmptyString demo_world 3) /\
  trace demo_released.2 = trace (demo_globals EmptyString demo_world 3).
Proof.
  apply (X17_other_object_type_untouched Creature ∅ {[ 5 ]}
           (demo_globals EmptyString demo_world 3) demo_released.2).
  left. by vm_compute.
Defined.

(** ** Releasing twice *)

Lemma omap_all_None {A B : Type} (f : A -> option B) (l : list A) :
  (forall x, x ∈ l -> f x = None) -> omap f l = [].
Proof.
  induction l as [|x rest IH]; intros Hall; [done|]. simpl.
  rewrite (Hall x) by left. apply IH. intros y Hy. apply Hall. by right.
Qed.

(** X18. Releasing a context a second time, with no registration in
    between, destroys no script and leaves the store as the first release
    left it: the ids the index still lists for the context resolve to
    nothing, so no destructor runs twice. *)
Theorem X18_second_release_destroys_nothing (T : ScriptType)
    (context : string) (r r1 r2 : BoundRegistry) (g g1 g1' g2 : Globals) :
  ReleaseContext T context r g = Ok (r1, g1) ->
  ReleaseContext T context r1 g1' = Ok (r2, g2) ->
  _scripts r2 = _scripts r1 /\
  exists evs, trace g2 = trace g1' ++ evs /\ Forall not_a_destruction evs.
Proof.
  intros Hfirst Hsecond.
  destruct (ReleaseContext_once _ _ _ _ _ _ Hsecond)
    as (ids & hook_evs & _ & Hbucket & Hquiet & Htrace & Hlookup).
  assert (Hnone : forall id, id ∈ ids -> GetScriptById id r1 = None).
  { intros id Hin. apply Hbucket in Hin.
    apply ReleaseContext_keeps in Hfirst as Hkeep. destruct Hkeep as (Hi & _).
    rewrite Hi in Hin. by eapply ReleaseContext_GetScriptById. }
  split.
  - apply map_eq. intros id. specialize (Hlookup id).
    unfold GetScriptById in *. rewrite Hlookup.
    destruct (decide (id ∈ ids)) as [Hin|]; [|done].
    symmetry. by apply Hnone.
  - exists hook_evs. rewrite Htrace, (omap_all_None _ _ Hnone). simpl.
    by rewrite app_nil_r.
Qed.

Lemma X18_second_release_destroys_nothing_witness :
  _scripts (unwrap_hook
              (ReleaseContext ItemScript "a"
                 (unwrap_hook (ReleaseContext ItemScript "a" demo_registry_twice
                                 (demo_globals EmptyString [] 0))).1
                 (demo_globals EmptyString [] 0))).1
  = _scripts (unwrap_hook (ReleaseContext ItemScript "a" demo_registry_twice
                             (demo_globals EmptyString [] 0))).1 /\
  exists evs,
    trace (unwrap_hook
             (ReleaseContext ItemScript "a"
                (unwrap_hook (ReleaseContext ItemScript "a" demo_registry_twice
                                (demo_globals EmptyString [] 0))).1
                (demo_globals EmptyString [] 0))).2
    = trace (demo_globals EmptyString [] 0) ++ evs /\
    Forall not_a_destruction evs.
Proof.
  apply (X18_second_release_destroys_nothing ItemScript "a"
           demo_registry_twice _ _ (demo_globals EmptyString [] 0)
           (unwrap_hook (ReleaseContext ItemScript "a" demo_registry_twice
                           (demo_globals EmptyString [] 0))).2
           (demo_globals EmptyString [] 0)).
  - by vm_compute.
  - by vm_compute.
Defined.

(** ** The name scan of a registration *)

Lemma reachable_keyed_by_name `{Host} (ops : list Op) (ms : list Map)
    (next : N) (s : System) (T : ScriptType) (r : BoundRegistry) :
  run ops (startup ms next) = Ok s -> (T, r) ∈ bound_registries s ->
  keyed_by_name r.
Proof.
  intros Hrun Hin.
  apply (reachable_invariant keyed_by_name) with ops ms next s T; try done.
  - intros script r0 g r' g'. apply AddScript_keyed_by_name.
  - intros T0 context r0 g r' g' Hk Hrel id sc Hl.
    apply Hk. by eapply ReleaseContext_stored.
  - intros T0 initialize r0 g r' g' Hk Hswap id sc Hl.
    apply SwapContext_store in Hswap as (Hs & _). apply Hk. by rewrite <- Hs.
Qed.

(** X19. When the database assigns an id to one name only, the scan of
    [AddScript] over the stored scripts for an equal name and the lookup of
    the id of the name agree in every registry that a sequence of
    operations reaches from the start of the process: a name is carried by
    a stored script exactly when its id resolves to a script. A
    registration that passes the scan therefore finds its id free. *)
Theorem X19_name_scan_agrees_with_id_lookup `{Host} (ops : list Op)
    (ms : list Map) (next : N) (s : System) (T : ScriptType)
    (r : BoundRegistry) (name : string) :
  (forall n n', GetScriptId n = GetScriptId n' -> GetScriptId n <> 0 -> n = n') ->
  run ops (startup ms next) = Ok s ->
  (T, r) ∈ bound_registries s ->
  GetScriptId name <> 0 ->
  name_is_stored name (_scripts r) = true <->
  is_Some (GetScriptById (GetScriptId name) r).
Proof.
  intros Hinj Hrun Hin Hid.
  pose proof (reachable_keyed_by_name _ _ _ _ _ _ Hrun Hin) as Hk.
  rewrite name_is_stored_true. unfold GetScriptById. split.
  - intros (id & stored & Hl & Hname). destruct (Hk _ _ Hl) as (Hkey & _).
    rewrite Hname in Hkey. rewrite <- Hkey. by eexists.
  - intros [stored Hl]. exists (GetScriptId name), stored. split; [done|].
    destruct (Hk _ _ Hl) as (Hkey & _). symmetry. by apply Hinj.
Qed.

Lemma X19_name_scan_agrees_with_id_lookup_witness :
  name_is_stored "A" (_scripts demo_registry_queued) = true <->
  is_Some (GetScriptById (@GetScriptId demo_host "A") demo_registry_queued).
Proof.
  apply (@X19_name_scan_agrees_with_id_lookup demo_host
           [OpSetScriptContext "a";
            OpAddScript ItemScript script_A;
            OpAddScript ItemScript script_A'] [] 0 demo_system_queued
           ItemScript demo_registry_queued "A").
  - intros n n'. simpl.
    destruct (String.eqb_spec n "A"), (String.eqb_spec n' "A"),
      (String.eqb_spec n "B"), (String.eqb_spec n' "B"),
      (String.eqb_spec n "npc_five"), (String.eqb_spec n' "npc_five"),
      (String.eqb_spec n "npc_seven"), (String.eqb_spec n' "npc_seven");
      subst; try done; congruence.
  - by vm_compute.
  - vm_compute. left.
  - simpl. discriminate.
Defined.

(** ** Completion of a hot swap *)

(** X20. On a world whose stores are keyed by guid and hold no locked
    behavior, [ReleaseContext] followed by [SwapContext] of the creature
    and of the game-object registry complete: no assertion of the swap
    logic fails. The world is again one the swap logic can run on, no id is
    recently added any more, and after a swap without initialization no id
    is left in the removed set. *)
Theorem X20_hot_swap_cycle_completes (T : ScriptType) (OT : ObjectType)
    (context : string) (initialize : bool) (r : BoundRegistry) (g : Globals) :
  ScriptRegistrySwapHooks T = CreatureGameObjectHooks OT ->
  swappable OT (maps g) ->
  exists r1 g1 r2 g2,
    ReleaseContext T context r g = Ok (r1, g1) /\
    SwapContext T initialize r1 g1 = Ok (r2, g2) /\
    swappable OT (maps g2) /\
    _recently_added_ids r2 = ∅ /\
    (initialize = false -> ids_removed_ r2 = ∅).
Proof.
  intros Hk Hw.
  destruct (DestroyScriptIdsFromSet_completes OT
              (GetScriptIDsToRemove context r) g Hw) as (g1 & Hd1 & Hw1).
  assert (Hrel : exists r1 evs,
             ReleaseContext T context r g = Ok (r1, emit evs g1)).
  { unfold ReleaseContext, BeforeReleaseContext. rewrite Hk, Hd1. simpl.
    destruct (erase_scripts _ _) as [m evs]. by eexists _, _. }
  destruct Hrel as (r1 & evs & Hrel). exists r1, (emit evs g1).
  unfold SwapContext, BeforeSwapContext. rewrite Hk. destruct initialize.
  - simpl. eexists _, _. by repeat split.
  - assert (Hw1' : swappable OT (maps (emit evs g1))) by done.
    destruct (DestroyScriptIdsFromSet_completes OT
                (ids_removed_ r1 ∪ GetRecentlyAddedScriptIDs r1)
                (emit evs g1) Hw1') as (g2 & Hd & Hw2).
    destruct (InitializeScriptIdsFromSet_completes OT (_scripts r1)
                (ids_removed_ r1 ∪ GetRecentlyAddedScriptIDs r1) g2 Hw2)
      as (g3 & Hi & Hw3).
    eexists _, g3. split; [done|]. cbn in *. rewrite Hd. cbn. rewrite Hi. cbn.
    by repeat split.
Qed.

Lemma X20_hot_swap_cycle_completes_witness :
  exists r1 g1 r2 g2,
    ReleaseContext CreatureScript "mod1" creature_registry
      (demo_globals EmptyString demo_world 3) = Ok (r1, g1) /\
    SwapContext CreatureScript false r1 g1 = Ok (r2, g2) /\
    swappable Creature (maps g2) /\
    _recently_added_ids r2 = ∅ /\
    (false = false -> ids_removed_ r2 = ∅).
Proof.
  apply (X20_hot_swap_cycle_completes CreatureScript Creature "mod1" false
           creature_registry (demo_globals EmptyString demo_world 3)).
  - reflexivity.
  - unfold swappable. simpl. constructor; [|constructor].
    split; [compute_done | by repeat constructor].
Defined.

(** ** One registry for each script type *)

Lemma new_registry_type (T : ScriptType) : registry_type (new_registry T) = T.
Proof. unfold new_registry. by destruct (is_script_database_bound T). Qed.

Lemma on_instance_types (T : ScriptType)
    (method : Registry -> Globals -> Result (Registry * Globals))
    (regs regs' : list Registry) (g g' : Globals) :
  (forall reg reg' g g', method reg g = Ok (reg', g') ->
     registry_type reg' = registry_type reg) ->
  ScriptMgr.on_instance T method regs g = Ok (regs', g') ->
  registered_types regs'
  = if decide (T ∈ registered_types regs) then registered_types regs
    else registered_types regs ++ [T].
Proof.
  intros Hmethod. unfold registered_types. revert regs'.
  induction regs as [|reg rest IH]; intros regs' Hrun;
    cbn [ScriptMgr.on_instance] in Hrun.
  - bind_as Hrun x Hm. destruct x as [reg1 g1]. injection Hrun as <- <-.
    simpl. by rewrite (Hmethod _ _ _ _ Hm), new_registry_type.
  - destruct (decide (registry_type reg = T)) as [Heq|Hne].
    + bind_as Hrun x Hm. destruct x as [reg1 g1]. injection Hrun as <- <-.
      clear IH. rewrite !fmap_cons.
      case_decide as Hd; [|destruct Hd; rewrite Heq; left].
      by rewrite (Hmethod _ _ _ _ Hm).
    + bind_as Hrun x Hm. destruct x as [rest1 g1]. injection Hrun as <- <-.
      rewrite !fmap_cons, (IH _ Hm). clear IH.
      destruct (decide (T ∈ registry_type <$> rest)) as [Hin|Hout].
      * case_decide as Hd; [done|]. destruct Hd. by right.
      * case_decide as Hd; [|done].
        apply elem_of_cons in Hd as [Heq|Hin]; [by destruct Hne | by destruct Hout].
Qed.

Lemma for_each_registry_types
    (method : Registry -> Globals -> Result (Registry * Globals))
    (regs regs' : list Registry) (g g' : Globals) :
  (forall reg reg' g g', method reg g = Ok (reg', g') ->
     registry_type reg' = registry_type reg) ->
  for_each_registry method regs g = Ok (regs', g') ->
  registered_types regs' = registered_types regs.
Proof.
  intros Hmethod. unfold registered_types. revert regs' g.
  induction regs as [|reg rest IH]; intros regs' g Hrun; simpl in Hrun.
  - by injection Hrun as <- <-.
  - bind_as Hrun x Hm. destruct x as [reg1 g1]. bind_as Hrun y Hrest.
    destruct y as [rest1 g2]. injection Hrun as <- <-.
    by rewrite !fmap_cons, (Hmethod _ _ _ _ Hm), (IH _ _ Hrest).
Qed.

Lemma Registry_AddScript_type `{Host} (script : Script) (reg reg' : Registry)
    (g g' : Globals) :
  Registry.AddScript script reg g = Ok (reg', g') ->
  registry_type reg' = registry_type reg.
Proof.
  destruct reg; cbn [Registry.AddScript]; intros Hm; bind_as Hm x Hx;
    destruct x; by injection Hm as <- <-.
Qed.

Lemma Registry_AddALScripts_type `{Host} (reg reg' : Registry) (g g' : Globals) :
  Registry_AddALScripts reg g = Ok (reg', g') ->
  registry_type reg' = registry_type reg.
Proof.
  destruct reg; cbn [Registry_AddALScripts]; intros Hm; bind_as Hm x Hx;
    destruct x; by injection Hm as <- <-.
Qed.

Lemma Registry_ReleaseContext_type (context : string) (reg reg' : Registry)
    (g g' : Globals) :
  Registry.ReleaseContext context reg g = Ok (reg', g') ->
  registry_type reg' = registry_type reg.
Proof.
  destruct reg; cbn [Registry.ReleaseContext]; intros Hm; bind_as Hm x Hx;
    destruct x; by injection Hm as <- <-.
Qed.

Lemma Registry_SwapContext_type (initialize : bool) (reg reg' : Registry)
    (g g' : Globals) :
  Registry.SwapContext initialize reg g = Ok (reg', g') ->
  registry_type reg' = registry_type reg.
Proof.
  destruct reg; cbn [Registry.SwapContext]; intros Hm; bind_as Hm x Hx;
    destruct x; by injection Hm as <- <-.
Qed.

Lemma on_instance_NoDup (T : ScriptType)
    (method : Registry -> Globals -> Result (Registry * Globals))
    (regs regs' : list Registry) (g g' : Globals) :
  (forall reg reg' g g', method reg g = Ok (reg', g') ->
     registry_type reg' = registry_type reg) ->
  ScriptMgr.on_instance T method regs g = Ok (regs', g') ->
  NoDup (registered_types regs) -> NoDup (registered_types regs').
Proof.
  intros Hmethod Hrun Hnodup. rewrite (on_instance_types _ _ _ _ _ _ Hmethod Hrun).
  destruct (decide (T ∈ registered_types regs)) as [Hin|Hout]; [done|].
  apply NoDup_app. split; [done|]. split; [|apply NoDup_singleton].
  intros T0 Hin Hin'. apply list_elem_of_singleton in Hin'. by subst.
Qed.

Lemma step_distinct_types `{Host} (op : Op) (s s' : System) :
  NoDup (registered_types (_registries s)) -> step op s = Ok s' ->
  NoDup (registered_types (_registries s')).
Proof.
  intros Hnodup. destruct op as [context|T script|T|context|initialize];
    cbn [step]; intros Hrun.
  - by injection Hrun as <-.
  - unfold ScriptMgr.AddScript in Hrun. bind_as Hrun x Hon.
    destruct x as [regs g]. injection Hrun as <-. simpl.
    eapply on_instance_NoDup; [|exact Hon|done].
    intros reg reg' g0 g0'. apply Registry_AddScript_type.
  - bind_as Hrun x Hon. destruct x as [regs g]. injection Hrun as <-. simpl.
    eapply on_instance_NoDup; [|exact Hon|done].
    intros reg reg' g0 g0'. apply Registry_AddALScripts_type.
  - unfold ScriptMgr.ReleaseScriptContext, Compositum.ReleaseContext in Hrun.
    bind_as Hrun x Hall. destruct x as [regs g]. injection Hrun as <-. simpl.
    rewrite (for_each_registry_types _ _ _ _ _
               (Registry_ReleaseContext_type context) Hall). done.
  - unfold ScriptMgr.SwapScriptContext, Compositum.SwapContext in Hrun.
    bind_as Hrun s1 Hs1. bind_as Hs1 x Hall. destruct x as [regs g].
    injection Hs1 as <-. injection Hrun as <-. simpl.
    rewrite (for_each_registry_types _ _ _ _ _
               (Registry_SwapContext_type initialize) Hall). done.
Qed.

Lemma run_distinct_types `{Host} (ops : list Op) (s s' : System) :
  NoDup (registered_types (_registries s)) -> run ops s = Ok s' ->
  NoDup (registered_types (_registries s')).
Proof.
  revert s. induction ops as [|op rest IH]; intros s Hnodup Hrun;
    simpl in Hrun.
  - by injection Hrun as <-.
  - bind_as Hrun s1 Hstep. eapply IH; [|exact Hrun].
    by eapply step_distinct_types.
Qed.

(** [ScriptRegistry<T>::Instance()] is the one registry of type [T]. *)
Lemma on_instance_at (T : ScriptType)
    (method : Registry -> Globals -> Result (Registry * Globals))
    (regs : list Registry) (g g' : Globals) (reg reg' : Registry) :
  NoDup (registered_types regs) -> reg ∈ regs -> registry_type reg = T ->
  method reg g = Ok (reg', g') ->
  exists regs',
    ScriptMgr.on_instance T method regs g = Ok (regs', g') /\ reg' ∈ regs'.
Proof.
  intros Hnodup Hin Htype Hm. unfold registered_types in Hnodup.
  induction regs as [|head rest IH]; [by apply elem_of_nil in Hin|].
  simpl in Hnodup. apply NoDup_cons in Hnodup as [Hhead Hrest].
  cbn [ScriptMgr.on_instance]. apply elem_of_cons in Hin as [<-|Hin].
  - rewrite decide_True by done. rewrite Hm. simpl. eexists.
    split; [done | left].
  - rewrite decide_False.
    + destruct (IH Hrest Hin) as (rest' & -> & Hin'). simpl. eexists.
      split; [done | by right].
    + intros Heq. apply Hhead. rewrite Heq, <- Htype.
      by apply list_elem_of_fmap_2.
Qed.

(** ** Registering a released script again *)

Lemma Forall2_elem_of_l {A B : Type} (R : A -> B -> Prop) (l : list A)
    (k : list B) (x : A) :
  Forall2 R l k -> x ∈ l -> exists y, y ∈ k /\ R x y.
Proof.
  induction 1 as [|a b l k Hab _ IH]; intros Hin;
    [by apply elem_of_nil in Hin|].
  apply elem_of_cons in Hin as [->|Hin].
  - exists b. split; [left | done].
  - destruct (IH Hin) as (y & Hy & HR). exists y. split; [by right | done].
Qed.

Lemma for_each_registry_calls
    (method : Registry -> Globals -> Result (Registry * Globals))
    (regs regs' : list Registry) (g g' : Globals) :
  (forall reg reg' g g', method reg g = Ok (reg', g') ->
     exists evs, trace g' = trace g ++ evs) ->
  for_each_registry method regs g = Ok (regs', g') ->
  exists evs,
    trace g' = trace g ++ evs /\
    Forall2 (fun reg reg' =>
               exists g0 g0' evs0,
                 method reg g0 = Ok (reg', g0') /\
                 trace g0' = trace g0 ++ evs0 /\
                 forall ev, ev ∈ evs0 -> ev ∈ evs) regs regs'.
Proof.
  intros Hmethod. revert regs' g.
  induction regs as [|reg rest IH]; intros regs' g Hrun; simpl in Hrun.
  - injection Hrun as <- <-. exists []. rewrite app_nil_r.
    split; [done | constructor].
  - bind_as Hrun x Hm. destruct x as [reg1 g1]. bind_as Hrun y Hrest.
    destruct y as [rest1 g2]. injection Hrun as <- <-.
    destruct (Hmethod _ _ _ _ Hm) as [evs1 Ht1].
    destruct (IH _ _ Hrest) as (evs2 & Ht2 & Hcalls).
    exists (evs1 ++ evs2). split.
    + by rewrite Ht2, Ht1, <- (assoc_L (++)).
    + constructor.
      * exists g, g1, evs1. split; [done|]. split; [done|].
        intros ev Hev. apply elem_of_app. by left.
      * eapply Forall2_impl; [exact Hcalls|].
        intros reg0 reg0' (g0 & g0' & evs0 & Hcall & Ht & Hsub).
        exists g0, g0', evs0. split; [done|]. split; [done|].
        intros ev Hev. apply elem_of_app. right. by apply Hsub.
Qed.

Lemma AddScript_fresh `{Host} (script : Script) (r : BoundRegistry)
    (g : Globals) :
  _currentContext g ≠ EmptyString ->
  GetScriptId (GetName script) <> 0 ->
  (forall id stored, _scripts r !! id = Some stored ->
                     GetName stored <> GetName script) ->
  IsAfterLoadDB script = false ->
  _scripts r !! GetScriptId (GetName script) = None ->
  _scriptnames_to_context g !! GetName script = None ->
  exists r' g',
    AddScript script r g = Ok (r', g') /\
    _scripts r' = <[GetScriptId (GetName script) := script]> (_scripts r) /\
    _scriptnames_to_context g'
    = <[GetName script := _currentContext g]> (_scriptnames_to_context g) /\
    trace g' = trace g.
Proof.
  intros Hctx Hid Hname Hal Hfree Hunknown.
  unfold AddScript. rewrite (context_check g Hctx). simpl.
  apply N.eqb_neq in Hid. rewrite Hid. simpl.
  rewrite (proj2 (name_is_stored_false _ _) Hname), Hal, Hfree.
  unfold SetScriptNameInContext. simpl. rewrite Hunknown.
  rewrite bool_decide_eq_true_2 by done. simpl.
  eexists _, _. split; [reflexivity|]. simpl. by rewrite app_nil_r.
Qed.

(** X21. Reloading a script: in a system that a sequence of operations
    reaches from the start of the process, take a stored script and the
    context the compositum answers for its name. When the release of that
    context completes, it has run the destructor of the script, and a new
    instance of the same name can be registered in any context: the
    registration completes without logging or destroying anything, the id
    resolves to the new instance, and the compositum answers the new
    context for the name. *)
Theorem X21_released_script_can_be_registered_again `{Host} (ops : list Op)
    (ms : list Map) (next : N) (s s1 : System) (T : ScriptType)
    (r : BoundRegistry) (id : N) (old new : Script)
    (context context' : string) :
  run ops (startup ms next) = Ok s ->
  (T, r) ∈ bound_registries s ->
  GetScriptById id r = Some old ->
  GetScriptContextOfScriptName (GetName old) (globals s) = Ok context ->
  ScriptMgr.ReleaseScriptContext context s = Ok s1 ->
  GetName new = GetName old ->
  IsAfterLoadDB new = false ->
  context' <> EmptyString ->
  (exists evs, trace (globals s1) = trace (globals s) ++ evs /\
               Destroyed old ∈ evs) /\
  exists s2 r2,
    ScriptMgr.AddScript T new (ScriptMgr.SetScriptContext context' s1) = Ok s2 /\
    (T, r2) ∈ bound_registries s2 /\
    GetScriptById id r2 = Some new /\
    GetScriptContextOfScriptName (GetName new) (globals s2) = Ok context' /\
    trace (globals s2) = trace (globals s1).
Proof.
  intros Hrun Hin Hold Hctx Hrel Hname Hal Hctx'.
  pose proof (reachable_keyed_by_name _ _ _ _ _ _ Hrun Hin) as Hk.
  apply elem_of_bound_registries in Hin.
  assert (Hknown : names_known (_scriptnames_to_context (globals s))
                               (DatabaseBound T r)).
  { assert (Hall : Forall (names_known (_scriptnames_to_context (globals s)))
                          (_registries s)).
    { eapply run_names_known; [|exact Hrun]. constructor. }
    rewrite Forall_forall in Hall. by apply Hall. }
  assert (Htypes : NoDup (registered_types (_registries s))).
  { eapply run_distinct_types; [|exact Hrun]. constructor. }
  unfold GetScriptContextOfScriptName in Hctx.
  destruct (_scriptnames_to_context (globals s) !! GetName old) as [c|] eqn:Hn;
    [|discriminate]. injection Hctx as ->.
  destruct (Hknown id old Hold) as (c & Hc & Hidx).
  rewrite Hn in Hc. injection Hc as <-.
  destruct (Hk id old Hold) as (Hid & Hnz & _).
  unfold ScriptMgr.ReleaseScriptContext, Compositum.ReleaseContext in Hrel.
  bind_as Hrel x Hall. destruct x as [regs1 g1]. injection Hrel as <-.
  pose proof (for_each_registry_extends _ _ _ _ _ _
                (Registry_ReleaseContext_extends context) Hall)
    as (_ & Hnames & _).
  pose proof (for_each_registry_types _ _ _ _ _
                (Registry_ReleaseContext_type context) Hall) as Htypes1.
  assert (Hext : forall reg reg' g0 g0',
             Registry.ReleaseContext context reg g0 = Ok (reg', g0') ->
             exists evs, trace g0' = trace g0 ++ evs).
  { intros reg reg' g0 g0' Hcall.
    apply Registry_ReleaseContext_extends in Hcall
      as (_ & _ & _ & evs & Ht & _).
    by exists evs. }
  destruct (for_each_registry_calls _ _ _ _ _ Hext Hall)
    as (evs & Htrace & Hcalls).
  destruct (Forall2_elem_of_l _ _ _ _ Hcalls Hin)
    as (reg1 & Hin1 & g0 & g0' & evs0 & Hcall & Ht0 & Hsub).
  cbn [Registry.ReleaseContext] in Hcall. bind_as Hcall y Hr.
  destruct y as [r1 g0'']. injection Hcall as <- <-.
  destruct (ReleaseContext_once _ _ _ _ _ _ Hr)
    as (ids & hook_evs & _ & Hbucket & _ & Htrace0 & Hlookup).
  assert (Hids : id ∈ ids) by by apply Hbucket.
  simpl. split.
  - exists evs. split; [done|]. apply Hsub.
    rewrite Htrace0 in Ht0. apply app_inv_head in Ht0. subst evs0.
    apply elem_of_app. right. apply list_elem_of_fmap_2.
    apply list_elem_of_omap. by exists id.
  - assert (Hfree : _scripts r1 !! id = None).
    { specialize (Hlookup id). unfold GetScriptById in Hlookup.
      by rewrite Hlookup, decide_True. }
    assert (Hstored : forall id' stored, _scripts r1 !! id' = Some stored ->
                        GetName stored <> GetName new).
    { intros id' stored Hl Heq. specialize (Hlookup id').
      unfold GetScriptById in Hlookup. rewrite Hl in Hlookup.
      destruct (decide (id' ∈ ids)); [discriminate|].
      symmetry in Hlookup. destruct (Hk id' stored Hlookup) as (Hid' & _).
      rewrite Heq, Hname, <- Hid in Hid'. subst id'. congruence. }
    destruct (AddScript_fresh new r1
                (SetScriptContext context'
                   (set_names (filter (fun p => p.2 ≠ context)
                                      (_scriptnames_to_context g1)) g1)))
      as (r2 & g2 & Hadd & Hs2 & Hn2 & Ht2).
    + done.
    + by rewrite Hname, <- Hid.
    + done.
    + done.
    + by rewrite Hname, <- Hid.
    + simpl. apply map_lookup_filter_None. right. intros c Hc.
      rewrite Hnames, Hname, Hn in Hc. injection Hc as <-. simpl. tauto.
    + destruct (on_instance_at T (Registry.AddScript new) regs1
                  (SetScriptContext context'
                     (set_names (filter (fun p => p.2 ≠ context)
                                        (_scriptnames_to_context g1)) g1))
                  g2 (DatabaseBound T r1) (DatabaseBound T r2))
        as (regs2 & Hon & Hin2).
      * by rewrite Htypes1.
      * done.
      * done.
      * cbn [Registry.AddScript]. by rewrite Hadd.
      * exists {| _registries := regs2; globals := g2 |}, r2.
        unfold ScriptMgr.AddScript. simpl. rewrite Hon. simpl.
        split; [done|]. split; [by apply elem_of_bound_registries|].
        unfold GetScriptById, GetScriptContextOfScriptName.
        rewrite Hs2, Hn2, Hid, <- Hname, !lookup_insert_eq. done.
Qed.

Lemma X21_released_script_can_be_registered_again_witness :
  (exists evs,
      trace (globals (unwrap (ScriptMgr.ReleaseScriptContext "a"
                                demo_system_registered)))
      = trace (globals demo_system_registered) ++ evs /\
      Destroyed script_A ∈ evs) /\
  exists s2 r2,
    @ScriptMgr.AddScript demo_host ItemScript script_A'
      (ScriptMgr.SetScriptContext "b"
         (unwrap (ScriptMgr.ReleaseScriptContext "a" demo_system_registered)))
    = Ok s2 /\
    (ItemScript, r2) ∈ bound_registries s2 /\
    GetScriptById 1 r2 = Some script_A' /\
    GetScriptContextOfScriptName (GetName script_A') (globals s2) = Ok "b" /\
    trace (globals s2)
    = trace (globals (unwrap (ScriptMgr.ReleaseScriptContext "a"
                                demo_system_registered))).
Proof.
  apply (@X21_released_script_can_be_registered_again demo_host
           [OpSetScriptContext "a"; OpAddScript ItemScript script_A] [] 0
           demo_system_registered
           (unwrap (ScriptMgr.ReleaseScriptContext "a" demo_system_registered))
           ItemScript demo_registry_registered 1 script_A script_A' "a" "b").
  - by vm_compute.
  - vm_compute. left.
  - by vm_compute.
  - by vm_compute.
  - by vm_compute.
  - reflexivity.
  - reflexivity.
  - discriminate.
Defined.
